(** * GECScore: the scoring and threshold-calibration pipeline

    A shallow embedding of [detector/GECScore.py] and of the library routines
    it calls (numpy's [argmax], scikit-learn's [roc_curve], [auc],
    [confusion_matrix] and the precision/recall/F1/accuracy scores, and the
    bigram score of the [rouge] package), followed by the properties of the
    pipeline.

    Conventions of the embedding:
    - a Python float is a rational extended with the two infinities and NaN
      ([pyfloat]); arithmetic is exact, and rounding is modelled only where
      the result of the program depends on it: in the choice of the
      threshold among differences of rates that tie ([Binary64]);
    - a Python exception is a value of [exn], and code that may raise returns
      a [result];
    - the JSON files of the program live in a finite map from paths to
      contents; directories and permissions are not modelled, so that
      opening a file for writing never fails. *)

From Stdlib Require Import ZArith QArith Qreduction Lia Lqa Ascii.
From stdpp Require Import base option list sorting strings gmap.

Local Open Scope Z_scope.

(** ** Exceptions *)

Inductive exn :=
| KeyError | IndexError | TypeError | ValueError | AttributeError
| FileNotFoundError.

Inductive result (A : Type) :=
| Ok (a : A)
| Raise (e : exn).
Arguments Ok {A} a.
Arguments Raise {A} e.

#[global] Instance result_ret : MRet result := fun A a => Ok a.
#[global] Instance result_bind : MBind result := fun A B f m =>
  match m with
  | Ok a => f a
  | Raise e => Raise e
  end.

#[global] Instance result_fmap : FMap result := fun A B f m =>
  match m with
  | Ok a => Ok (f a)
  | Raise e => Raise e
  end.

(** [mapM] for [result]: the first exception wins, as in a Python list
    comprehension. *)
Fixpoint traverse {A B} (f : A -> result B) (l : list A) : result (list B) :=
  match l with
  | [] => Ok []
  | x :: r => y ← f x; ys ← traverse f r; Ok (y :: ys)
  end.

(** ** Python floats *)

Inductive pyfloat :=
| Fin (q : Q)
| PInf
| NInf
| NaN.

(** A score as Python holds it: a float, or [None]. *)
Definition pyscore := option pyfloat.

Module Float.

Definition of_Q (q : Q) : pyfloat := Fin (Qred q).
Definition of_Z (z : Z) : pyfloat := Fin (inject_Z z).

Definition is_nan (x : pyfloat) : bool :=
  match x with NaN => true | _ => false end.

Definition is_finite (x : pyfloat) : bool :=
  match x with Fin _ => true | _ => false end.

(** [x <= y]; every comparison with NaN is false. *)
Definition leb (x y : pyfloat) : bool :=
  match x, y with
  | NaN, _ | _, NaN => false
  | NInf, _ => true
  | _, PInf => true
  | Fin a, Fin b => Qle_bool a b
  | _, _ => false
  end.

(** [x < y]. *)
Definition ltb (x y : pyfloat) : bool :=
  match x, y with
  | NaN, _ | _, NaN => false
  | Fin a, Fin b => negb (Qle_bool b a)
  | NInf, NInf | PInf, _ => false
  | NInf, _ => true
  | Fin _, PInf => true
  | Fin _, NInf => false
  end.

(** [x >= y]. *)
Definition geb (x y : pyfloat) : bool := leb y x.

Definition opp (x : pyfloat) : pyfloat :=
  match x with
  | Fin a => of_Q (- a)
  | PInf => NInf
  | NInf => PInf
  | NaN => NaN
  end.

Definition add (x y : pyfloat) : pyfloat :=
  match x, y with
  | NaN, _ | _, NaN => NaN
  | Fin a, Fin b => of_Q (a + b)
  | PInf, NInf | NInf, PInf => NaN
  | PInf, _ | _, PInf => PInf
  | NInf, _ | _, NInf => NInf
  end.

Definition sub (x y : pyfloat) : pyfloat := add x (opp y).

Definition sgn (x : pyfloat) : Z :=
  match x with
  | Fin a => Z.sgn (Qnum a)
  | PInf => 1
  | NInf => -1
  | NaN => 0
  end.

Definition mul (x y : pyfloat) : pyfloat :=
  match x, y with
  | NaN, _ | _, NaN => NaN
  | Fin a, Fin b => of_Q (a * b)
  | _, _ =>
      match sgn x * sgn y with
      | 0 => NaN
      | Zpos _ => PInf
      | Zneg _ => NInf
      end
  end.

(** Halving, [x / 2.0]. *)
Definition half (x : pyfloat) : pyfloat :=
  match x with
  | Fin a => of_Q (a / 2)
  | _ => x
  end.

(** The ratio of two counts, [a / b] with [b] nonzero. *)
Definition ratio (a b : Z) : pyfloat := of_Q (inject_Z a / inject_Z b).

End Float.

(** ** numpy *)

Module Numpy.

(** [np.diff]: the differences of consecutive entries. *)
Fixpoint diff (l : list pyfloat) : list pyfloat :=
  match l with
  | x :: ((y :: _) as r) => Float.sub y x :: diff r
  | _ => []
  end.

(** The scan of [np.argmax] over floats: the running maximum [best], found
    at [best_i], is replaced by a later entry only when that entry is
    strictly greater or NaN, and a NaN maximum ends the scan. *)
Fixpoint argmax_from (best_i : nat) (best : pyfloat) (i : nat)
    (l : list pyfloat) : nat :=
  match l with
  | [] => best_i
  | x :: r =>
      if Float.is_nan best then best_i
      else if negb (Float.leb x best) then argmax_from i x (S i) r
      else argmax_from best_i best (S i) r
  end.

Definition argmax (l : list pyfloat) : result nat :=
  match l with
  | [] => Raise ValueError
  | x :: r => Ok (argmax_from 0 x 1 r)
  end.

(** Elementwise [a - b]. *)
Definition sub (a b : list pyfloat) : list pyfloat :=
  zip_with Float.sub a b.

(** [np.trapz(y, x)]: the sum of [(x[i+1] - x[i]) * (y[i+1] + y[i]) / 2]. *)
Fixpoint trapz (y x : list pyfloat) : pyfloat :=
  match x, y with
  | x0 :: ((x1 :: _) as xr), y0 :: ((y1 :: _) as yr) =>
      Float.add
        (Float.half (Float.mul (Float.sub x1 x0) (Float.add y1 y0)))
        (trapz yr xr)
  | _, _ => Float.of_Z 0
  end.

End Numpy.

(** ** scikit-learn *)

(** The routines of [sklearn.metrics] the program calls, with the defaults it
    leaves them ([pos_label=None], [drop_intermediate=True],
    [average="binary"], [zero_division="warn"]), as of scikit-learn 1.3, where
    the curve starts at the threshold [inf]. Their warnings are not
    exceptions and are left out. *)

Module Sklearn.

(** *** Input validation of the curve *)

Definition is_none (s : pyscore) : bool :=
  match s with None => true | _ => false end.

Definition score_is_nan (s : pyscore) : bool :=
  match s with Some NaN => true | _ => false end.

Definition score_is_inf (s : pyscore) : bool :=
  match s with Some PInf | Some NInf => true | _ => false end.

Definition finite_part (s : pyscore) : option Q :=
  match s with Some (Fin q) => Some q | _ => None end.

(** [assert_all_finite(y_score)] refuses NaN and the infinities with a
    [ValueError]; a [None] among the scores makes the comparisons of the
    sort raise [TypeError]. *)
Definition check_scores (y_score : list pyscore) : result (list Q) :=
  if existsb score_is_nan y_score then Raise ValueError
  else if existsb is_none y_score then Raise TypeError
  else if existsb score_is_inf y_score then Raise ValueError
  else Ok (omap finite_part y_score).

Definition has (z : Z) (l : list Z) : bool := existsb (Z.eqb z) l.

(** [type_of_target] and [_check_pos_label_consistency]: with no [pos_label]
    given, the classes of [y_true] must be one of {0,1}, {-1,1}, {0}, {-1},
    {1}; the positive label is then 1, and [y_true == pos_label] is
    returned. *)

Definition check_labels (y_true : list Z) : result (list bool) :=
  if forallb (fun z => (z =? -1) || (z =? 0) || (z =? 1)) y_true
     && negb (has (-1) y_true && has 0 y_true)
     && negb (Nat.eqb (length y_true) 0)
  then Ok (map (Z.eqb 1) y_true)
  else Raise ValueError.

(** *** The sort *)

(** [np.argsort(y_score, kind="mergesort")[::-1]]: a stable ascending sort,
    reversed. Stability fixes the order of tied scores, so any stable sort
    gives the same list; an insertion sort is used here. *)
Fixpoint insert_asc (x : Q * bool) (l : list (Q * bool)) : list (Q * bool) :=
  match l with
  | [] => [x]
  | y :: r => if Qle_bool (fst x) (fst y) then x :: l else y :: insert_asc x r
  end.

Definition sort_asc (l : list (Q * bool)) : list (Q * bool) :=
  foldr insert_asc [] l.

Definition sort_desc (l : list (Q * bool)) : list (Q * bool) :=
  reverse (sort_asc l).

(** *** [_binary_clf_curve] *)

(** One point of the curve: the false positives, the true positives and the
    threshold. *)
Abbreviation point := (Z * Z * pyfloat)%type.

(** The walk over the sorted scores. [k] is the index of the head and [tp]
    the positives seen before it. A point is emitted at every index whose
    score differs from the next one ([np.where(np.diff(y_score))]) and at the
    last index; there [tps] is the cumulative sum of the labels and
    [fps = 1 + index - tps]. *)
Fixpoint clf_points (k tp : Z) (s : list (Q * bool)) : list point :=
  match s with
  | [] => []
  | (v, y) :: rest =>
      let tp' := tp + (if y then 1 else 0) in
      let here : point := (1 + k - tp', tp', Fin v) in
      match rest with
      | [] => [here]
      | (v', _) :: _ =>
          if Qeq_bool v v' then clf_points (k + 1) tp' rest
          else here :: clf_points (k + 1) tp' rest
      end
  end.

Definition binary_clf_curve (y_true : list Z) (y_score : list pyscore)
    : result (list point) :=
  if negb (Nat.eqb (length y_true) (length y_score)) then Raise ValueError
  else
    scores ← check_scores y_score;
    labels ← check_labels y_true;
    Ok (clf_points 0 0 (sort_desc (zip scores labels))).

(** *** [roc_curve] *)

(** The test of [drop_intermediate]: the second differences of [fps] and of
    [tps] at a point between [prev] and [next]. *)
Definition corner (prev cur next : point) : bool :=
  let '(f0, t0, _) := prev in
  let '(f1, t1, _) := cur in
  let '(f2, t2, _) := next in
  negb (f2 - 2 * f1 + f0 =? 0) || negb (t2 - 2 * t1 + t0 =? 0).

Fixpoint drop_mid (prev : point) (l : list point) : list point :=
  match l with
  | cur :: ((next :: _) as rest) =>
      if corner prev cur next then cur :: drop_mid cur rest
      else drop_mid cur rest
  | _ => l
  end.

(** The first and the last point are always kept. *)
Definition drop_intermediate (pts : list point) : list point :=
  if (2 <? length pts)%nat then
    match pts with
    | p :: rest => p :: drop_mid p rest
    | [] => []
    end
  else pts.

Definition fps_of (pts : list point) : list Z := map (fun p => fst (fst p)) pts.
Definition tps_of (pts : list point) : list Z := map (fun p => snd (fst p)) pts.
Definition thresholds_of (pts : list point) : list pyfloat := map snd pts.

(** Counts divided by the last count; when the last count is zero the rate
    is undefined and every entry is NaN (a warning, not an exception). *)
Definition rates (counts : list Z) : list pyfloat :=
  let total := default 0 (last counts) in
  if total <=? 0 then map (fun _ => NaN) counts
  else map (fun c => Float.ratio c total) counts.

(** [roc_curve(y_true, y_score)] with its defaults: returns
    [(fpr, tpr, thresholds)], the curve starting at [(0, 0)] with the
    threshold [inf]. *)
Definition roc_curve (y_true : list Z) (y_score : list pyscore)
    : result (list pyfloat * list pyfloat * list pyfloat) :=
  pts ← binary_clf_curve y_true y_score;
  let pts := (0, 0, PInf) :: drop_intermediate pts in
  Ok (rates (fps_of pts), rates (tps_of pts), thresholds_of pts).

(** *** [auc] *)

(** The area under the points [(x, y)] by the trapezoidal rule. It needs two
    points at least and [x] monotonic. *)
Definition auc (x y : list pyfloat) : result pyfloat :=
  if negb (Nat.eqb (length x) (length y)) then Raise ValueError
  else if (length x <? 2)%nat then Raise ValueError
  else
    let dx := Numpy.diff x in
    if existsb (fun d => Float.ltb d (Float.of_Z 0)) dx then
      if forallb (fun d => Float.leb d (Float.of_Z 0)) dx
      then Ok (Float.opp (Numpy.trapz y x))
      else Raise ValueError
    else Ok (Numpy.trapz y x).

(** *** The classification metrics *)

(** The samples with true label [a] and predicted label [b]. *)
Definition count_pairs (a b : Z) (y_true y_pred : list Z) : Z :=
  Z.of_nat (length (filter (fun p => p = (a, b)) (zip y_true y_pred))).

(** [unique_labels]: the labels present in either vector, ascending. *)
Fixpoint insert_label (z : Z) (l : list Z) : list Z :=
  match l with
  | [] => [z]
  | y :: r =>
      if z <? y then z :: l
      else if z =? y then l
      else y :: insert_label z r
  end.

Definition unique_labels (y_true y_pred : list Z) : list Z :=
  foldr insert_label [] (y_true ++ y_pred).

(** [confusion_matrix(y_true, y_pred)]: one row per true label and one
    column per predicted label, over the labels present. *)
Definition confusion_matrix (y_true y_pred : list Z) : list (list Z) :=
  let labels := unique_labels y_true y_pred in
  map (fun a => map (fun b => count_pairs a b y_true y_pred) labels) labels.

(** A ratio that is 0.0 when its denominator is zero
    ([zero_division="warn"]). *)
Definition prf_divide (num den : Z) : pyfloat :=
  if den =? 0 then Float.of_Z 0 else Float.ratio num den.

(** The positives predicted positive, the samples predicted positive, and
    the samples that are positive ([pos_label=1]). *)
Definition tp_sum (y_true y_pred : list Z) : Z := count_pairs 1 1 y_true y_pred.

Definition pred_sum (y_pred : list Z) : Z :=
  Z.of_nat (length (filter (fun z => z = 1) y_pred)).
Definition true_sum (y_true : list Z) : Z :=
  Z.of_nat (length (filter (fun z => z = 1) y_true)).

Definition precision_score (y_true y_pred : list Z) : pyfloat :=
  prf_divide (tp_sum y_true y_pred) (pred_sum y_pred).

Definition recall_score (y_true y_pred : list Z) : pyfloat :=
  prf_divide (tp_sum y_true y_pred) (true_sum y_true).

(** The harmonic mean of precision and recall, which is
    [2 tp / (true_sum + pred_sum)], and 0.0 when that sum is zero. *)
Definition f1_score (y_true y_pred : list Z) : pyfloat :=
  let tp := tp_sum y_true y_pred in
  prf_divide (2 * tp) (true_sum y_true + pred_sum y_pred).

(** The share of samples predicted as labelled, of one sample at least. *)
Definition accuracy_score (y_true y_pred : list Z) : pyfloat :=
  Float.ratio
    (Z.of_nat (length (filter (fun p => fst p = snd p) (zip y_true y_pred))))
    (Z.of_nat (length y_true)).

End Sklearn.

(** ** The calibration and the evaluation of [GECScore.py] *)

(** The tuple both functions return. *)
Record roc_metrics := RocMetrics {
  roc_auc : pyfloat;
  threshold : pyfloat;
  conf_matrix : list (list Z);
  precision : pyfloat;
  recall : pyfloat;
  f1 : pyfloat;
  accuracy : pyfloat;
}.

(** [[0] * len(real_preds) + [1] * len(sample_preds)]. *)
Definition real_labels (real_preds sample_preds : list pyscore) : list Z :=
  replicate (length real_preds) 0 ++ replicate (length sample_preds) 1.

(** [real_preds + sample_preds]. *)
Definition predicted_probs (real_preds sample_preds : list pyscore)
    : list pyscore :=
  real_preds ++ sample_preds.

(** [1 if prob >= threshold else 0]; comparing [None] with a float raises
    [TypeError]. *)
Definition predict (t : pyfloat) (prob : pyscore) : result Z :=
  match prob with
  | None => Raise TypeError
  | Some p => Ok (if Float.geb p t then 1 else 0)
  end.

(** The hard predictions as scores of a second curve (numpy reads the
    integers as floats). *)
Definition as_scores (predictions : list Z) : list pyscore :=
  map (fun p => Some (Float.of_Z p)) predictions.

Definition get_roc_metrics (real_preds sample_preds : list pyscore)
    : result roc_metrics :=
  let real_labels := real_labels real_preds sample_preds in
  let predicted_probs := predicted_probs real_preds sample_preds in
  '(fpr, tpr, thresholds) ← Sklearn.roc_curve real_labels predicted_probs;
  roc_auc ← Sklearn.auc fpr tpr;
  optimal_idx ← Numpy.argmax (Numpy.sub tpr fpr);
  optimal_threshold ←
    from_option Ok (Raise IndexError) (thresholds !! optimal_idx);
  predictions ← traverse (predict optimal_threshold) predicted_probs;
  Ok {| roc_auc := roc_auc;
        threshold := optimal_threshold;
        conf_matrix := Sklearn.confusion_matrix real_labels predictions;
        precision := Sklearn.precision_score real_labels predictions;
        recall := Sklearn.recall_score real_labels predictions;
        f1 := Sklearn.f1_score real_labels predictions;
        accuracy := Sklearn.accuracy_score real_labels predictions |}.

Definition get_roc_metrics_with_threshold
    (real_preds sample_preds : list pyscore) (threshold : pyfloat)
    : result roc_metrics :=
  let real_labels := real_labels real_preds sample_preds in
  let predicted_probs := predicted_probs real_preds sample_preds in
  predictions ← traverse (predict threshold) predicted_probs;
  '(fpr, tpr, _) ← Sklearn.roc_curve real_labels (as_scores predictions);
  roc_auc ← Sklearn.auc fpr tpr;
  Ok {| roc_auc := roc_auc;
        threshold := threshold;
        conf_matrix := Sklearn.confusion_matrix real_labels predictions;
        precision := Sklearn.precision_score real_labels predictions;
        recall := Sklearn.recall_score real_labels predictions;
        f1 := Sklearn.f1_score real_labels predictions;
        accuracy := Sklearn.accuracy_score real_labels predictions |}.

(** ** Binary64 rounding *)

(** The one result of the program that the rounding of its floats decides is
    the index [np.argmax(tpr - fpr)] finds: two differences that are equal
    as rationals need not be equal once the rates are rounded. That part of
    the calibration is embedded here with the arithmetic rounded as numpy
    rounds it. *)
Module Binary64.

(** [floor (log2 (n / d))], for [n] and [d] positive. *)
Definition exponent (n d : Z) : Z :=
  let k := Z.log2 n - Z.log2 d in
  if (if 0 <=? k then d * 2 ^ k <=? n else d <=? n * 2 ^ (- k))
  then k else k - 1.

(** The integer nearest to [n / d], the even one of two that are as near. *)
Definition nearest_even (n d : Z) : Z :=
  let q := n / d in
  match 2 * (n mod d) ?= d with
  | Lt => q
  | Gt => q + 1
  | Eq => if Z.even q then q else q + 1
  end.

(** Rounding to the nearest number with a significand of 53 bits, ties to
    even: [c * 2 ^ e] with [2 ^ 52 <= c <= 2 ^ 53]. The exponent is not
    bounded: this is the rounding of IEEE 754 binary64 on every value that
    neither overflows nor is subnormal, as are the ratios of two counts below
    [2 ^ 53] and the differences of two such ratios. *)
Definition round (q : Q) : Q :=
  let n := Z.abs (Qnum q) in
  let d := Zpos (Qden q) in
  if n =? 0 then 0%Q
  else
    let e := exponent n d - 52 in
    let c := if 0 <=? e then nearest_even n (d * 2 ^ e)
             else nearest_even (n * 2 ^ (- e)) d in
    let s := Z.sgn (Qnum q) * c in
    if 0 <=? e then inject_Z (s * 2 ^ e) else Qmake s (Z.to_pos (2 ^ (- e))).

(** The float nearest to a rational. *)
Definition of_Q (q : Q) : pyfloat := Fin (Qred (round q)).

(** [a / b] on two counts, [b] nonzero. *)
Definition div (a b : Z) : pyfloat := of_Q (inject_Z a / inject_Z b).

(** [x - y]: the difference, rounded. *)
Definition sub (x y : pyfloat) : pyfloat :=
  match Float.sub x y with
  | Fin d => of_Q d
  | z => z
  end.

(** [fps / fps[-1]] and [tps / tps[-1]] in [roc_curve]; NaN throughout when
    the last count is zero. *)
Definition rates (counts : list Z) : list pyfloat :=
  let total := default 0 (last counts) in
  if total <=? 0 then map (fun _ => NaN) counts
  else map (fun c => div c total) counts.

(** [roc_curve(y_true, y_score)], the rates rounded. *)
Definition roc_curve (y_true : list Z) (y_score : list pyscore)
    : result (list pyfloat * list pyfloat * list pyfloat) :=
  pts ← Sklearn.binary_clf_curve y_true y_score;
  let pts := (0, 0, PInf) :: Sklearn.drop_intermediate pts in
  Ok (rates (Sklearn.fps_of pts), rates (Sklearn.tps_of pts),
      Sklearn.thresholds_of pts).

(** [optimal_threshold] of [get_roc_metrics], lines 65 to 73: the threshold
    at the index where [tpr - fpr] is greatest. The area of line 69 is
    computed and dropped: only whether [auc] raises bears on the
    threshold. *)
Definition optimal_threshold (real_preds sample_preds : list pyscore)
    : result pyfloat :=
  let real_labels := real_labels real_preds sample_preds in
  let predicted_probs := predicted_probs real_preds sample_preds in
  '(fpr, tpr, thresholds) ← roc_curve real_labels predicted_probs;
  _ ← Sklearn.auc fpr tpr;
  optimal_idx ← Numpy.argmax (zip_with sub tpr fpr);
  from_option Ok (Raise IndexError) (thresholds !! optimal_idx).

End Binary64.

(** ** Python strings *)

Module Str.

Local Open Scope string_scope.

(** [s.split(sep)] for a separator of one character, the separator being
    any character that satisfies [p]: the empty pieces are kept. *)
Fixpoint split_by (p : ascii -> bool) (s : string) : list string :=
  match s with
  | EmptyString => [EmptyString]
  | String c r =>
      if p c then EmptyString :: split_by p r
      else
        match split_by p r with
        | h :: t => String c h :: t
        | [] => [String c EmptyString]
        end
  end.

Definition is_char (c : ascii) (a : ascii) : bool := Ascii.eqb a c.

(** The whitespace of [str.split()] among the code points below 256. *)
Definition is_space (a : ascii) : bool :=
  let n := nat_of_ascii a in
  ((9 <=? n) && (n <=? 13) || (28 <=? n) && (n <=? 32)
   || (n =? 133) || (n =? 160))%nat.

Definition nonempty (s : string) : bool :=
  match s with EmptyString => false | _ => true end.

(** [s.split()]: the runs between whitespace, none of them empty. *)
Definition split_ws (s : string) : list string :=
  List.filter nonempty (split_by is_space s).

(** [sep.join(l)]. *)
Definition join (sep : string) (l : list string) : string :=
  String.concat sep l.

(** [s.replace(old, new)] for a non-empty [old]: every occurrence, scanning
    from the left; [skip] counts the characters of a replaced occurrence
    still to pass over. *)
Fixpoint replace_from (old new : string) (skip : nat) (s : string) : string :=
  match s with
  | EmptyString => EmptyString
  | String c r =>
      match skip with
      | S k => replace_from old new k r
      | O =>
          if String.prefix old s
          then new +:+ replace_from old new (String.length old - 1) r
          else String c (replace_from old new 0 r)
      end
  end.

Definition replace (old new s : string) : string := replace_from old new 0 s.

End Str.

(** ** The [rouge] package *)

(** The bigram score of [Rouge().get_scores] (package [rouge], 1.0), with
    its default of bigrams as sets. *)

Module Rouge.

Local Open Scope string_scope.

(** The sentences of a text as [get_scores] prepares them:
    [[" ".join(_.split()) for _ in text.split(".") if len(_) > 0]]. *)
Definition sentences (text : string) : list string :=
  map (fun s => Str.join " " (Str.split_ws s))
      (List.filter Str.nonempty (Str.split_by (Str.is_char ".") text)).

(** [_split_into_words]: every sentence split at single spaces, flattened. *)
Definition split_into_words (sents : list string) : list string :=
  List.concat (map (Str.split_by (Str.is_char " ")) sents).

(** [_get_ngrams(2, words)]: the set of the pairs of consecutive words. *)
Definition bigrams (words : list string) : gset (string * string) :=
  list_to_set (zip words (tail words)).

Definition word_bigrams (sents : list string) : gset (string * string) :=
  bigrams (split_into_words sents).

(** [1e-8]. *)
Definition eps : Q := 1 # 100000000.

(** [f_r_p_rouge_n], the ["f"] entry:
    [2.0 * ((precision * recall) / (precision + recall + 1e-8))], a ratio
    over an empty set of bigrams being 0.0. *)
Definition f_rouge_n (evaluated_count reference_count overlapping_count : nat)
    : Q :=
  let count n := inject_Z (Z.of_nat n) in
  let precision :=
    if Nat.eqb evaluated_count 0 then 0%Q
    else (count overlapping_count / count evaluated_count)%Q in
  let recall :=
    if Nat.eqb reference_count 0 then 0%Q
    else (count overlapping_count / count reference_count)%Q in
  (2 * ((precision * recall) / (precision + recall + eps)))%Q.

(** [rouge_n(evaluated_sentences, reference_sentences, n=2)]. *)
Definition rouge_2 (evaluated reference : list string) : result Q :=
  if Nat.eqb (length evaluated) 0 then Raise ValueError
  else if Nat.eqb (length reference) 0 then Raise ValueError
  else
    let evaluated_ngrams := word_bigrams evaluated in
    let reference_ngrams := word_bigrams reference in
    Ok (f_rouge_n (size evaluated_ngrams) (size reference_ngrams)
          (size (evaluated_ngrams ∩ reference_ngrams))).

(** [Rouge().get_scores(hyp, ref, avg=True)['rouge-2']['f']] for one pair of
    strings (the average is over that one pair). The unigram and the
    longest-common-subsequence scores computed besides raise on the same
    empty inputs; the recursion limit of the interpreter is not modelled,
    so that [Ok] here says what the score is if the package returns one, and
    [Raise] that the package raises. *)
Definition get_scores_rouge2_f (hyp ref : string) : result pyfloat :=
  f ← rouge_2 (sentences hyp) (sentences ref);
  Ok (Float.of_Q f).

End Rouge.

(** ** The data of [process_data] *)

(** One object of a data file. [text] and [label] are always there.
    [gec_text] is [None] when the key is missing or null. The score is
    [None] when the key is missing, [Some None] when it is null. *)
Record item := Item {
  text : string;
  gec_text : option string;
  label : string;
  llm_text_rouge2_score : option pyscore;
}.

(** [predictions = {'human': [], 'llm': []}]. *)
Record predictions := Predictions {
  human : list pyscore;
  llm : list pyscore;
}.

(** The content of a JSON file: the items of a data file, or a report. *)
Inductive file :=
| Data (items : list item)
| Report (roc_auc optimal_threshold : pyfloat) (conf_matrix : list (list Z))
    (precision recall f1 accuracy : pyfloat).

(** The command line. *)
Record args := Args {
  train_data_path : option string;
  test_data_path : string;
  llm_model : string;
  use_threshold : bool;
  threshold_value : pyfloat;
  seed : Z;
}.

(** The truth value of [item.get("gec_text")]. *)
Definition truthy (s : option string) : bool :=
  match s with
  | Some s => Str.nonempty s
  | None => false
  end.

Section Pipeline.

Local Open Scope string_scope.

(** The correction service: [chat_with_gpt4o(prompt, model)] returns the
    text of the completion, or [None] after an error. *)
Variable chat_with_gpt4o : string -> string -> option string.

Definition prompt_of (text : string) : string :=
  "Correct the grammar errors in the following text: " +:+ text
  +:+ String "010"%char "Corrected text:".

(** The first [try] of the loop body: an item without a correction asks the
    service for one and stores the answer. *)
Definition correct_item (llm_model : string) (it : item) : item :=
  if negb (truthy (gec_text it)) then
    {| text := text it;
       gec_text := chat_with_gpt4o (prompt_of (text it)) llm_model;
       label := label it;
       llm_text_rouge2_score := llm_text_rouge2_score it |}
  else it.

(** The second [try]: an item with a correction is scored, and a scorer that
    raises leaves a null score; an item without a correction keeps whatever
    score it had. *)
Definition score_item (it : item) : item :=
  match gec_text it with
  | Some gec =>
      if Str.nonempty gec then
        {| text := text it;
           gec_text := gec_text it;
           label := label it;
           llm_text_rouge2_score :=
             Some (match Rouge.get_scores_rouge2_f (text it) gec with
                   | Ok f => Some f
                   | Raise _ => None
                   end) |}
      else it
  | None => it
  end.

(** [item['llm_text_rouge2_score']]. *)
Definition stored_score (it : item) : result pyscore :=
  match llm_text_rouge2_score it with
  | Some s => Ok s
  | None => Raise KeyError
  end.

(** The end of the loop body: the score is appended to the list of the
    item's label. *)
Definition group_item (it : item) (p : predictions) : result predictions :=
  if String.eqb (label it) "human" then
    s ← stored_score it;
    Ok {| human := human p ++ [s]; llm := llm p |}
  else if String.eqb (label it) "llm" then
    s ← stored_score it;
    Ok {| human := human p; llm := llm p ++ [s] |}
  else Ok p.

(** [for item in data]: the items as updated, and the predictions. *)
Fixpoint process_items (llm_model : string) (data : list item)
    (p : predictions) : result (list item * predictions) :=
  match data with
  | [] => Ok ([], p)
  | it :: rest =>
      let it' := score_item (correct_item llm_model it) in
      p' ← group_item it' p;
      '(rest', p'') ← process_items llm_model rest p';
      Ok (it' :: rest', p'')
  end.

(** [json.load] of a data file. A file that holds a report is an object,
    whose keys the loop cannot treat as items. *)
Definition load_data (fs : gmap string file) (path : string)
    : result (list item) :=
  match fs !! path with
  | None => Raise FileNotFoundError
  | Some (Data items) => Ok items
  | Some (Report _ _ _ _ _ _ _) => Raise TypeError
  end.

Definition processed_path (filename : string) : string :=
  Str.replace ".json" "_processed_train.json" filename.

Definition results_path (filename : string) : string :=
  Str.replace ".json" "_results_test.json" filename.

(** [process_data(filename, llm_model)]: the cached file is read when it
    exists, the items are corrected, scored and grouped, and the items are
    written to the cache. Nothing is written when the loop raises. The
    write itself is taken to succeed: a cache path whose directory does not
    exist is outside the model. *)
Definition process_data (filename llm_model : string) (fs : gmap string file)
    : result (gmap string file * predictions) :=
  let processed_file := processed_path filename in
  data ← (if decide (is_Some (fs !! processed_file))
          then load_data fs processed_file
          else load_data fs filename);
  '(data', p) ← process_items llm_model data {| human := []; llm := [] |};
  Ok (<[processed_file := Data data']> fs, p).

Definition report_of (m : roc_metrics) (t : pyfloat) : file :=
  Report (roc_auc m) t (conf_matrix m) (precision m) (recall m) (f1 m)
    (accuracy m).

(** The body of the loop over the test files: process, evaluate, write the
    report. The file system is returned as it stands when an exception
    leaves the body. *)
Definition evaluate_file (llm_model : string) (t : pyfloat)
    (filename : string) (fs : gmap string file)
    : gmap string file * result unit :=
  match process_data filename llm_model fs with
  | Raise e => (fs, Raise e)
  | Ok (fs1, test_predictions) =>
      match get_roc_metrics_with_threshold
              (human test_predictions) (llm test_predictions) t with
      | Raise e => (fs1, Raise e)
      | Ok m => (<[results_path filename := report_of m t]> fs1, Ok ())
      end
  end.

(** [for filename in test_filenames]: an exception leaves the loop. *)
Fixpoint evaluate_files (llm_model : string) (t : pyfloat)
    (filenames : list string) (fs : gmap string file)
    : gmap string file * result unit :=
  match filenames with
  | [] => (fs, Ok ())
  | filename :: rest =>
      match evaluate_file llm_model t filename fs with
      | (fs', Ok _) => evaluate_files llm_model t rest fs'
      | (fs', Raise e) => (fs', Raise e)
      end
  end.

(** [for filename in train_filenames]: the predictions of every training
    file, appended. *)
Fixpoint process_train (llm_model : string) (filenames : list string)
    (all : predictions) (fs : gmap string file)
    : gmap string file * result predictions :=
  match filenames with
  | [] => (fs, Ok all)
  | filename :: rest =>
      match process_data filename llm_model fs with
      | Raise e => (fs, Raise e)
      | Ok (fs', p) =>
          process_train llm_model rest
            {| human := human all ++ human p; llm := llm all ++ llm p |} fs'
      end
  end.

Definition split_paths (paths : string) : list string :=
  Str.split_by (Str.is_char ",") paths.

(** [experiment(args)]: the file system it leaves, and whether it returned. *)
Definition experiment (a : args) (fs : gmap string file)
    : gmap string file * result unit :=
  if use_threshold a then
    evaluate_files (llm_model a) (threshold_value a)
      (split_paths (test_data_path a)) fs
  else
    match train_data_path a with
    | None => (fs, Raise AttributeError)
    | Some train =>
        match process_train (llm_model a) (split_paths train)
                {| human := []; llm := [] |} fs with
        | (fs1, Raise e) => (fs1, Raise e)
        | (fs1, Ok all_train_predictions) =>
            match get_roc_metrics (human all_train_predictions)
                    (llm all_train_predictions) with
            | Raise e => (fs1, Raise e)
            | Ok m =>
                evaluate_files (llm_model a) (threshold m)
                  (split_paths (test_data_path a)) fs1
            end
        end
    end.

End Pipeline.

(** * The vocabulary of the properties *)

(** The predictions of a vector of scores: every score is a float, and its
    prediction is 1 exactly when it reaches the threshold. *)
Definition predicted (t : pyfloat) (prob : pyscore) (p : Z) : Prop :=
  exists s, prob = Some s /\ p = if Float.geb s t then 1 else 0.

(** The report both functions assemble from the area, the threshold, the
    labels and the hard predictions. *)
Definition report (area t : pyfloat) (labels predictions : list Z)
    : roc_metrics :=
  {| roc_auc := area;
     threshold := t;
     conf_matrix := Sklearn.confusion_matrix labels predictions;
     precision := Sklearn.precision_score labels predictions;
     recall := Sklearn.recall_score labels predictions;
     f1 := Sklearn.f1_score labels predictions;
     accuracy := Sklearn.accuracy_score labels predictions |}.

(** What the loop body makes of an item before it groups it. *)
Definition processed (chat : string -> string -> option string)
    (model : string) (it : item) : item :=
  score_item (correct_item chat model it).

(** The labels that have a list of their own. *)
Definition known_label (it : item) : Prop :=
  label it = "human"%string \/ label it = "llm"%string.

#[global] Instance known_label_dec it : Decision (known_label it).
Proof. unfold known_label. apply _. Defined.

(** The items of one label, in order. *)
Definition labelled (lbl : string) (items : list item) : list item :=
  filter (fun it => label it = lbl) items.

(** The score key of every processed item that has a list. *)
Definition scores_stored (chat : string -> string -> option string)
    (model : string) (data : list item) : Prop :=
  Forall (fun it => known_label it -> is_Some (llm_text_rouge2_score it))
    (map (processed chat model) data).

(** Ascending and descending order of the scores. *)
Definition asc (a b : Q * bool) : Prop := (fst a <= fst b)%Q.
Definition desc (a b : Q * bool) : Prop := (fst b <= fst a)%Q.

(** The positives among sorted samples. *)
Definition positives (s : list (Q * bool)) : Z :=
  Z.of_nat (length (filter (fun p : Q * bool => snd p = true) s)).

Definition fps (p : Sklearn.point) : Z := fst (fst p).
Definition tps (p : Sklearn.point) : Z := snd (fst p).

(** A threshold that is a score not above [v0], and two thresholds in
    strictly decreasing order. *)
Definition below (v0 : Q) (p : Sklearn.point) : Prop :=
  exists v, snd p = Fin v /\ (v <= v0)%Q.

Definition thr_desc (p q : Sklearn.point) : Prop :=
  Float.ltb (snd q) (snd p) = true.

(** The curve [roc_curve] returns for validated labels and scores. *)
Definition curve (bs : list bool) (qs : list Q) : list Sklearn.point :=
  (0, 0, PInf) :: Sklearn.drop_intermediate
    (Sklearn.clf_points 0 0 (Sklearn.sort_desc (zip qs bs))).

(** The positives among the labels. *)
Definition count_true (bs : list bool) : Z :=
  Z.of_nat (length (filter (fun b : bool => b = true) bs)).

(** A difference below zero, as [auc] tests it. *)
Definition negative (d : pyfloat) : bool := Float.ltb d (Float.of_Z 0).

(** Finite floats in ascending order. *)
Definition fin_le (x y : pyfloat) : Prop :=
  exists a b, x = Fin a /\ y = Fin b /\ (a <= b)%Q.

(** A score that is a finite float. *)
Definition finite_score (s : pyscore) : Prop := exists q, s = Some (Fin q).

(** The labels of the two populations, as booleans. *)
Definition label_bits (h l : list pyscore) : list bool :=
  replicate (length h) false ++ replicate (length l) true.

(** A float that is neither infinite nor NaN. *)
Definition finite (x : pyfloat) : Prop := exists q, x = Fin q.

(** The index returned holds a maximum, and every entry before it is
    strictly smaller. *)
Definition first_max (l : list pyfloat) (i : nat) : Prop :=
  exists x,
    l !! i = Some x /\
    (forall j y, l !! j = Some y -> Float.leb y x = true) /\
    (forall j y, (j < i)%nat -> l !! j = Some y -> Float.ltb y x = true).

(** A vector of undefined rates. *)
Definition all_nan (l : list pyfloat) : Prop := Forall (fun x => x = NaN) l.

(** ** The vocabulary of the further properties *)

(** Every item has a correction. *)
Definition all_corrected (data : list item) : Prop :=
  Forall (fun it => truthy (gec_text it) = true) data.

(** What the loop body leaves of an item. *)
Definition kept (it it' : item) : Prop :=
  text it' = text it /\ label it' = label it /\
  (truthy (gec_text it) = true -> gec_text it' = gec_text it).

(** A path holds a report that carries the threshold [t]. *)
Definition report_under (t : pyfloat) (f : option file) : Prop :=
  exists a cm p r f1 acc, f = Some (Report a t cm p r f1 acc).

(** [old in s]: some suffix of [s] starts with [old]. *)
Fixpoint occurs (old s : string) : bool :=
  match s with
  | EmptyString => String.prefix old s
  | String _ r => String.prefix old s || occurs old r
  end.

(** A text made of full stops only, the empty text included. *)
Fixpoint only_stops (s : string) : bool :=
  match s with
  | EmptyString => true
  | String c r => Str.is_char "." c && only_stops r
  end.

(** The scores of a population that reach the threshold. *)
Definition reaches (t : pyfloat) (s : pyscore) : bool :=
  match s with
  | Some x => Float.geb x t
  | None => false
  end.

Definition reaching (t : pyfloat) (pop : list pyscore) : Z :=
  Z.of_nat (length (List.filter (reaches t) pop)).

(** The metrics of a report as counts over the two populations. *)
Definition counted (t : pyfloat) (h l : list pyscore) (m : roc_metrics)
    : Prop :=
  let a := reaching t h in
  let b := reaching t l in
  let nh := Z.of_nat (length h) in
  let nl := Z.of_nat (length l) in
  conf_matrix m = [[nh - a; a]; [nl - b; b]] /\
  precision m = Sklearn.prf_divide b (a + b) /\
  recall m = Sklearn.prf_divide b nl /\
  f1 m = Sklearn.prf_divide (2 * b) (nl + (a + b)) /\
  accuracy m = Float.ratio (nh - a + b) (nh + nl).

(** The samples predicted positive, and the positives among them. *)
Definition is_one (p : Q * bool) : bool := Qeq_bool (fst p) (inject_Z 1).
Definition is_tp (p : Q * bool) : bool := is_one p && snd p.



(** ** Sample data *)

Module Samples.

Local Open Scope string_scope.

(** A correction service that is down. *)
Definition no_service : string -> string -> option string := fun _ _ => None.

(** For each label, one item whose text has no sentence, so that the scorer
    raises, and one item that scores. *)
Definition sample_items : list item :=
  [ Item "..." (Some "Fixed text.") "human" None;
    Item "She go to school every day" (Some "She goes to school every day")
      "human" None;
    Item "..." (Some "Fixed text.") "llm" None;
    Item "The cat sat on the mat" (Some "The cat sat on the mat")
      "llm" None ].

Definition good_items : list item :=
  [ Item "She go to school every day" (Some "She goes to school every day")
      "human" None;
    Item "The cat sat on the mat" (Some "The cat sat on the mat")
      "llm" None ].

(** A directory that holds [b.json] and no [a.json]. *)
Definition only_b : gmap string file := {[ "b.json" := Data good_items ]}.

(** [--test_data_path ... --threshold True], the threshold being the
    default of the command line. *)
Definition fixed_threshold_run (test_paths : string) : args :=
  {| train_data_path := None;
     test_data_path := test_paths;
     llm_model := "gpt-4o-mini";
     use_threshold := true;
     threshold_value := Fin 0.9243697428995128;
     seed := 2023 |}.

(** The labels and scores of the example in the documentation of
    [roc_curve]: two thresholds of its curve reach the maximal difference
    of the rates. *)
Definition human_scores : list pyscore := [Some (Fin 0.1); Some (Fin 0.4)].
Definition llm_scores : list pyscore := [Some (Fin 0.35); Some (Fin 0.8)].

End Samples.

(** ** Sample runs *)

Module Runs.

Local Open Scope string_scope.

(** A correction service that answers with the prompt it was given. *)
Definition answering : string -> string -> option string :=
  fun prompt _ => Some prompt.

(** A directory whose only data file has no [".json"] in its name. *)
Definition plain_name : gmap string file :=
  {[ "data" := Data Samples.good_items ]}.

(** What [process_data] leaves of the directory [only_b], and the
    predictions it returns for [b.json]. *)
Definition b_cached : gmap string file :=
  <[ "b_processed_train.json" :=
       Data (map (processed Samples.no_service "gpt-4o-mini")
               Samples.good_items) ]> Samples.only_b.

Definition b_predictions : predictions :=
  {| human := [Some (Fin (72000000 # 120000001))];
     llm := [Some (Fin (200000000 # 200000001))] |}.

(** Two populations on which the differences of the rates at the thresholds
    0.9 and 0.3 are both one third. *)
Definition tied_human : list pyscore :=
  [Some (Fin 0.8); Some (Fin 0.7); Some (Fin 0.1)].
Definition tied_llm : list pyscore :=
  [Some (Fin 0.9); Some (Fin 0.4); Some (Fin 0.3)].

(** The report of the calibration on the sample scores, and the report of
    their evaluation under the lower threshold 0.35. *)
Definition calibrated : roc_metrics :=
  {| roc_auc := Fin (3 # 4);
     threshold := Fin 0.8;
     conf_matrix := [[2; 0]; [1; 1]];
     precision := Fin 1;
     recall := Fin (1 # 2);
     f1 := Fin (2 # 3);
     accuracy := Fin (3 # 4) |}.

Definition evaluated_low : roc_metrics :=
  {| roc_auc := Fin (3 # 4);
     threshold := Fin 0.35;
     conf_matrix := [[1; 1]; [0; 2]];
     precision := Fin (2 # 3);
     recall := Fin 1;
     f1 := Fin (4 # 5);
     accuracy := Fin (3 # 4) |}.

End Runs.

(** * Properties *)

(** ** Exceptions and comprehensions *)

Lemma bind_Ok {A B} (f : A -> result B) (m : result A) (b : B) :
  m ≫= f = Ok b <-> exists a, m = Ok a /\ f a = Ok b.
Proof.
  destruct m as [a|e]; simpl; split.
  - intros H. exists a. auto.
  - intros (a' & Ha & Hf). congruence.
  - discriminate.
  - intros (a' & Ha & _). discriminate.
Qed.

(** Splits a hypothesis [m ≫= f = Ok b] into the two steps. *)
Tactic Notation "bind_inv" hyp(H) "as" ident(a) ident(Ha) :=
  apply bind_Ok in H; destruct H as (a & Ha & H).

Lemma traverse_Ok_Forall2 {A B} (f : A -> result B) (l : list A) (k : list B) :
  traverse f l = Ok k <-> Forall2 (fun x y => f x = Ok y) l k.
Proof.
  revert k. induction l as [|x l IH]; intros k; simpl.
  - split.
    + intros [= <-]. constructor.
    + intros H. inversion H. reflexivity.
  - split.
    + intros H. bind_inv H as y Hy. bind_inv H as ys Hys. injection H as <-.
      constructor; [assumption | by apply IH].
    + intros H. inversion H as [|? y ? k' Hy Hk]; subst.
      rewrite Hy. simpl. apply IH in Hk. rewrite Hk. reflexivity.
Qed.

Lemma traverse_Ok_length {A B} (f : A -> result B) (l : list A) (k : list B) :
  traverse f l = Ok k -> length k = length l.
Proof.
  intros H. apply traverse_Ok_Forall2 in H.
  symmetry. eapply Forall2_length, H.
Qed.

(** ** The label and score vectors *)

Lemma real_labels_length (h l : list pyscore) :
  length (real_labels h l) = length (predicted_probs h l).
Proof.
  unfold real_labels, predicted_probs.
  rewrite !length_app, !length_replicate. reflexivity.
Qed.

Lemma zip_replicate_l {A B} (x : A) (l : list B) :
  zip (replicate (length l) x) l = map (fun y => (x, y)) l.
Proof. induction l; simpl; congruence. Qed.

Lemma labels_scores_zip (h l : list pyscore) :
  zip (real_labels h l) (predicted_probs h l) =
  map (fun s => (0, s)) h ++ map (fun s => (1, s)) l.
Proof.
  unfold real_labels, predicted_probs.
  rewrite zip_with_app by apply length_replicate.
  rewrite !zip_replicate_l. reflexivity.
Qed.

(** ** The hard predictions *)

Lemma predict_spec (t s : pyfloat) :
  predict t (Some s) = Ok (if Float.geb s t then 1 else 0).
Proof. reflexivity. Qed.

Lemma geb_Fin (a b : Q) : Float.geb (Fin a) (Fin b) = true <-> (b <= a)%Q.
Proof. unfold Float.geb; simpl. apply Qle_bool_iff. Qed.

Lemma geb_refl (t : pyfloat) : Float.is_nan t = false -> Float.geb t t = true.
Proof.
  destruct t; simpl; try reflexivity; try discriminate.
  intros _. unfold Float.geb; simpl. apply Qle_bool_iff, Qle_refl.
Qed.

Lemma predict_Ok (t : pyfloat) (prob : pyscore) (p : Z) :
  predict t prob = Ok p <-> predicted t prob p.
Proof.
  unfold predicted. destruct prob as [s|]; simpl; split.
  - intros [= <-]. eauto.
  - intros (s' & [= <-] & ->). reflexivity.
  - discriminate.
  - intros (s' & ? & _). discriminate.
Qed.

Lemma predictions_Ok (t : pyfloat) (probs : list pyscore) (ps : list Z) :
  traverse (predict t) probs = Ok ps <-> Forall2 (predicted t) probs ps.
Proof.
  rewrite traverse_Ok_Forall2. split; intros H;
    (eapply Forall2_impl; [exact H|]); intros ? ?; apply predict_Ok.
Qed.

(** ** The two functions, step by step *)

Lemma get_roc_metrics_Ok (h l : list pyscore) (m : roc_metrics) :
  get_roc_metrics h l = Ok m <->
  exists fpr tpr thr i preds,
    Sklearn.roc_curve (real_labels h l) (predicted_probs h l)
      = Ok (fpr, tpr, thr) /\
    Sklearn.auc fpr tpr = Ok (roc_auc m) /\
    Numpy.argmax (Numpy.sub tpr fpr) = Ok i /\
    thr !! i = Some (threshold m) /\
    traverse (predict (threshold m)) (predicted_probs h l) = Ok preds /\
    m = report (roc_auc m) (threshold m) (real_labels h l) preds.
Proof.
  unfold get_roc_metrics. split.
  - intros H. bind_inv H as c Hc. destruct c as [[fpr tpr] thr].
    bind_inv H as area Ha. bind_inv H as i Hi. bind_inv H as t Ht.
    destruct (thr !! i) as [t'|] eqn:Hl; simpl in Ht; [|discriminate].
    injection Ht as <-. bind_inv H as preds Hp. injection H as <-. simpl.
    exists fpr, tpr, thr, i, preds. by repeat split.
  - intros (fpr & tpr & thr & i & preds & Hc & Ha & Hi & Ht & Hp & Hm).
    rewrite Hc. simpl. rewrite Ha. simpl. rewrite Hi. simpl.
    rewrite Ht. simpl. rewrite Hp. simpl. rewrite Hm. reflexivity.
Qed.

Lemma get_roc_metrics_with_threshold_Ok (h l : list pyscore) (t : pyfloat)
    (m : roc_metrics) :
  get_roc_metrics_with_threshold h l t = Ok m <->
  exists preds fpr tpr thr,
    traverse (predict t) (predicted_probs h l) = Ok preds /\
    Sklearn.roc_curve (real_labels h l) (as_scores preds)
      = Ok (fpr, tpr, thr) /\
    Sklearn.auc fpr tpr = Ok (roc_auc m) /\
    m = report (roc_auc m) t (real_labels h l) preds.
Proof.
  unfold get_roc_metrics_with_threshold. split.
  - intros H. bind_inv H as preds Hp. bind_inv H as c Hc.
    destruct c as [[fpr tpr] thr].
    bind_inv H as area Ha. injection H as <-. simpl.
    exists preds, fpr, tpr, thr. by repeat split.
  - intros (preds & fpr & tpr & thr & Hp & Hc & Ha & Hm).
    rewrite Hp. simpl. rewrite Hc. simpl. rewrite Ha. simpl.
    rewrite Hm. reflexivity.
Qed.

(** C5. Calibration and fixed-threshold evaluation build the inputs of the
    curve by one convention: the labels are one 0 per human score followed by
    one 1 per llm score, the scores are the human scores followed by the llm
    scores, so that position by position every human score is paired with 0
    and every llm score with 1, in the order given. Calibration hands these
    two vectors to [roc_curve]; evaluation hands it the same labels and the
    same scores turned into hard predictions. *)
Theorem C5_label_score_ordering (h l : list pyscore) :
  real_labels h l = replicate (length h) 0 ++ replicate (length l) 1 /\
  predicted_probs h l = h ++ l /\
  zip (real_labels h l) (predicted_probs h l)
    = map (fun s => (0, s)) h ++ map (fun s => (1, s)) l /\
  (forall m, get_roc_metrics h l = Ok m ->
     exists fpr tpr thr,
       Sklearn.roc_curve (replicate (length h) 0 ++ replicate (length l) 1)
         (h ++ l) = Ok (fpr, tpr, thr) /\
       Sklearn.auc fpr tpr = Ok (roc_auc m)) /\
  (forall t m, get_roc_metrics_with_threshold h l t = Ok m ->
     exists preds fpr tpr thr,
       Forall2 (predicted t) (h ++ l) preds /\
       Sklearn.roc_curve (replicate (length h) 0 ++ replicate (length l) 1)
         (as_scores preds) = Ok (fpr, tpr, thr) /\
       Sklearn.auc fpr tpr = Ok (roc_auc m)).
Proof.
  split; [reflexivity|]. split; [reflexivity|].
  split; [apply labels_scores_zip|]. split.
  - intros m H. apply get_roc_metrics_Ok in H.
    destruct H as (fpr & tpr & thr & i & preds & Hc & Ha & _).
    exists fpr, tpr, thr. auto.
  - intros t m H. apply get_roc_metrics_with_threshold_Ok in H.
    destruct H as (preds & fpr & tpr & thr & Hp & Hc & Ha & _).
    exists preds, fpr, tpr, thr. split; [|auto].
    by apply predictions_Ok.
Qed.

(** C8. The hard prediction of a score [s] under a threshold [t] is the
    positive class exactly when [s >= t]: for finite values, exactly when
    [t <= s] as rationals, and a score equal to the threshold (NaN, which
    equals nothing, apart) is positive.
    Both functions predict this way: the predictions behind the report of
    the evaluation use the threshold supplied, those behind the report of the
    calibration use the threshold it returns. *)
Theorem C8_threshold_boundary :
  (forall t s, predict t (Some s) = Ok 1 <-> Float.geb s t = true) /\
  (forall a b : Q, predict (Fin b) (Some (Fin a)) = Ok 1 <-> (b <= a)%Q) /\
  (forall t, Float.is_nan t = false -> predict t (Some t) = Ok 1) /\
  (forall h l t m, get_roc_metrics_with_threshold h l t = Ok m ->
     exists preds,
       Forall2 (predicted t) (h ++ l) preds /\
       m = report (roc_auc m) t (real_labels h l) preds) /\
  (forall h l m, get_roc_metrics h l = Ok m ->
     exists preds,
       Forall2 (predicted (threshold m)) (h ++ l) preds /\
       m = report (roc_auc m) (threshold m) (real_labels h l) preds).
Proof.
  assert (Hp : forall t s, predict t (Some s) = Ok 1 <-> Float.geb s t = true).
  { intros t s. rewrite predict_spec. destruct (Float.geb s t); split;
      intros; congruence. }
  split; [exact Hp|]. split; [|split; [|split]].
  - intros a b. rewrite Hp. apply geb_Fin.
  - intros t Ht. by apply Hp, geb_refl.
  - intros h l t m H. apply get_roc_metrics_with_threshold_Ok in H.
    destruct H as (preds & fpr & tpr & thr & Hpr & _ & _ & Hm).
    exists preds. split; [by apply predictions_Ok | exact Hm].
  - intros h l m H. apply get_roc_metrics_Ok in H.
    destruct H as (fpr & tpr & thr & i & preds & _ & _ & _ & _ & Hpr & Hm).
    exists preds. split; [by apply predictions_Ok | exact Hm].
Qed.

(** ** The aggregation of [process_data] *)

Section Aggregation.

Local Open Scope string_scope.

Variable chat : string -> string -> option string.
Variable model : string.

Lemma label_correct_item it : label (correct_item chat model it) = label it.
Proof. unfold correct_item. by destruct (negb _). Qed.

Lemma label_score_item it : label (score_item it) = label it.
Proof.
  unfold score_item. destruct (gec_text it); [|done].
  by destruct (Str.nonempty _).
Qed.

Lemma label_processed it : label (processed chat model it) = label it.
Proof. unfold processed. by rewrite label_score_item, label_correct_item. Qed.

Lemma group_item_unknown it p :
  ~ known_label it -> group_item it p = Ok p.
Proof.
  unfold known_label, group_item. intros H.
  destruct (String.eqb_spec (label it) "human"); [tauto|].
  destruct (String.eqb_spec (label it) "llm"); [tauto|]. reflexivity.
Qed.

Lemma group_item_human it p :
  label it = "human" ->
  group_item it p =
  s ← stored_score it; Ok {| human := (human p ++ [s])%list; llm := llm p |}.
Proof. unfold group_item. intros ->. reflexivity. Qed.

Lemma group_item_llm it p :
  label it = "llm" ->
  group_item it p =
  s ← stored_score it; Ok {| human := human p; llm := (llm p ++ [s])%list |}.
Proof. unfold group_item. intros ->. reflexivity. Qed.

Lemma process_items_cons it rest p :
  process_items chat model (it :: rest) p =
  p' ← group_item (processed chat model it) p;
  '(rest', p'') ← process_items chat model rest p';
  Ok (processed chat model it :: rest', p'').
Proof. reflexivity. Qed.

(** The loop returns the processed items. *)
Lemma process_items_items data p items' p' :
  process_items chat model data p = Ok (items', p') ->
  items' = map (processed chat model) data.
Proof.
  revert p items' p'. induction data as [|it rest IH]; intros p items' p' H.
  - by injection H as <- _.
  - rewrite process_items_cons in H. bind_inv H as q Hq.
    bind_inv H as r Hr. destruct r as [rest' p'']. injection H as <- <-.
    simpl. f_equal. eapply IH, Hr.
Qed.

(** C10. An item whose label is neither ["human"] nor ["llm"] is left out
    of both lists without any exception: the predictions of a data list,
    and whether the loop raises, are those of the list without its items of
    unknown label. *)
Theorem C10_unknown_label_ignored (data : list item) (p : predictions) :
  snd <$> process_items chat model data p =
  snd <$> process_items chat model (filter known_label data) p.
Proof.
  revert p. induction data as [|it rest IH]; intros p; [reflexivity|].
  destruct (decide (known_label it)) as [Hk|Hk].
  - rewrite filter_cons_True by exact Hk. rewrite !process_items_cons.
    destruct (group_item (processed chat model it) p) as [p'|e]; [|reflexivity].
    simpl. specialize (IH p').
    destruct (process_items chat model rest p') as [[r1 q1]|e1],
      (process_items chat model (filter known_label rest) p')
        as [[r2 q2]|e2]; simpl in *; congruence.
  - rewrite filter_cons_False by exact Hk. rewrite process_items_cons.
    rewrite group_item_unknown
      by (unfold known_label; rewrite label_processed; exact Hk).
    simpl. rewrite <- IH.
    by destruct (process_items chat model rest p) as [[r1 q1]|e1].
Qed.

Lemma process_items_populations data p :
  scores_stored chat model data ->
  exists p',
    process_items chat model data p = Ok (map (processed chat model) data, p') /\
    Some <$> human p' =
      ((Some <$> human p)
       ++ (llm_text_rouge2_score <$> labelled "human" (map (processed chat model) data)))%list /\
    Some <$> llm p' =
      ((Some <$> llm p)
       ++ (llm_text_rouge2_score <$> labelled "llm" (map (processed chat model) data)))%list.
Proof.
  unfold scores_stored, labelled.
  revert p. induction data as [|it rest IH]; intros p Hs.
  - exists p. simpl. by rewrite !app_nil_r.
  - rewrite map_cons in Hs. apply Forall_cons in Hs as [Hit Hs].
    rewrite process_items_cons, map_cons.
    destruct (decide (label (processed chat model it) = "human")) as [Hh|Hh];
      [|destruct (decide (label (processed chat model it) = "llm")) as [Hl|Hl]].
    + destruct Hit as [s Hsc]; [by left|].
      rewrite group_item_human by exact Hh.
      unfold stored_score. rewrite Hsc. simpl.
      destruct (IH {| human := (human p ++ [s])%list; llm := llm p |} Hs)
        as (p' & -> & Hhum & Hllm).
      exists p'. simpl in *. split; [reflexivity|].
      rewrite filter_cons_True by exact Hh.
      rewrite filter_cons_False by (rewrite Hh; discriminate).
      rewrite Hhum, Hllm, fmap_app, !fmap_cons, Hsc. simpl.
      by rewrite <- app_assoc.
    + destruct Hit as [s Hsc]; [by right|].
      rewrite group_item_llm by exact Hl.
      unfold stored_score. rewrite Hsc. simpl.
      destruct (IH {| human := human p; llm := (llm p ++ [s])%list |} Hs)
        as (p' & -> & Hhum & Hllm).
      exists p'. simpl in *. split; [reflexivity|].
      rewrite filter_cons_False by exact Hh.
      rewrite filter_cons_True by exact Hl.
      rewrite Hhum, Hllm, fmap_app, !fmap_cons, Hsc. simpl.
      by rewrite <- app_assoc.
    + rewrite group_item_unknown by (unfold known_label; tauto). simpl.
      destruct (IH p Hs) as (p' & -> & Hhum & Hllm).
      exists p'. simpl. split; [reflexivity|].
      by rewrite !filter_cons_False by assumption.
Qed.

Lemma labelled_processed lbl data :
  labelled lbl (map (processed chat model) data) = map (processed chat model) (labelled lbl data).
Proof.
  unfold labelled. induction data as [|it rest IH]; [done|].
  rewrite map_cons. destruct (decide (label it = lbl)) as [E|E].
  - rewrite !filter_cons_True; [| exact E | by rewrite label_processed].
    simpl. by rewrite IH.
  - by rewrite !filter_cons_False; [| exact E | by rewrite label_processed].
Qed.

Lemma labelled_processed_length lbl data :
  length (labelled lbl (map (processed chat model) data)) = length (labelled lbl data).
Proof. by rewrite labelled_processed, length_map. Qed.

(** C1, as the code has it. The loop appends the stored score of every item
    labelled ["human"] or ["llm"] to the list of its label, in order, the
    null score of an item whose scoring failed included: when every such
    item holds a score key after the loop body, the loop returns, and each
    list has one entry per item of its label. *)
Theorem C1_scores_appended (data : list item) :
  scores_stored chat model data ->
  exists p,
    process_items chat model data {| human := []; llm := [] |}
      = Ok (map (processed chat model) data, p) /\
    Some <$> human p
      = llm_text_rouge2_score <$> labelled "human" (map (processed chat model) data) /\
    Some <$> llm p
      = llm_text_rouge2_score <$> labelled "llm" (map (processed chat model) data) /\
    length (human p) = length (labelled "human" data) /\
    length (llm p) = length (labelled "llm" data).
Proof.
  intros Hs.
  destruct (process_items_populations data {| human := []; llm := [] |} Hs)
    as (p & Hp & Hh & Hl).
  simpl in Hh, Hl. exists p. split; [exact Hp|].
  split; [exact Hh|]. split; [exact Hl|].
  rewrite <- !(labelled_processed_length _ data). split.
  - apply (f_equal length) in Hh. by rewrite !length_fmap in Hh.
  - apply (f_equal length) in Hl. by rewrite !length_fmap in Hl.
Qed.

End Aggregation.

(** C1, the claim as stated fails: with one item of null score and one scored
    item per label, each list has two entries, the first of them null. *)
Lemma C1_null_score_is_appended :
  process_items Samples.no_service "gpt-4o-mini" Samples.sample_items
    {| human := []; llm := [] |}
  = Ok (map (processed Samples.no_service "gpt-4o-mini") Samples.sample_items,
        {| human := [None; Some (Fin (72000000 # 120000001))];
           llm := [None; Some (Fin (200000000 # 200000001))] |})
  /\ length [None; Some (Fin (72000000 # 120000001))] = 2%nat.
Proof. split; vm_compute; reflexivity. Qed.

Lemma C1_scores_appended_witness :
  scores_stored Samples.no_service "gpt-4o-mini" Samples.sample_items /\
  exists p,
    process_items Samples.no_service "gpt-4o-mini" Samples.sample_items
      {| human := []; llm := [] |}
      = Ok (map (processed Samples.no_service "gpt-4o-mini")
              Samples.sample_items, p) /\
    Some <$> human p
      = llm_text_rouge2_score <$>
          labelled "human"
            (map (processed Samples.no_service "gpt-4o-mini")
               Samples.sample_items) /\
    Some <$> llm p
      = llm_text_rouge2_score <$>
          labelled "llm"
            (map (processed Samples.no_service "gpt-4o-mini")
               Samples.sample_items) /\
    length (human p) = length (labelled "human" Samples.sample_items) /\
    length (llm p) = length (labelled "llm" Samples.sample_items).
Proof.
  assert (H : scores_stored Samples.no_service "gpt-4o-mini"
                Samples.sample_items).
  { unfold scores_stored. repeat constructor; intros _; vm_compute; eauto. }
  split; [exact H|].
  exact (C1_scores_appended Samples.no_service "gpt-4o-mini"
           Samples.sample_items H).
Defined.

(** An item that has no correction, when the service gives none either, is
    left without a score key, and grouping it raises. *)
Example uncorrected_item_raises :
  process_items Samples.no_service "gpt-4o-mini"
    [Item "Some text" None "human" None] {| human := []; llm := [] |}
  = Raise KeyError.
Proof. reflexivity. Qed.

(** ** The loop over the test files *)

Section TestFiles.

Variable chat : string -> string -> option string.
Variable model : string.
Variable t : pyfloat.

Lemma evaluate_files_cons filename rest (fs : gmap string file) :
  evaluate_files chat model t (filename :: rest) fs =
  match evaluate_file chat model t filename fs with
  | (fs', Ok _) => evaluate_files chat model t rest fs'
  | (fs', Raise e) => (fs', Raise e)
  end.
Proof. reflexivity. Qed.

Lemma evaluate_files_app pre post (fs : gmap string file) :
  evaluate_files chat model t (pre ++ post) fs =
  match evaluate_files chat model t pre fs with
  | (fs', Ok _) => evaluate_files chat model t post fs'
  | (fs', Raise e) => (fs', Raise e)
  end.
Proof.
  revert fs. induction pre as [|f pre IH]; intros fs; [reflexivity|].
  rewrite <- app_comm_cons, !evaluate_files_cons.
  destruct (evaluate_file chat model t f fs) as [fs' [[]|e]]; [|reflexivity].
  apply IH.
Qed.

(** C9, as the code has it. The test files are processed in order, each
    evaluated and reported on its own, until one of them fails: the
    exception of that file leaves the loop, the file system is left as it
    stood at the failure, and the files after it are neither processed nor
    reported, whatever they are. *)
Theorem C9_failure_ends_the_loop pre filename rest
    (fs fs1 fs2 : gmap string file) (e : exn) :
  evaluate_files chat model t pre fs = (fs1, Ok ()) ->
  evaluate_file chat model t filename fs1 = (fs2, Raise e) ->
  evaluate_files chat model t (pre ++ filename :: rest) fs = (fs2, Raise e).
Proof.
  intros Hpre Hf.
  rewrite evaluate_files_app, Hpre, evaluate_files_cons, Hf. reflexivity.
Qed.

End TestFiles.

(** Both modes of [experiment] run that loop over the test files. *)
Lemma experiment_fixed_threshold chat (a : args) (fs : gmap string file) :
  use_threshold a = true ->
  experiment chat a fs =
  evaluate_files chat (llm_model a) (threshold_value a)
    (split_paths (test_data_path a)) fs.
Proof. unfold experiment. by intros ->. Qed.

Lemma experiment_calibrated chat (a : args) (fs fs1 : gmap string file)
    train all m :
  use_threshold a = false ->
  train_data_path a = Some train ->
  process_train chat (llm_model a) (split_paths train)
    {| human := []; llm := [] |} fs = (fs1, Ok all) ->
  get_roc_metrics (human all) (llm all) = Ok m ->
  experiment chat a fs =
  evaluate_files chat (llm_model a) (threshold m)
    (split_paths (test_data_path a)) fs1.
Proof.
  unfold experiment. intros -> -> Ht Hm. by rewrite Ht, Hm.
Qed.

(** C9, the claim as stated fails: [a.json] is missing and [b.json] is a
    sound test file. Run alone, [b.json] gets its report; run after
    [a.json], it is never reached and no report is written for it. *)
Lemma C9_missing_file_aborts_the_run :
  experiment Samples.no_service (Samples.fixed_threshold_run "a.json,b.json")
    Samples.only_b
  = (Samples.only_b, Raise FileNotFoundError)
  /\ Samples.only_b !! "b_results_test.json"%string = None
  /\ snd (experiment Samples.no_service (Samples.fixed_threshold_run "b.json")
            Samples.only_b) = Ok ()
  /\ fst (experiment Samples.no_service (Samples.fixed_threshold_run "b.json")
            Samples.only_b) !! "b_results_test.json"%string
     = Some (Report (Fin 1) (Fin 0.9243697428995128) [[1; 0]; [0; 1]]
               (Fin 1) (Fin 1) (Fin 1) (Fin 1)).
Proof. repeat split; vm_compute; reflexivity. Qed.

Lemma C9_failure_ends_the_loop_witness :
  evaluate_files Samples.no_service "gpt-4o-mini" (Fin 0.9243697428995128)
    ["b.json"%string] Samples.only_b
  = (fst (experiment Samples.no_service (Samples.fixed_threshold_run "b.json")
            Samples.only_b), Ok ())
  /\ evaluate_files Samples.no_service "gpt-4o-mini" (Fin 0.9243697428995128)
       (["b.json"%string] ++ "a.json"%string :: ["b.json"%string])
       Samples.only_b
     = (fst (experiment Samples.no_service
               (Samples.fixed_threshold_run "b.json") Samples.only_b),
        Raise FileNotFoundError).
Proof.
  assert (H1 : evaluate_files Samples.no_service "gpt-4o-mini"
                 (Fin 0.9243697428995128) ["b.json"%string] Samples.only_b
               = (fst (experiment Samples.no_service
                         (Samples.fixed_threshold_run "b.json")
                         Samples.only_b), Ok ())).
  { vm_compute. reflexivity. }
  split; [exact H1|].
  apply (C9_failure_ends_the_loop Samples.no_service "gpt-4o-mini"
           (Fin 0.9243697428995128) ["b.json"%string] "a.json"%string
           ["b.json"%string] Samples.only_b _ _ FileNotFoundError H1).
  vm_compute. reflexivity.
Defined.

(** ** The bigram score *)

Section Scorer.

Local Open Scope Q_scope.

Lemma count_ratio_bounds (o n : nat) :
  (o <= n)%nat -> (0 < n)%nat ->
  0 <= inject_Z (Z.of_nat o) / inject_Z (Z.of_nat n) <= 1.
Proof.
  intros Hle Hpos.
  assert (Hn : 0 < inject_Z (Z.of_nat n)).
  { change 0 with (inject_Z 0). rewrite <- Zlt_Qlt. lia. }
  assert (Ho : 0 <= inject_Z (Z.of_nat o)).
  { change 0 with (inject_Z 0). rewrite <- Zle_Qle. lia. }
  assert (Hon : inject_Z (Z.of_nat o) <= inject_Z (Z.of_nat n)).
  { rewrite <- Zle_Qle. lia. }
  split.
  - apply Qle_shift_div_l; [exact Hn|]. lra.
  - apply Qle_shift_div_r; [exact Hn|]. lra.
Qed.

(** [2 p r / (p + r + eps)] stays within [0, 1] for [p] and [r] in [0, 1]. *)
Lemma harmonic_bounds (p r : Q) :
  0 <= p <= 1 -> 0 <= r <= 1 ->
  0 <= 2 * ((p * r) / (p + r + Rouge.eps)) <= 1.
Proof.
  intros [Hp0 Hp1] [Hr0 Hr1].
  assert (He : 0 < Rouge.eps) by reflexivity.
  assert (Hd : 0 < p + r + Rouge.eps) by lra.
  assert (Hpr : 0 <= p * r) by (apply Qmult_le_0_compat; assumption).
  assert (Hpr1 : p * r <= p) by nra.
  assert (Hpr2 : p * r <= r) by nra.
  assert (H0 : 0 <= (p * r) / (p + r + Rouge.eps)).
  { apply Qle_shift_div_l; [exact Hd|]. lra. }
  assert (H1 : (p * r) / (p + r + Rouge.eps) <= 1 # 2).
  { apply Qle_shift_div_r; [exact Hd|]. lra. }
  split; lra.
Qed.

Lemma f_rouge_n_bounds (e r o : nat) :
  (o <= e)%nat -> (o <= r)%nat -> 0 <= Rouge.f_rouge_n e r o <= 1.
Proof.
  intros He Hr. unfold Rouge.f_rouge_n. apply harmonic_bounds.
  - destruct (Nat.eqb_spec e 0); [lra|]. apply count_ratio_bounds; lia.
  - destruct (Nat.eqb_spec r 0); [lra|]. apply count_ratio_bounds; lia.
Qed.

(** Two equal sets of bigrams: the score is 0 when the set is empty, and
    [2 / (2 + 1e-8)] otherwise. *)
Lemma f_rouge_n_same (n : nat) :
  Rouge.f_rouge_n n n n ==
  if Nat.eqb n 0 then 0 else 200000000 # 200000001.
Proof.
  unfold Rouge.f_rouge_n. destruct (Nat.eqb_spec n 0) as [->|Hn].
  - reflexivity.
  - assert (H : ~ inject_Z (Z.of_nat n) == 0).
    { change 0 with (inject_Z 0). rewrite inject_Z_injective. lia. }
    unfold Rouge.eps. field_simplify_eq; [ring | exact H].
Qed.

Lemma rouge_2_bounds (hyp ref : list string) (q : Q) :
  Rouge.rouge_2 hyp ref = Ok q -> 0 <= q <= 1.
Proof.
  unfold Rouge.rouge_2.
  destruct (Nat.eqb _ 0); [discriminate|].
  destruct (Nat.eqb _ 0); [discriminate|].
  intros [= <-]. apply f_rouge_n_bounds.
  - apply subseteq_size, intersection_subseteq_l.
  - apply subseteq_size, intersection_subseteq_r.
Qed.

Lemma Qred_bounds (q : Q) : 0 <= q <= 1 -> 0 <= Qred q <= 1.
Proof. by rewrite Qred_correct. Qed.

End Scorer.

(** C3, as the code has it. The score of a pair of texts is a float within
    [0, 1], or the scorer raises (and the item is given a null score); but
    the score of two identical texts is never exactly 1.0: it is
    [2 / (2 + 1e-8)] when the text has a bigram, and 0.0 when it has none. *)
Theorem C3_score_bounds :
  (forall hyp ref f,
     Rouge.get_scores_rouge2_f hyp ref = Ok f ->
     exists q, f = Fin q /\ (0 <= q <= 1)%Q) /\
  (forall s f,
     Rouge.get_scores_rouge2_f s s = Ok f ->
     f = if Nat.eqb (size (Rouge.word_bigrams (Rouge.sentences s))) 0
         then Fin 0 else Fin (200000000 # 200000001)) /\
  (forall it gec,
     gec_text it = Some gec -> Str.nonempty gec = true ->
     llm_text_rouge2_score (score_item it) = Some None \/
     exists q, llm_text_rouge2_score (score_item it) = Some (Some (Fin q))
               /\ (0 <= q <= 1)%Q).
Proof.
  assert (Hb : forall hyp ref f,
     Rouge.get_scores_rouge2_f hyp ref = Ok f ->
     exists q, f = Fin q /\ (0 <= q <= 1)%Q).
  { intros hyp ref f H. unfold Rouge.get_scores_rouge2_f in H.
    bind_inv H as q Hq. injection H as <-.
    exists (Qred q). split; [reflexivity|].
    eapply Qred_bounds, rouge_2_bounds, Hq. }
  split; [exact Hb|]. split.
  - intros s f H. unfold Rouge.get_scores_rouge2_f in H.
    bind_inv H as q Hq. injection H as <-.
    unfold Rouge.rouge_2 in Hq.
    destruct (Nat.eqb _ 0); [discriminate|]. injection Hq as <-.
    rewrite (idemp_L (∩)).
    set (n := size _). unfold Float.of_Q.
    rewrite (Qred_complete _ _ (f_rouge_n_same n)).
    by destruct (Nat.eqb n 0).
  - intros it gec Hg Hne. unfold score_item. rewrite Hg, Hne. simpl.
    destruct (Rouge.get_scores_rouge2_f (text it) gec) as [f|e] eqn:E.
    + right. destruct (Hb _ _ _ E) as (q & -> & Hq). eauto.
    + by left.
Qed.

(** C3, the claim as stated fails: a text of six words and its identical
    correction score [200000000 / 200000001], not 1.0, and a text of one
    word, which has no bigram, scores 0.0 against itself. *)
Lemma C3_identical_texts_score_below_one :
  Rouge.get_scores_rouge2_f "The cat sat on the mat" "The cat sat on the mat"
    = Ok (Fin (200000000 # 200000001))
  /\ Qeq_bool (200000000 # 200000001) 1 = false
  /\ Rouge.get_scores_rouge2_f "Hello" "Hello" = Ok (Fin 0)
  /\ llm_text_rouge2_score
       (score_item (Item "Hello" (Some "Hello") "llm" None))
     = Some (Some (Fin 0)).
Proof. repeat split; vm_compute; reflexivity. Qed.

(** ** Floats *)

Lemma leb_Fin (a b : Q) : Float.leb (Fin a) (Fin b) = true <-> (a <= b)%Q.
Proof. simpl. apply Qle_bool_iff. Qed.

Lemma ltb_Fin (a b : Q) : Float.ltb (Fin a) (Fin b) = true <-> (a < b)%Q.
Proof.
  simpl. rewrite negb_true_iff, <- not_true_iff_false, Qle_bool_iff.
  split; [apply Qnot_le_lt | apply Qlt_not_le].
Qed.

Lemma sub_Fin (a b : Q) :
  exists q, Float.sub (Fin a) (Fin b) = Fin q /\ (q == a - b)%Q.
Proof.
  eexists. split; [reflexivity|].
  rewrite !Qred_correct. reflexivity.
Qed.

Lemma ratio_Fin (a b : Z) :
  exists q, Float.ratio a b = Fin q /\ (q == inject_Z a / inject_Z b)%Q.
Proof. eexists. split; [reflexivity|]. apply Qred_correct. Qed.

(** ** The sort of the scores *)

Module SortFacts.
Import Sklearn.

Lemma insert_asc_perm x l : insert_asc x l ≡ₚ x :: l.
Proof.
  induction l as [|y r IH]; simpl; [done|].
  destruct (Qle_bool (fst x) (fst y)); [done|].
  rewrite IH. apply Permutation_swap.
Qed.

Lemma sort_asc_perm l : sort_asc l ≡ₚ l.
Proof.
  unfold sort_asc. induction l as [|x l IH]; simpl; [done|].
  by rewrite insert_asc_perm, IH.
Qed.

Lemma sort_desc_perm l : sort_desc l ≡ₚ l.
Proof.
  unfold sort_desc. etrans; [apply reverse_Permutation | apply sort_asc_perm].
Qed.

Lemma insert_asc_sorted x l :
  StronglySorted asc l -> StronglySorted asc (insert_asc x l).
Proof.
  induction l as [|y r IH]; simpl; intros Hs.
  - repeat constructor.
  - apply StronglySorted_cons in Hs as [Hy Hr].
    destruct (Qle_bool (fst x) (fst y)) eqn:E.
    + apply Qle_bool_iff in E.
      apply StronglySorted_cons. split.
      * constructor; [exact E|].
        eapply Forall_impl; [exact Hy|]. unfold asc. intros z Hz. lra.
      * by apply StronglySorted_cons.
    + apply StronglySorted_cons. split; [|by apply IH].
      rewrite insert_asc_perm. constructor; [|exact Hy].
      unfold asc. apply Qlt_le_weak, Qnot_le_lt. intros H.
      apply Qle_bool_iff in H. congruence.
Qed.

Lemma sort_asc_sorted l : StronglySorted asc (sort_asc l).
Proof.
  unfold sort_asc. induction l as [|x l IH]; simpl; [constructor|].
  by apply insert_asc_sorted.
Qed.

Lemma sort_desc_sorted l : StronglySorted desc (sort_desc l).
Proof.
  unfold sort_desc.
  generalize (sort_asc_sorted l). generalize (sort_asc l). clear l.
  induction l as [|x l IH]; intros Hs; [constructor|].
  apply StronglySorted_cons in Hs as [Hx Hl].
  rewrite reverse_cons. apply StronglySorted_app. split; [|split].
  - intros a b Ha Hb. apply list_elem_of_singleton in Hb as ->.
    rewrite elem_of_reverse in Ha.
    rewrite Forall_forall in Hx. exact (Hx a Ha).
  - by apply IH.
  - repeat constructor.
Qed.

End SortFacts.

(** ** The points of the curve *)

Module CurveFacts.
Import Sklearn SortFacts.

Lemma positives_cons v y s :
  positives ((v, y) :: s) = (if y then 1 else 0) + positives s.
Proof.
  unfold positives. destruct y.
  - rewrite filter_cons_True by done. simpl length. lia.
  - rewrite filter_cons_False by done. lia.
Qed.

Lemma positives_perm s1 s2 : s1 ≡ₚ s2 -> positives s1 = positives s2.
Proof. unfold positives. by intros ->. Qed.

Lemma clf_points_one k tp v y :
  clf_points k tp [(v, y)]
  = [(1 + k - (tp + (if y then 1 else 0)), tp + (if y then 1 else 0), Fin v)].
Proof. reflexivity. Qed.

Lemma clf_points_two k tp v y v' y' rest :
  clf_points k tp ((v, y) :: (v', y') :: rest) =
  if Qeq_bool v v'
  then clf_points (k + 1) (tp + (if y then 1 else 0)) ((v', y') :: rest)
  else (1 + k - (tp + (if y then 1 else 0)), tp + (if y then 1 else 0), Fin v)
       :: clf_points (k + 1) (tp + (if y then 1 else 0)) ((v', y') :: rest).
Proof. reflexivity. Qed.

(** The last point counts every sample. *)
Lemma clf_points_last s k tp :
  s <> [] ->
  exists v,
    last (clf_points k tp s)
    = Some (k + Z.of_nat (length s) - (tp + positives s),
            tp + positives s, Fin v).
Proof.
  revert k tp. induction s as [|[v y] rest IH]; intros k tp Hne; [done|].
  rewrite positives_cons. destruct rest as [|[v' y'] rest'].
  - exists v. rewrite clf_points_one. unfold positives. simpl.
    do 3 f_equal; lia.
  - destruct (IH (k + 1) (tp + (if y then 1 else 0))) as (w & Hw); [done|].
    exists w. rewrite clf_points_two.
    destruct (Qeq_bool v v').
    + rewrite Hw. rewrite (length_cons _ ((v', y') :: rest')).
      do 3 f_equal; lia.
    + rewrite last_cons, Hw. rewrite (length_cons _ ((v', y') :: rest')).
      do 3 f_equal; lia.
Qed.

(** The false positives never decrease along the curve. *)
Lemma clf_points_fps s k tp :
  Forall (fun p => k - tp <= fps p) (clf_points k tp s) /\
  StronglySorted (fun p q => fps p <= fps q) (clf_points k tp s).
Proof.
  revert k tp. induction s as [|[v y] rest IH]; intros k tp.
  - split; constructor.
  - destruct (IH (k + 1) (tp + (if y then 1 else 0))) as [Hb Hs].
    assert (Hy : 0 <= (if y then 1 else 0) <= 1) by (destruct y; lia).
    destruct rest as [|[v' y'] rest'].
    + rewrite clf_points_one. split; repeat constructor. unfold fps. simpl. lia.
    + rewrite clf_points_two. destruct (Qeq_bool v v').
      * split; [|exact Hs].
        eapply Forall_impl; [exact Hb|]. simpl. intros p Hp. lia.
      * split.
        -- constructor; [unfold fps; simpl; lia|].
           eapply Forall_impl; [exact Hb|]. simpl. intros p Hp. lia.
        -- apply StronglySorted_cons. split; [|exact Hs].
           eapply Forall_impl; [exact Hb|]. unfold fps at 2. simpl.
           intros p Hp. lia.
Qed.

(** The thresholds are scores of the samples. *)
Lemma clf_points_thresholds s k tp :
  Forall (fun p : point => exists v, snd p = Fin v /\ v ∈ map fst s)
    (clf_points k tp s).
Proof.
  revert k tp. induction s as [|[v y] rest IH]; intros k tp; [constructor|].
  assert (Hr : Forall (fun p : point => exists w, snd p = Fin w
                         /\ w ∈ map fst ((v, y) :: rest))
                 (clf_points (k + 1) (tp + (if y then 1 else 0)) rest)).
  { eapply Forall_impl; [apply IH|]. intros p (w & Hp & Hw).
    exists w. split; [exact Hp|]. simpl. by right. }
  assert (Hh : exists w, Fin v = Fin w /\ w ∈ map fst ((v, y) :: rest)).
  { exists v. split; [done|]. simpl. by left. }
  destruct rest as [|[v' y'] rest'].
  - rewrite clf_points_one. repeat constructor. exact Hh.
  - rewrite clf_points_two. destruct (Qeq_bool v v'); [exact Hr|].
    constructor; [exact Hh | exact Hr].
Qed.

Lemma clf_points_desc s k tp :
  StronglySorted desc s ->
  Forall (fun p => forall v0 y0 r, s = (v0, y0) :: r -> below v0 p)
    (clf_points k tp s) /\
  StronglySorted thr_desc (clf_points k tp s).
Proof.
  revert k tp. induction s as [|[v y] rest IH]; intros k tp Hs.
  - split; constructor.
  - apply StronglySorted_cons in Hs as [Hv Hrest].
    destruct (IH (k + 1) (tp + (if y then 1 else 0)) Hrest) as [Hb Hd].
    destruct rest as [|[v' y'] rest'].
    + rewrite clf_points_one. split; repeat constructor.
      intros v0 y0 r [= <- <- <-]. exists v. split; [done|]. apply Qle_refl.
    + assert (Hvv : (v' <= v)%Q).
      { apply Forall_cons in Hv as [Hv _]. exact Hv. }
      assert (Hb' : Forall (below v')
                (clf_points (k + 1) (tp + (if y then 1 else 0))
                   ((v', y') :: rest'))).
      { eapply Forall_impl; [exact Hb|]. intros p Hp. by eapply Hp. }
      rewrite clf_points_two. destruct (Qeq_bool v v') eqn:E.
      * split; [|exact Hd].
        eapply Forall_impl; [exact Hb'|].
        intros p (w & Hp & Hw) v0 y0 r [= <- <- <-].
        exists w. split; [exact Hp|]. lra.
      * assert (Hlt : (v' < v)%Q).
        { apply Qle_lteq in Hvv as [Hlt|Heq]; [exact Hlt|].
          exfalso. symmetry in Heq. apply Qeq_bool_iff in Heq. congruence. }
        split.
        -- constructor.
           ++ intros v0 y0 r [= <- <- <-]. exists v. split; [done|].
              apply Qle_refl.
           ++ eapply Forall_impl; [exact Hb'|].
              intros p (w & Hp & Hw) v0 y0 r [= <- <- <-].
              exists w. split; [exact Hp|]. lra.
        -- apply StronglySorted_cons. split; [|exact Hd].
           eapply Forall_impl; [exact Hb'|].
           intros p (w & Hp & Hw). unfold thr_desc. rewrite Hp. simpl snd.
           apply ltb_Fin. lra.
Qed.

End CurveFacts.

(** ** Dropping the collinear points *)

Module DropFacts.
Import Sklearn SortFacts CurveFacts.

Lemma StronglySorted_sublist {A} (R : relation A) (l1 l2 : list A) :
  l1 `sublist_of` l2 -> StronglySorted R l2 -> StronglySorted R l1.
Proof.
  induction 1 as [|x l1 l2 Hsub IH|x l1 l2 Hsub IH]; intros Hs.
  - constructor.
  - apply StronglySorted_cons in Hs as [Hx Hs].
    apply StronglySorted_cons. split; [|by apply IH].
    rewrite Forall_forall in *. intros y Hy.
    apply Hx. eapply sublist_subseteq; eassumption.
  - apply StronglySorted_cons in Hs as [_ Hs]. by apply IH.
Qed.

Lemma Forall_sublist {A} (P : A -> Prop) (l1 l2 : list A) :
  l1 `sublist_of` l2 -> Forall P l2 -> Forall P l1.
Proof.
  intros Hsub. rewrite !Forall_forall. intros H x Hx.
  apply H. eapply sublist_subseteq; eassumption.
Qed.

Lemma drop_mid_two prev cur next rest :
  drop_mid prev (cur :: next :: rest) =
  if corner prev cur next then cur :: drop_mid cur (next :: rest)
  else drop_mid cur (next :: rest).
Proof. reflexivity. Qed.

Lemma drop_mid_sublist prev l : drop_mid prev l `sublist_of` l.
Proof.
  revert prev. induction l as [|cur rest IH]; intros prev; [constructor|].
  destruct rest as [|next rest]; [reflexivity|].
  rewrite drop_mid_two. destruct (corner prev cur next).
  - apply sublist_skip, IH.
  - apply sublist_cons, IH.
Qed.

Lemma drop_mid_last prev l : last (drop_mid prev l) = last l.
Proof.
  revert prev. induction l as [|cur rest IH]; intros prev; [reflexivity|].
  destruct rest as [|next rest]; [reflexivity|].
  rewrite drop_mid_two. destruct (corner prev cur next).
  - by rewrite (last_cons cur (drop_mid _ _)), IH, (last_cons cur (next :: rest)).
  - rewrite IH. reflexivity.
Qed.

Lemma drop_intermediate_sublist pts : drop_intermediate pts `sublist_of` pts.
Proof.
  unfold drop_intermediate. destruct (2 <? length pts)%nat; [|reflexivity].
  destruct pts as [|p rest]; [constructor|].
  apply sublist_skip, drop_mid_sublist.
Qed.

Lemma drop_intermediate_last pts : last (drop_intermediate pts) = last pts.
Proof.
  unfold drop_intermediate. destruct (2 <? length pts)%nat; [|reflexivity].
  destruct pts as [|p rest]; [reflexivity|].
  by rewrite (last_cons p (drop_mid _ _)), drop_mid_last, (last_cons p rest).
Qed.

Lemma curve_fps_sorted bs qs :
  StronglySorted (fun p q => fps p <= fps q) (curve bs qs).
Proof.
  unfold curve. set (pts := clf_points 0 0 _).
  destruct (clf_points_fps (sort_desc (zip qs bs)) 0 0) as [Hb Hs].
  fold pts in Hb, Hs. apply StronglySorted_cons. split.
  - eapply Forall_sublist; [apply drop_intermediate_sublist|].
    eapply Forall_impl; [exact Hb|]. intros p Hp.
    unfold fps in *. simpl in *. lia.
  - eapply StronglySorted_sublist; [apply drop_intermediate_sublist|exact Hs].
Qed.

Lemma curve_thresholds_desc bs qs : StronglySorted thr_desc (curve bs qs).
Proof.
  unfold curve. set (pts := clf_points 0 0 _).
  destruct (clf_points_desc (sort_desc (zip qs bs)) 0 0) as [_ Hs];
    [apply sort_desc_sorted|].
  pose proof (clf_points_thresholds (sort_desc (zip qs bs)) 0 0) as Hm.
  fold pts in Hs, Hm. apply StronglySorted_cons. split.
  - eapply Forall_sublist; [apply drop_intermediate_sublist|].
    eapply Forall_impl; [exact Hm|]. intros p (v & Hp & _).
    unfold thr_desc. rewrite Hp. reflexivity.
  - eapply StronglySorted_sublist; [apply drop_intermediate_sublist|exact Hs].
Qed.

Lemma curve_thresholds_scores bs qs :
  length qs = length bs ->
  Forall (fun p : point => exists v, snd p = Fin v /\ v ∈ qs)
    (drop_intermediate (clf_points 0 0 (sort_desc (zip qs bs)))).
Proof.
  intros Hlen.
  eapply Forall_sublist; [apply drop_intermediate_sublist|].
  eapply Forall_impl; [apply clf_points_thresholds|].
  intros p (v & Hp & Hv). exists v. split; [exact Hp|].
  assert (Hperm : map fst (sort_desc (zip qs bs)) ≡ₚ qs).
  { etrans; [apply Permutation_map, sort_desc_perm|].
    change (map fst (zip qs bs)) with (fst <$> zip qs bs).
    rewrite fst_zip by lia. done. }
  by rewrite <- Hperm.
Qed.

Lemma positives_zip qs bs :
  length qs = length bs -> positives (zip qs bs) = count_true bs.
Proof.
  revert bs. induction qs as [|q qs IH]; intros [|b bs] Hlen;
    try discriminate; [reflexivity|].
  simpl zip_with. rewrite positives_cons, IH by (simpl in Hlen; lia).
  unfold count_true. destruct b.
  - rewrite filter_cons_True by done. simpl length. lia.
  - rewrite filter_cons_False by done. lia.
Qed.

Lemma curve_last bs qs :
  length qs = length bs -> qs <> [] ->
  exists t,
    last (curve bs qs)
    = Some (Z.of_nat (length bs) - count_true bs, count_true bs, t).
Proof.
  intros Hlen Hne. unfold curve.
  assert (Hs : sort_desc (zip qs bs) <> []).
  { intros E. apply (f_equal length) in E.
    rewrite (Permutation_length (sort_desc_perm _)) in E.
    rewrite length_zip_with_l_eq in E by exact Hlen.
    by destruct qs. }
  destruct (clf_points_last _ 0 0 Hs) as (v & Hv).
  exists (Fin v). rewrite last_cons, drop_intermediate_last, Hv.
  rewrite (Permutation_length (sort_desc_perm _)).
  rewrite (positives_perm _ _ (sort_desc_perm _)).
  rewrite length_zip_with_l_eq, positives_zip by exact Hlen.
  rewrite Hlen. do 3 f_equal; lia.
Qed.

Lemma curve_length bs qs :
  length qs = length bs -> qs <> [] -> (2 <= length (curve bs qs))%nat.
Proof.
  intros Hlen Hne. unfold curve.
  assert (Hs : sort_desc (zip qs bs) <> []).
  { intros E. apply (f_equal length) in E.
    rewrite (Permutation_length (sort_desc_perm _)) in E.
    rewrite length_zip_with_l_eq in E by exact Hlen.
    by destruct qs. }
  destruct (clf_points_last _ 0 0 Hs) as (v & Hv).
  rewrite <- drop_intermediate_last in Hv.
  destruct (drop_intermediate _); [discriminate|]. simpl. lia.
Qed.

End DropFacts.

(** ** Rates and the area *)

Module RateFacts.
Import Sklearn SortFacts CurveFacts DropFacts.

Lemma rates_length counts : length (rates counts) = length counts.
Proof. unfold rates. destruct (_ <=? 0); apply length_map. Qed.

Lemma rates_degenerate counts :
  default 0 (last counts) <= 0 -> rates counts = map (fun _ => NaN) counts.
Proof. unfold rates. intros H. apply Z.leb_le in H. by rewrite H. Qed.

Lemma rates_regular counts :
  0 < default 0 (last counts) ->
  rates counts = map (fun c => Float.ratio c (default 0 (last counts))) counts.
Proof. unfold rates. intros H. apply Z.leb_gt in H. by rewrite H. Qed.

Lemma diff_two x y r :
  Numpy.diff (x :: y :: r) = Float.sub y x :: Numpy.diff (y :: r).
Proof. reflexivity. Qed.

Lemma diff_nan_not_negative (l : list pyfloat) :
  Forall (fun x => x = NaN) l -> existsb negative (Numpy.diff l) = false.
Proof.
  induction 1 as [|x r -> Hr IH]; [reflexivity|].
  destruct Hr as [|y r -> Hr]; [reflexivity|].
  rewrite diff_two. cbn [existsb]. by rewrite IH.
Qed.

Lemma diff_sorted_not_negative (l : list pyfloat) :
  StronglySorted fin_le l -> existsb negative (Numpy.diff l) = false.
Proof.
  induction 1 as [|x r Hr IH Hx]; [reflexivity|].
  destruct r as [|y r]; [reflexivity|].
  rewrite diff_two. cbn [existsb]. rewrite IH, orb_false_r.
  apply Forall_cons in Hx as [(a & b & -> & -> & Hab) _].
  destruct (sub_Fin b a) as (q & -> & Hq).
  unfold negative, Float.of_Z. apply not_true_iff_false. rewrite ltb_Fin.
  apply Qle_not_lt. rewrite Hq. change (inject_Z 0) with 0%Q. lra.
Qed.

Lemma ratio_monotone (c c' T : Z) :
  0 < T -> c <= c' ->
  (inject_Z c / inject_Z T <= inject_Z c' / inject_Z T)%Q.
Proof.
  intros HT Hc. unfold Qdiv. apply Qmult_le_compat_r.
  - by rewrite <- Zle_Qle.
  - apply Qinv_le_0_compat. change 0%Q with (inject_Z 0).
    rewrite <- Zle_Qle. lia.
Qed.

Lemma ratio_fin_le (c c' T : Z) :
  0 < T -> c <= c' -> fin_le (Float.ratio c T) (Float.ratio c' T).
Proof.
  intros HT Hc.
  destruct (ratio_Fin c T) as (a & -> & Ha).
  destruct (ratio_Fin c' T) as (b & -> & Hb).
  exists a, b. split; [done|]. split; [done|].
  rewrite Ha, Hb. by apply ratio_monotone.
Qed.

Lemma diff_rates_not_negative (l : list Z) :
  StronglySorted Z.le l -> existsb negative (Numpy.diff (rates l)) = false.
Proof.
  intros Hs. destruct (Z_le_gt_dec (default 0 (last l)) 0) as [H|H].
  - rewrite rates_degenerate by exact H. apply diff_nan_not_negative.
    by apply Forall_map, Forall_true.
  - rewrite rates_regular by lia. apply diff_sorted_not_negative.
    change (map ?f ?l) with (f <$> l).
    eapply StronglySorted_fmap; [|exact Hs].
    intros c c' Hc. apply ratio_fin_le; [lia|exact Hc].
Qed.

Lemma auc_trapz x y :
  length x = length y -> (2 <= length x)%nat ->
  existsb negative (Numpy.diff x) = false ->
  auc x y = Ok (Numpy.trapz y x).
Proof.
  intros Hlen H2 Hneg. unfold auc.
  rewrite Hlen, Nat.eqb_refl. simpl negb. cbv iota.
  rewrite <- Hlen. destruct (Nat.ltb_spec (length x) 2) as [|_]; [lia|].
  fold negative. by rewrite Hneg.
Qed.

Lemma fps_of_sorted pts :
  StronglySorted (fun p q => fps p <= fps q) pts ->
  StronglySorted Z.le (fps_of pts).
Proof.
  induction 1 as [|p pts Hs IH Hp]; [constructor|].
  simpl. constructor; [exact IH|].
  unfold fps_of. rewrite Forall_map. exact Hp.
Qed.

(** The area under the curve of valid inputs is always computed. *)
Lemma auc_curve bs qs :
  length qs = length bs -> qs <> [] ->
  auc (rates (fps_of (curve bs qs))) (rates (tps_of (curve bs qs)))
  = Ok (Numpy.trapz (rates (tps_of (curve bs qs)))
          (rates (fps_of (curve bs qs)))).
Proof.
  intros Hlen Hne. apply auc_trapz.
  - rewrite !rates_length. unfold fps_of, tps_of. by rewrite !length_map.
  - rewrite rates_length. unfold fps_of. rewrite length_map.
    by apply curve_length.
  - apply diff_rates_not_negative, fps_of_sorted, curve_fps_sorted.
Qed.

End RateFacts.

(** ** The validation of the inputs *)

Module InputFacts.
Import Sklearn SortFacts CurveFacts DropFacts RateFacts.

Lemma check_scores_finite ys :
  Forall finite_score ys ->
  check_scores ys = Ok (omap finite_part ys) /\
  length (omap finite_part ys) = length ys.
Proof.
  intros H. unfold check_scores.
  assert (E : existsb score_is_nan ys = false /\ existsb is_none ys = false
              /\ existsb score_is_inf ys = false
              /\ length (omap finite_part ys) = length ys).
  { induction H as [|? ys (q & ->) _ (E1 & E2 & E3 & E4)]; [done|].
    cbn [existsb score_is_nan is_none score_is_inf orb].
    repeat split; try assumption.
    change (omap finite_part (Some (Fin q) :: ys))
      with (q :: omap finite_part ys).
    simpl. by rewrite E4. }
  destruct E as (-> & -> & -> & E). done.
Qed.

Lemma check_scores_Ok ys qs :
  check_scores ys = Ok qs -> Forall finite_score ys.
Proof.
  unfold check_scores.
  destruct (existsb score_is_nan ys) eqn:E1; [discriminate|].
  destruct (existsb is_none ys) eqn:E2; [discriminate|].
  destruct (existsb score_is_inf ys) eqn:E3; [discriminate|].
  intros _. induction ys as [|[[q| | |]|] ys IH]; simpl in *;
    try discriminate; constructor; eauto.
  by exists q.
Qed.

Lemma check_scores_as_scores preds :
  check_scores (as_scores preds) = Ok (map inject_Z preds).
Proof.
  destruct (check_scores_finite (as_scores preds)) as [-> _].
  - unfold as_scores. apply Forall_map, Forall_true.
    intros p. by eexists.
  - f_equal. unfold as_scores. induction preds as [|p r IH]; [done|].
    rewrite !map_cons, <- IH. reflexivity.
Qed.

Lemma check_labels_Ok y_true bs :
  check_labels y_true = Ok bs -> bs = map (Z.eqb 1) y_true /\ y_true <> [].
Proof.
  unfold check_labels. destruct (_ && _ && _) eqn:E; [|discriminate].
  intros [= <-]. split; [done|]. intros ->. discriminate.
Qed.

Lemma check_labels_real_labels (h l : list pyscore) :
  h ++ l <> [] ->
  check_labels (real_labels h l)
  = Ok (replicate (length h) false ++ replicate (length l) true).
Proof.
  intros Hne. unfold check_labels, real_labels.
  assert (H1 : forallb (fun z => (z =? -1) || (z =? 0) || (z =? 1))
                 (replicate (length h) 0 ++ replicate (length l) 1) = true).
  { apply forallb_forall. intros z Hz. apply in_app_or in Hz as [Hz|Hz];
      apply list_elem_of_In, elem_of_replicate in Hz as [-> _]; reflexivity. }
  assert (H2 : has (-1) (replicate (length h) 0 ++ replicate (length l) 1)
               = false).
  { apply not_true_iff_false. unfold has. rewrite existsb_exists.
    intros (z & Hz & Hz'). apply Z.eqb_eq in Hz' as <-.
    apply in_app_or in Hz as [Hz|Hz];
      apply list_elem_of_In, elem_of_replicate in Hz as [? _]; done. }
  rewrite H1, H2. simpl.
  destruct (Nat.eqb_spec (length (replicate (length h) 0
                                  ++ replicate (length l) 1)) 0) as [E|_].
  - rewrite length_app, !length_replicate in E.
    destruct h, l; simpl in *; done || lia.
  - simpl. f_equal. rewrite map_app.
    f_equal; (generalize (length h), (length l); intros n n'); clear.
    + induction n; simpl; congruence.
    + induction n'; simpl; congruence.
Qed.

(** [roc_curve] on inputs that pass the validation. *)
Lemma roc_curve_curve y_true y_score qs bs :
  length y_true = length y_score ->
  check_scores y_score = Ok qs ->
  check_labels y_true = Ok bs ->
  roc_curve y_true y_score
  = Ok (rates (fps_of (curve bs qs)), rates (tps_of (curve bs qs)),
        thresholds_of (curve bs qs)).
Proof.
  intros Hlen Hs Hl. unfold roc_curve, binary_clf_curve.
  rewrite Hlen, Nat.eqb_refl. simpl. rewrite Hs. simpl. rewrite Hl.
  reflexivity.
Qed.

Lemma roc_curve_Ok y_true y_score fpr tpr thr :
  roc_curve y_true y_score = Ok (fpr, tpr, thr) ->
  exists qs bs,
    length y_true = length y_score /\
    check_scores y_score = Ok qs /\
    check_labels y_true = Ok bs /\
    fpr = rates (fps_of (curve bs qs)) /\
    tpr = rates (tps_of (curve bs qs)) /\
    thr = thresholds_of (curve bs qs).
Proof.
  unfold roc_curve, binary_clf_curve. intros H.
  destruct (Nat.eqb_spec (length y_true) (length y_score)) as [E|E];
    [|discriminate].
  simpl in H. bind_inv H as pts Hp. bind_inv Hp as qs Hq.
  bind_inv Hp as bs Hb. injection Hp as <-. injection H as <- <- <-.
  exists qs, bs. by repeat split.
Qed.

End InputFacts.

(** ** The first maximum *)

Module ArgmaxFacts.
Import Numpy.

Lemma argmax_from_lt l bi b i :
  (bi < i)%nat -> (argmax_from bi b i l < i + length l)%nat.
Proof.
  revert bi b i. induction l as [|x l IH]; intros bi b i Hlt; simpl; [lia|].
  destruct (Float.is_nan b); [lia|].
  destruct (negb (Float.leb x b)).
  - specialize (IH i x (S i)). lia.
  - specialize (IH bi b (S i)). lia.
Qed.

Lemma argmax_lt l i : argmax l = Ok i -> (i < length l)%nat.
Proof.
  destruct l as [|x r]; [discriminate|]. intros [= <-].
  pose proof (argmax_from_lt r 0 x 1). simpl. lia.
Qed.

Lemma argmax_from_first_max l pre bi b :
  Forall finite (pre ++ l) ->
  pre !! bi = Some b ->
  (forall j y, pre !! j = Some y -> Float.leb y b = true) ->
  (forall j y, (j < bi)%nat -> pre !! j = Some y -> Float.ltb y b = true) ->
  first_max (pre ++ l) (argmax_from bi b (length pre) l).
Proof.
  revert pre bi b. induction l as [|x l IH]; intros pre bi b Hfin Hb Hmax Hfirst.
  - rewrite app_nil_r. exists b. by repeat split.
  - assert (Hbf : finite b).
    { rewrite Forall_forall in Hfin. apply Hfin.
      apply elem_of_app. left. eapply list_elem_of_lookup_2, Hb. }
    assert (Hxf : finite x).
    { rewrite Forall_forall in Hfin. apply Hfin.
      apply elem_of_app. right. by left. }
    destruct Hbf as (qb & ->). destruct Hxf as (qx & ->).
    assert (Hpre : forall y, y ∈ pre -> finite y).
    { intros y Hy. rewrite Forall_forall in Hfin. apply Hfin.
      apply elem_of_app. by left. }
    assert (Hlen : length (pre ++ [Fin qx]) = S (length pre)).
    { rewrite length_app. simpl. lia. }
    assert (Hbi : (bi < length pre)%nat) by (eapply lookup_lt_Some, Hb).
    cbn [argmax_from Float.is_nan].
    rewrite (cons_middle (Fin qx) pre l), app_assoc in Hfin |- *.
    rewrite <- Hlen.
    destruct (Float.leb (Fin qx) (Fin qb)) eqn:E; cbn [negb].
    + apply leb_Fin in E. apply IH; [exact Hfin | | | ].
      * by rewrite lookup_app_l.
      * intros j y Hy. apply lookup_app_Some in Hy as [Hy|[_ Hy]].
        -- by eapply Hmax.
        -- apply list_lookup_singleton_Some in Hy as [_ <-].
           by apply leb_Fin.
      * intros j y Hj Hy. rewrite lookup_app_l in Hy by lia.
        by eapply Hfirst.
    + assert (Hlt : (qb < qx)%Q).
      { apply Qnot_le_lt. intros H. apply leb_Fin in H. congruence. }
      apply IH; [exact Hfin | | | ].
      * rewrite lookup_app_r by lia. by rewrite Nat.sub_diag.
      * intros j y Hy. apply lookup_app_Some in Hy as [Hy|[_ Hy]].
        -- destruct (Hpre y) as (qy & ->);
             [eapply list_elem_of_lookup_2, Hy|].
           apply Hmax in Hy. apply leb_Fin in Hy. apply leb_Fin. lra.
        -- apply list_lookup_singleton_Some in Hy as [_ <-].
           apply leb_Fin. lra.
      * intros j y Hj Hy. rewrite lookup_app_l in Hy by lia.
        destruct (Hpre y) as (qy & ->);
          [eapply list_elem_of_lookup_2, Hy|].
        apply Hmax in Hy. apply leb_Fin in Hy. apply ltb_Fin. lra.
Qed.

Lemma argmax_first_max l i :
  Forall finite l -> argmax l = Ok i -> first_max l i.
Proof.
  destruct l as [|x r]; [discriminate|]. intros Hfin [= <-].
  destruct (Forall_cons_1 _ _ _ Hfin) as [(q & ->) _].
  apply (argmax_from_first_max r [Fin q] 0 (Fin q)); [exact Hfin|done| |].
  - intros j y Hy. apply list_lookup_singleton_Some in Hy as [_ <-].
    apply leb_Fin. lra.
  - intros j y Hj. lia.
Qed.

(** When the first entry is NaN, the index is 0. *)
Lemma argmax_nan r : argmax (NaN :: r) = Ok 0%nat.
Proof. by destruct r. Qed.


End ArgmaxFacts.

(** ** Calibration and evaluation return *)

Module ReturnFacts.
Import Sklearn SortFacts CurveFacts DropFacts RateFacts InputFacts ArgmaxFacts.

Lemma label_bits_length h l : length (label_bits h l) = length (h ++ l).
Proof. unfold label_bits. by rewrite !length_app, !length_replicate. Qed.

Lemma count_true_label_bits h l :
  count_true (label_bits h l) = Z.of_nat (length l).
Proof.
  unfold count_true, label_bits. f_equal. rewrite filter_app, length_app.
  assert (H1 : forall n, filter (fun b : bool => b = true) (replicate n false)
                         = []).
  { induction n; [done|]. simpl. by rewrite filter_cons_False. }
  assert (H2 : forall n, filter (fun b : bool => b = true) (replicate n true)
                         = replicate n true).
  { induction n as [|n IH]; [done|]. simpl.
    rewrite filter_cons_True by done. by rewrite IH. }
  by rewrite H1, H2, length_replicate.
Qed.

Lemma traverse_predict_finite t probs :
  Forall finite_score probs -> exists preds, traverse (predict t) probs = Ok preds.
Proof.
  induction 1 as [|? probs (q & ->) _ (preds & IH)]; [by exists []|].
  eexists. simpl. rewrite IH. reflexivity.
Qed.

Lemma last_fps_of pts p : last pts = Some p -> last (fps_of pts) = Some (fps p).
Proof.
  intros H. apply last_Some in H as [pre ->].
  unfold fps_of. rewrite map_app. apply last_snoc.
Qed.

Lemma last_tps_of pts p : last pts = Some p -> last (tps_of pts) = Some (tps p).
Proof.
  intros H. apply last_Some in H as [pre ->].
  unfold tps_of. rewrite map_app. apply last_snoc.
Qed.

(** The curve of the two populations and its totals. *)
Lemma population_curve_last h l qs :
  length qs = length (h ++ l) -> h ++ l <> [] ->
  default 0 (last (fps_of (curve (label_bits h l) qs))) = Z.of_nat (length h) /\
  default 0 (last (tps_of (curve (label_bits h l) qs))) = Z.of_nat (length l).
Proof.
  intros Hlen Hne.
  destruct (curve_last (label_bits h l) qs) as (t & Ht).
  - by rewrite label_bits_length.
  - intros ->. by destruct (h ++ l).
  - rewrite (last_fps_of _ _ Ht), (last_tps_of _ _ Ht).
    unfold fps, tps. simpl.
    rewrite count_true_label_bits, label_bits_length, length_app. lia.
Qed.

Lemma curve_rates_length h l qs :
  length qs = length (h ++ l) -> h ++ l <> [] ->
  (2 <= length (curve (label_bits h l) qs))%nat.
Proof.
  intros Hlen Hne. apply curve_length.
  - by rewrite label_bits_length.
  - intros ->. by destruct (h ++ l).
Qed.

(** The evaluation returns whenever its predictions exist, with the report
    of those predictions. *)
Lemma evaluation_report h l t preds :
  h ++ l <> [] ->
  traverse (predict t) (predicted_probs h l) = Ok preds ->
  exists area,
    get_roc_metrics_with_threshold h l t
    = Ok (report area t (real_labels h l) preds).
Proof.
  intros Hne Hp.
  pose proof (traverse_Ok_length _ _ _ Hp) as Hlen.
  unfold predicted_probs in Hlen.
  pose proof (roc_curve_curve (real_labels h l) (as_scores preds)
                (map inject_Z preds) (label_bits h l)) as Hc.
  rewrite real_labels_length in Hc. unfold predicted_probs, as_scores in Hc.
  rewrite length_map in Hc.
  specialize (Hc (eq_sym Hlen) (check_scores_as_scores preds)
                (check_labels_real_labels h l Hne)).
  pose proof (auc_curve (label_bits h l) (map inject_Z preds)) as Ha.
  rewrite length_map, label_bits_length in Ha. specialize (Ha Hlen).
  eexists. apply get_roc_metrics_with_threshold_Ok.
  do 4 eexists. split; [exact Hp|]. split; [exact Hc|]. split; [|reflexivity].
  apply Ha. intros E. apply (f_equal length) in E.
  rewrite length_map, Hlen in E. by destruct (h ++ l).
Qed.

(** The calibration returns on finite scores, one at least. *)
Lemma calibration_returns h l :
  h ++ l <> [] -> Forall finite_score (h ++ l) ->
  exists m, get_roc_metrics h l = Ok m.
Proof.
  intros Hne Hfin.
  destruct (check_scores_finite _ Hfin) as [Hs Hlen].
  set (qs := omap finite_part (h ++ l)) in *.
  pose proof (roc_curve_curve (real_labels h l) (predicted_probs h l) qs
                (label_bits h l) (real_labels_length h l) Hs
                (check_labels_real_labels h l Hne)) as Hc.
  pose proof (curve_rates_length h l qs Hlen Hne) as H2.
  assert (Ha := auc_curve (label_bits h l) qs).
  rewrite label_bits_length in Ha. specialize (Ha Hlen).
  set (c := curve (label_bits h l) qs) in *.
  set (J := Numpy.sub (rates (tps_of c)) (rates (fps_of c))).
  assert (HJ : length J = length c).
  { unfold J, Numpy.sub. rewrite length_zip_with, !rates_length.
    unfold tps_of, fps_of. rewrite !length_map. lia. }
  destruct (Numpy.argmax J) as [i|e] eqn:Hi;
    [|destruct J; [simpl in HJ; lia | discriminate]].
  pose proof (argmax_lt _ _ Hi) as Hlt.
  destruct (lookup_lt_is_Some_2 (thresholds_of c) i) as [t Ht].
  { unfold thresholds_of. rewrite length_map. lia. }
  destruct (traverse_predict_finite t _ Hfin) as (preds & Hp).
  exists (report (Numpy.trapz (rates (tps_of c)) (rates (fps_of c))) t
            (real_labels h l) preds).
  apply get_roc_metrics_Ok. do 5 eexists.
  split; [exact Hc|]. split; [apply Ha|].
  - intros E. rewrite E in Hlen. by destruct (h ++ l).
  - split; [exact Hi|]. split; [exact Ht|]. split; [exact Hp|reflexivity].
Qed.

End ReturnFacts.

Import Sklearn SortFacts CurveFacts DropFacts RateFacts InputFacts ArgmaxFacts
  ReturnFacts.

(** ** The threshold of the calibration *)

(** Whenever the calibration returns, the evaluation under its threshold
    returns the same classification metrics. *)
Lemma evaluation_of_calibrated (h l : list pyscore) (m : roc_metrics) :
  get_roc_metrics h l = Ok m ->
  exists m',
    get_roc_metrics_with_threshold h l (threshold m) = Ok m' /\
    conf_matrix m' = conf_matrix m /\
    precision m' = precision m /\
    recall m' = recall m /\
    f1 m' = f1 m /\
    accuracy m' = accuracy m.
Proof.
  intros Hm. apply get_roc_metrics_Ok in Hm.
  destruct Hm as (fpr & tpr & thr & i & preds & Hc & _ & _ & _ & Hp & Hr).
  apply roc_curve_Ok in Hc as (qs & bs & _ & _ & Hb & _).
  apply check_labels_Ok in Hb as [_ Hb].
  assert (Hne : h ++ l <> []).
  { intros E. apply Hb. unfold real_labels.
    apply app_eq_nil in E as [-> ->]. done. }
  destruct (evaluation_report h l (threshold m) preds Hne Hp) as (area & He).
  eexists. split; [exact He|]. rewrite Hr. by repeat split.
Qed.

(** C4. For two non-empty populations of finite scores the calibration
    returns a report, and the evaluation of the same populations under the
    threshold of that report returns a report with the same confusion matrix,
    precision, recall, F1 and accuracy. *)
Theorem C4_threshold_consistency (h l : list pyscore) :
  h <> [] -> l <> [] -> Forall finite_score (h ++ l) ->
  exists m m',
    get_roc_metrics h l = Ok m /\
    get_roc_metrics_with_threshold h l (threshold m) = Ok m' /\
    conf_matrix m' = conf_matrix m /\
    precision m' = precision m /\
    recall m' = recall m /\
    f1 m' = f1 m /\
    accuracy m' = accuracy m.
Proof.
  intros Hh _ Hfin.
  assert (Hne : h ++ l <> []) by (by destruct h).
  destruct (calibration_returns h l Hne Hfin) as (m & Hm).
  destruct (evaluation_of_calibrated h l m Hm) as (m' & Hm').
  by exists m, m'.
Qed.

(** On validated scores, the validation returned the finite parts. *)
Lemma check_scores_length ys qs :
  check_scores ys = Ok qs -> length qs = length ys.
Proof.
  intros H. pose proof (check_scores_Ok _ _ H) as Hfin.
  destruct (check_scores_finite _ Hfin) as [H' Hlen]. congruence.
Qed.

Lemma rates_finite counts :
  0 < default 0 (last counts) -> Forall finite (rates counts).
Proof.
  intros H. rewrite rates_regular by exact H.
  apply Forall_map, Forall_true. intros c. by eexists.
Qed.

Lemma thresholds_of_desc pts :
  StronglySorted thr_desc pts ->
  StronglySorted (fun a b => Float.ltb b a = true) (thresholds_of pts).
Proof.
  induction 1 as [|p pts Hs IH Hp]; [constructor|].
  simpl. constructor; [exact IH|].
  unfold thresholds_of. rewrite Forall_map. exact Hp.
Qed.

(** ** The rounding of the rates *)

(** [exponent n d] is the exponent of the power of two at or below [n / d]. *)
Lemma exponent_spec (n d : Z) :
  0 < n -> 0 < d ->
  (0 <= Binary64.exponent n d ->
   d * 2 ^ Binary64.exponent n d <= n
   < d * 2 ^ (Binary64.exponent n d + 1)) /\
  (Binary64.exponent n d < 0 ->
   d <= n * 2 ^ (- Binary64.exponent n d) < 2 * d).
Proof.
  intros Hn Hd. unfold Binary64.exponent.
  destruct (Z.log2_spec n Hn) as [An Bn]. destruct (Z.log2_spec d Hd) as [Ad Bd].
  pose proof (Z.log2_nonneg n) as Ha. pose proof (Z.log2_nonneg d) as Hb.
  set (a := Z.log2 n) in *. set (b := Z.log2 d) in *.
  replace (Z.succ a) with (a + 1) in Bn by lia.
  replace (Z.succ b) with (b + 1) in Bd by lia.
  destruct (Z.leb_spec 0 (a - b)) as [Hk|Hk].
  - assert (Ea : 2 ^ a = 2 ^ b * 2 ^ (a - b))
      by (rewrite <- Z.pow_add_r by lia; f_equal; lia).
    assert (Pk : 0 < 2 ^ (a - b)) by (apply Z.pow_pos_nonneg; lia).
    assert (Pb : 0 < 2 ^ b) by (apply Z.pow_pos_nonneg; lia).
    rewrite Z.pow_add_r, Z.pow_1_r in Bn, Bd by lia.
    destruct (Z.leb_spec (d * 2 ^ (a - b)) n) as [T|T].
    + split; [intros _|lia].
      rewrite Z.pow_add_r, Z.pow_1_r by lia. split; [exact T|nia].
    + split.
      * intros HE. replace (a - b - 1 + 1) with (a - b) by lia.
        split; [|exact T].
        assert (E2 : 2 ^ (a - b) = 2 * 2 ^ (a - b - 1)).
        { rewrite <- (Z.pow_1_r 2) at 2. rewrite <- Z.pow_add_r by lia.
          f_equal. lia. }
        nia.
      * intros HE. assert (a - b = 0) as E0 by lia.
        rewrite E0 in *. replace (- (0 - 1)) with 1 by lia.
        rewrite Z.pow_0_r in *. rewrite Z.pow_1_r. nia.
  - assert (Eb : 2 ^ b = 2 ^ a * 2 ^ (- (a - b)))
      by (rewrite <- Z.pow_add_r by lia; f_equal; lia).
    assert (Pk : 0 < 2 ^ (- (a - b))) by (apply Z.pow_pos_nonneg; lia).
    assert (Pa : 0 < 2 ^ a) by (apply Z.pow_pos_nonneg; lia).
    rewrite Z.pow_add_r, Z.pow_1_r in Bn, Bd by lia.
    destruct (Z.leb_spec d (n * 2 ^ (- (a - b)))) as [T|T].
    + split; [lia|intros _]. split; [exact T|nia].
    + split; [lia|intros _].
      replace (- (a - b - 1)) with (- (a - b) + 1) by lia.
      rewrite Z.pow_add_r, Z.pow_1_r by lia. nia.
Qed.

(** [nearest_even n d] is an integer nearest to [n / d]. *)
Lemma nearest_even_spec (n d : Z) :
  0 <= n -> 0 < d ->
  Z.abs (2 * n - 2 * Binary64.nearest_even n d * d) <= d /\
  n / d <= Binary64.nearest_even n d <= n / d + 1 /\
  (2 * n = (2 * (n / d) + 1) * d -> Z.even (Binary64.nearest_even n d) = true).
Proof.
  intros Hn Hd. unfold Binary64.nearest_even.
  pose proof (Z.div_mod n d ltac:(lia)) as E.
  pose proof (Z.mod_pos_bound n d Hd) as B.
  destruct (Z.compare_spec (2 * (n mod d)) d) as [C|C|C].
  - destruct (Z.even (n / d)) eqn:Ev.
    + repeat split; try nia. intros _. exact Ev.
    + repeat split; try nia. intros _.
      rewrite Z.even_add, Ev. reflexivity.
  - repeat split; try nia.
  - repeat split; try nia.
Qed.

(** [round q] is a number [c * 2 ^ e] with a significand [c] of 53 bits, at
    most half a unit [2 ^ e] of its last place away from [q]. *)
Lemma round_nearest (q : Q) :
  Qnum q <> 0 ->
  exists c e : Z,
    2 ^ 52 <= c <= 2 ^ 53 /\
    (0 <= e ->
     Binary64.round q = inject_Z (Z.sgn (Qnum q) * c * 2 ^ e) /\
     (- inject_Z (2 ^ e) <= (q - Binary64.round q) * 2 <= inject_Z (2 ^ e))%Q)
    /\
    (e < 0 ->
     Binary64.round q = Qmake (Z.sgn (Qnum q) * c) (Z.to_pos (2 ^ (- e))) /\
     (- (1) <= (q - Binary64.round q) * inject_Z (2 * 2 ^ (- e)) <= 1)%Q).
Proof.
  destruct q as [qn qd]. cbn [Qnum]. intros Hq.
  unfold Binary64.round. cbn [Qnum Qden].
  destruct (Z.eqb_spec (Z.abs qn) 0) as [E0|_]; [lia|].
  assert (Hqn : qn = Z.sgn qn * Z.abs qn) by lia.
  assert (Hsg : Z.sgn qn = 1 \/ Z.sgn qn = -1) by lia.
  set (n := Z.abs qn) in *. set (d := Z.pos qd).
  assert (Hn : 0 < n) by (unfold n; lia). assert (Hd : 0 < d) by (unfold d; lia).
  destruct (exponent_spec n d Hn Hd) as [Hpos Hneg].
  set (E := Binary64.exponent n d) in *.
  set (e := E - 52).
  exists (if 0 <=? e then Binary64.nearest_even n (d * 2 ^ e)
          else Binary64.nearest_even (n * 2 ^ (- e)) d), e.
  destruct (Z.leb_spec 0 e) as [He|He].
  - assert (HE : 0 <= E) by (unfold e in He; lia).
    specialize (Hpos HE).
    assert (P : 0 < 2 ^ e) by (apply Z.pow_pos_nonneg; lia).
    assert (EE : 2 ^ E = 2 ^ 52 * 2 ^ e).
    { rewrite <- Z.pow_add_r by lia. f_equal. unfold e. lia. }
    rewrite Z.pow_add_r, Z.pow_1_r, EE in Hpos by lia.
    set (D := d * 2 ^ e) in *. assert (HD : 0 < D) by (unfold D; nia).
    destruct (nearest_even_spec n D (Z.lt_le_incl _ _ Hn) HD) as (N1 & N2 & _).
    set (c := Binary64.nearest_even n D) in *.
    assert (Q1 : 2 ^ 52 <= n / D) by (apply Z.div_le_lower_bound; [exact HD|nia]).
    assert (Q2 : n / D < 2 ^ 53).
    { apply Z.div_lt_upper_bound; [exact HD|].
      change (2 ^ 53) with (2 * 2 ^ 52). nia. }
    split; [lia|]. split; [|lia]. intros _. split; [reflexivity|].
    apply Z.abs_le in N1.
    unfold Qminus, Qplus, Qopp, Qmult, Qle, inject_Z.
    cbn [Qnum Qden]. rewrite ?Pos.mul_1_r, ?Pos.mul_1_l, ?Z.mul_1_r. fold d.
    unfold D in N1. set (p2 := 2 ^ e) in *. rewrite Hqn.
    destruct Hsg as [-> | ->]; nia.
  - assert (P : 0 < 2 ^ (- e)) by (apply Z.pow_pos_nonneg; lia).
    set (N := n * 2 ^ (- e)) in *.
    assert (HN : 2 ^ 52 * d <= N < 2 ^ 53 * d).
    { change (2 ^ 53) with (2 * 2 ^ 52). unfold N.
      destruct (Z.leb_spec 0 E) as [HE|HE].
      - specialize (Hpos HE).
        assert (EE : 2 ^ 52 = 2 ^ E * 2 ^ (- e)).
        { rewrite <- Z.pow_add_r by lia. f_equal. unfold e. lia. }
        rewrite Z.pow_add_r, Z.pow_1_r in Hpos by lia.
        assert (0 < 2 ^ E) by (apply Z.pow_pos_nonneg; lia). nia.
      - specialize (Hneg HE).
        assert (EE : 2 ^ (- e) = 2 ^ 52 * 2 ^ (- E)).
        { rewrite <- Z.pow_add_r by lia. f_equal. unfold e. lia. }
        assert (0 < 2 ^ (- E)) by (apply Z.pow_pos_nonneg; lia). nia. }
    assert (HN0 : 0 <= N) by nia.
    destruct (nearest_even_spec N d HN0 Hd) as (N1 & N2 & _).
    set (c := Binary64.nearest_even N d) in *.
    assert (Q1 : 2 ^ 52 <= N / d)
      by (apply Z.div_le_lower_bound; [exact Hd|nia]).
    assert (Q2 : N / d < 2 ^ 53)
      by (apply Z.div_lt_upper_bound; [exact Hd|nia]).
    split; [lia|]. split; [lia|]. intros _. split; [reflexivity|].
    apply Z.abs_le in N1.
    unfold Qminus, Qplus, Qopp, Qmult, Qle, inject_Z.
    cbn [Qnum Qden].
    rewrite ?Pos.mul_1_r, ?Pos.mul_1_l, ?Z.mul_1_r, ?Pos2Z.inj_mul,
      ?Z2Pos.id by lia.
    fold d. unfold N in N1. set (p2 := 2 ^ (- e)) in *. rewrite Hqn.
    destruct Hsg as [-> | ->]; nia.
Qed.

Lemma rates64_finite counts :
  0 < default 0 (last counts) -> Forall finite (Binary64.rates counts).
Proof.
  intros H. unfold Binary64.rates.
  destruct (Z.leb_spec (default 0 (last counts)) 0); [lia|].
  apply Forall_map, Forall_true. intros c. by eexists.
Qed.

Lemma sub64_finite a b :
  Forall finite a -> Forall finite b ->
  Forall finite (zip_with Binary64.sub a b).
Proof.
  intros Ha. revert b. induction Ha as [|x a (qx & ->) _ IH]; intros b Hb;
    [constructor|].
  destruct Hb as [|y b (qy & ->) Hb]; [constructor|].
  simpl. constructor; [by eexists|]. by apply IH.
Qed.

Lemma roc_curve64_Ok y_true y_score fpr tpr thr :
  Binary64.roc_curve y_true y_score = Ok (fpr, tpr, thr) ->
  exists qs bs,
    length y_true = length y_score /\
    check_scores y_score = Ok qs /\
    check_labels y_true = Ok bs /\
    fpr = Binary64.rates (fps_of (curve bs qs)) /\
    tpr = Binary64.rates (tps_of (curve bs qs)) /\
    thr = thresholds_of (curve bs qs).
Proof.
  unfold Binary64.roc_curve, binary_clf_curve. intros H.
  destruct (Nat.eqb_spec (length y_true) (length y_score)) as [E|E];
    [|discriminate].
  simpl in H. bind_inv H as pts Hp. bind_inv Hp as qs Hq.
  bind_inv Hp as bs Hb. injection Hp as <-. injection H as <- <- <-.
  exists qs, bs. by repeat split.
Qed.

(** C6. Over two non-empty populations the threshold of the calibration is
    the threshold at the first index of the curve where [tpr - fpr], as the
    program computes it in binary64, is maximal: no index holds a greater
    difference and every earlier index holds a strictly smaller one. The
    indices of the curve run through strictly decreasing thresholds, [inf]
    first. *)
Theorem C6_first_maximal_threshold (h l : list pyscore) (t : pyfloat) :
  h <> [] -> l <> [] -> Binary64.optimal_threshold h l = Ok t ->
  exists fpr tpr thr i,
    Binary64.roc_curve (real_labels h l) (predicted_probs h l)
      = Ok (fpr, tpr, thr) /\
    Numpy.argmax (zip_with Binary64.sub tpr fpr) = Ok i /\
    thr !! i = Some t /\
    first_max (zip_with Binary64.sub tpr fpr) i /\
    StronglySorted (fun a b => Float.ltb b a = true) thr.
Proof.
  intros Hh Hl H. unfold Binary64.optimal_threshold in H.
  bind_inv H as c Hc. destruct c as [[fpr tpr] thr].
  bind_inv H as area Ha. bind_inv H as i Hi.
  destruct (thr !! i) as [t'|] eqn:Ht; simpl in H; [|discriminate].
  injection H as ->.
  exists fpr, tpr, thr, i. split; [exact Hc|]. split; [exact Hi|].
  split; [exact Ht|].
  apply roc_curve64_Ok in Hc as (qs & bs & _ & Hq & Hb & -> & -> & ->).
  assert (Hne : h ++ l <> []) by (by destruct h).
  rewrite (check_labels_real_labels h l Hne) in Hb. injection Hb as <-.
  fold (label_bits h l).
  apply check_scores_length in Hq. unfold predicted_probs in Hq.
  destruct (population_curve_last h l qs Hq Hne) as [Hf Hp].
  split.
  - apply argmax_first_max; [|exact Hi].
    apply sub64_finite; apply rates64_finite.
    + rewrite Hp. destruct l; [done|]. simpl. lia.
    + rewrite Hf. destruct h; [done|]. simpl. lia.
  - apply thresholds_of_desc, curve_thresholds_desc.
Qed.

(** ** The curve of the evaluation *)

(** Strictly decreasing thresholds drawn from 0 and 1 are two at most. *)
Lemma binary_thresholds_length (pts : list point) :
  StronglySorted thr_desc pts ->
  Forall (fun p => snd p = Fin 0 \/ snd p = Fin 1) pts ->
  (length pts <= 2)%nat.
Proof.
  intros Hs Hv. destruct pts as [|a [|b [|c pts]]]; simpl; try lia.
  exfalso.
  apply StronglySorted_cons in Hs as [Ha Hs].
  apply StronglySorted_cons in Hs as [Hb _].
  apply Forall_cons in Ha as [Hab Ha]. apply Forall_cons in Ha as [Hac _].
  apply Forall_cons in Hb as [Hbc _].
  apply Forall_cons in Hv as [Va Hv]. apply Forall_cons in Hv as [Vb Hv].
  apply Forall_cons in Hv as [Vc _].
  unfold thr_desc in *.
  destruct Va as [Va|Va], Vb as [Vb|Vb], Vc as [Vc|Vc];
    rewrite Va, Vb, Vc in *; discriminate.
Qed.

(** C7. The area the evaluation reports is the area under the curve of the
    hard predictions, not of the scores: [roc_curve] is given the labels and
    the 0/1 predictions, whose curve has the threshold [inf] and two
    thresholds at most besides, each 0 or 1. *)
Theorem C7_auc_of_hard_predictions (h l : list pyscore) (t : pyfloat)
    (m : roc_metrics) :
  get_roc_metrics_with_threshold h l t = Ok m ->
  exists preds fpr tpr thr,
    Forall2 (predicted t) (h ++ l) preds /\
    roc_curve (real_labels h l) (as_scores preds) = Ok (fpr, tpr, thr) /\
    auc fpr tpr = Ok (roc_auc m) /\
    (length thr <= 3)%nat /\
    Forall (fun x => x = PInf \/ x = Fin 0 \/ x = Fin 1) thr.
Proof.
  intros Hm. apply get_roc_metrics_with_threshold_Ok in Hm.
  destruct Hm as (preds & fpr & tpr & thr & Hp & Hc & Ha & _).
  apply predictions_Ok in Hp.
  exists preds, fpr, tpr, thr. split; [exact Hp|]. split; [exact Hc|].
  split; [exact Ha|].
  apply roc_curve_Ok in Hc as (qs & bs & Hlen & Hq & Hb & _ & _ & ->).
  rewrite check_scores_as_scores in Hq. injection Hq as <-.
  apply check_labels_Ok in Hb as [-> _].
  assert (Hlen' : length (map inject_Z preds)
                  = length (map (Z.eqb 1) (real_labels h l))).
  { rewrite !length_map. unfold as_scores in Hlen.
    by rewrite length_map in Hlen. }
  pose proof (curve_thresholds_desc (map (Z.eqb 1) (real_labels h l))
                (map inject_Z preds)) as Hs.
  pose proof (curve_thresholds_scores (map (Z.eqb 1) (real_labels h l))
                (map inject_Z preds) Hlen') as Hv.
  unfold curve in *. set (pts := drop_intermediate _) in *.
  assert (Hbin : Forall (fun p : point => snd p = Fin 0 \/ snd p = Fin 1) pts).
  { eapply Forall_impl; [exact Hv|]. intros p (v & -> & Hin).
    apply list_elem_of_In, in_map_iff in Hin as (z & <- & Hz).
    apply list_elem_of_In, list_elem_of_lookup in Hz as [j Hj].
    destruct (Forall2_lookup_r _ _ _ _ _ Hp Hj) as (s & _ & (x & _ & ->)).
    destruct (Float.geb x t); auto. }
  apply StronglySorted_cons in Hs as [_ Hs].
  pose proof (binary_thresholds_length pts Hs Hbin) as Hl.
  split.
  - unfold thresholds_of. simpl. rewrite length_map. lia.
  - unfold thresholds_of. simpl. constructor; [by left|].
    rewrite Forall_map. eapply Forall_impl; [exact Hbin|]. tauto.
Qed.

(** ** A population without one of the labels *)

Lemma sub_nan_r x : Float.sub x NaN = NaN.
Proof. by destruct x. Qed.

Lemma mul_nan_r x : Float.mul x NaN = NaN.
Proof. by destruct x. Qed.

Lemma rates_all_nan counts :
  default 0 (last counts) <= 0 -> all_nan (rates counts).
Proof.
  intros H. rewrite rates_degenerate by exact H.
  by apply Forall_map, Forall_true.
Qed.

Lemma trapz_nan_x x y :
  all_nan x -> (2 <= length x)%nat -> length x = length y ->
  Numpy.trapz y x = NaN.
Proof.
  intros Hx H2 Hlen.
  destruct Hx as [|x0 x -> Hx]; [simpl in H2; lia|].
  destruct Hx as [|x1 x -> Hx]; [simpl in H2; lia|].
  destruct y as [|y0 [|y1 y]]; try discriminate. reflexivity.
Qed.

Lemma trapz_nan_y x y :
  all_nan y -> (2 <= length x)%nat -> length x = length y ->
  Numpy.trapz y x = NaN.
Proof.
  intros Hy H2 Hlen.
  destruct Hy as [|y0 y -> Hy]; [simpl in *; lia|].
  destruct Hy as [|y1 y -> Hy]; [simpl in *; lia|].
  destruct x as [|x0 [|x1 x]]; try discriminate.
  cbn [Numpy.trapz]. cbn [Float.add]. by rewrite mul_nan_r.
Qed.

Lemma sub_all_nan_r a b :
  all_nan b -> all_nan (Numpy.sub a b).
Proof.
  intros Hb. revert a. induction Hb as [|y b -> _ IH]; intros [|x a];
    try constructor.
  - apply sub_nan_r.
  - apply IH.
Qed.

Lemma sub_all_nan_l a b :
  all_nan a -> all_nan (Numpy.sub a b).
Proof.
  intros Ha. revert b. induction Ha as [|x a -> _ IH]; intros [|y b];
    try constructor.
  - reflexivity.
  - apply IH.
Qed.

Lemma argmax_all_nan J :
  all_nan J -> J <> [] -> Numpy.argmax J = Ok 0%nat.
Proof. intros [|x r -> _] HJ; [done|]. apply argmax_nan. Qed.

Lemma predictions_at_inf probs :
  Forall finite_score probs ->
  traverse (predict PInf) probs = Ok (map (fun _ => 0) probs).
Proof.
  induction 1 as [|? probs (q & ->) _ IH]; [done|].
  simpl. rewrite IH. reflexivity.
Qed.

(** C2, as the code has it. The calibration makes no check of its own on
    the populations. When one of them is empty and the other holds finite
    scores, it does not fail: one of the two rates of the curve is undefined,
    and the report returned has the area NaN, the threshold [inf] and the
    metrics of the all-zero predictions. *)
Theorem C2_empty_population_not_refused (h l : list pyscore) :
  h = [] \/ l = [] -> h ++ l <> [] -> Forall finite_score (h ++ l) ->
  get_roc_metrics h l
  = Ok (report NaN PInf (real_labels h l) (map (fun _ => 0) (h ++ l))).
Proof.
  intros Hempty Hne Hfin.
  destruct (check_scores_finite _ Hfin) as [Hs Hlen].
  set (qs := omap finite_part (h ++ l)) in *.
  pose proof (roc_curve_curve (real_labels h l) (predicted_probs h l) qs
                (label_bits h l) (real_labels_length h l) Hs
                (check_labels_real_labels h l Hne)) as Hc.
  pose proof (curve_rates_length h l qs Hlen Hne) as H2.
  assert (Hq : qs <> []).
  { intros E. rewrite E in Hlen. by destruct (h ++ l). }
  assert (Ha := auc_curve (label_bits h l) qs).
  rewrite label_bits_length in Ha. specialize (Ha Hlen Hq).
  destruct (population_curve_last h l qs Hlen Hne) as [Hf Hp].
  set (c := curve (label_bits h l) qs) in *.
  assert (Hlf : length (rates (fps_of c)) = length c).
  { rewrite rates_length. unfold fps_of. by rewrite length_map. }
  assert (Hlt : length (rates (tps_of c)) = length c).
  { rewrite rates_length. unfold tps_of. by rewrite length_map. }
  assert (Harea : Numpy.trapz (rates (tps_of c)) (rates (fps_of c)) = NaN
                  /\ all_nan (Numpy.sub (rates (tps_of c)) (rates (fps_of c)))).
  { destruct Hempty as [-> | ->].
    - assert (Hn : all_nan (rates (fps_of c))).
      { apply rates_all_nan. rewrite Hf. simpl. lia. }
      split; [apply trapz_nan_x; [exact Hn|lia|congruence]|].
      by apply sub_all_nan_r.
    - assert (Hn : all_nan (rates (tps_of c))).
      { apply rates_all_nan. rewrite Hp. simpl. lia. }
      split; [apply trapz_nan_y; [exact Hn|lia|congruence]|].
      by apply sub_all_nan_l. }
  destruct Harea as [Harea HJ].
  apply get_roc_metrics_Ok. simpl.
  exists (rates (fps_of c)), (rates (tps_of c)), (thresholds_of c), 0%nat,
    (map (fun _ => 0) (h ++ l)).
  split; [exact Hc|]. split; [by rewrite Ha, Harea|].
  split.
  - apply argmax_all_nan; [exact HJ|].
    intros E. apply (f_equal length) in E. unfold Numpy.sub in E.
    rewrite length_zip_with, Hlf, Hlt in E. simpl in E. lia.
  - split; [reflexivity|]. split; [|reflexivity].
    by apply predictions_at_inf.
Qed.

(** With no score at all the validation of [roc_curve] raises. *)
Example no_scores_raise : get_roc_metrics [] [] = Raise ValueError.
Proof. reflexivity. Qed.

(** ** The properties on the sample populations *)

Lemma sample_scores_finite :
  Forall finite_score (Samples.human_scores ++ Samples.llm_scores).
Proof. repeat constructor; by eexists. Qed.

(** On the sample populations the curve has the thresholds inf, 0.8, 0.4,
    0.35 and 0.1; the difference of the rates is 1/2 at 0.8 and at 0.35, and
    the calibration returns 0.8. *)
Example sample_calibration :
  get_roc_metrics Samples.human_scores Samples.llm_scores
  = Ok {| roc_auc := Fin (3 # 4);
          threshold := Fin 0.8;
          conf_matrix := [[2; 0]; [1; 1]];
          precision := Fin 1;
          recall := Fin (1 # 2);
          f1 := Fin (2 # 3);
          accuracy := Fin (3 # 4) |}.
Proof. vm_compute. reflexivity. Qed.

Lemma C4_threshold_consistency_witness :
  exists m m',
    get_roc_metrics Samples.human_scores Samples.llm_scores = Ok m /\
    get_roc_metrics_with_threshold Samples.human_scores Samples.llm_scores
      (threshold m) = Ok m' /\
    conf_matrix m' = conf_matrix m /\
    precision m' = precision m /\
    recall m' = recall m /\
    f1 m' = f1 m /\
    accuracy m' = accuracy m.
Proof.
  apply (C4_threshold_consistency Samples.human_scores Samples.llm_scores).
  - discriminate.
  - discriminate.
  - exact sample_scores_finite.
Defined.

(** Rounding decides between the thresholds 0.9 and 0.3 of the tied
    populations. The rates at the two are [(0, 1/3)] and [(2/3, 1)]: as
    rationals both differences are one third, and the first maximum is at
    0.9. In binary64 [1 - fl(2/3)] is one unit in the last place above
    [fl(1/3)], so that the maximum is at 0.3 alone. *)
Example rounding_breaks_the_tie :
  Binary64.round (1 # 3) = 6004799503160661 # 18014398509481984 /\
  Binary64.round (2 # 3) = 6004799503160661 # 9007199254740992 /\
  Binary64.sub (Fin 1) (Binary64.div 2 3)
    = Fin (3002399751580331 # 9007199254740992) /\
  Binary64.optimal_threshold Runs.tied_human Runs.tied_llm = Ok (Fin 0.3) /\
  threshold <$> get_roc_metrics Runs.tied_human Runs.tied_llm = Ok (Fin 0.9).
Proof. repeat split; vm_compute; reflexivity. Qed.

Lemma C6_first_maximal_threshold_witness :
  exists fpr tpr thr i,
    Binary64.roc_curve (real_labels Runs.tied_human Runs.tied_llm)
      (predicted_probs Runs.tied_human Runs.tied_llm) = Ok (fpr, tpr, thr) /\
    Numpy.argmax (zip_with Binary64.sub tpr fpr) = Ok i /\
    thr !! i = Some (Fin 0.3) /\
    first_max (zip_with Binary64.sub tpr fpr) i /\
    StronglySorted (fun a b => Float.ltb b a = true) thr.
Proof.
  apply (C6_first_maximal_threshold Runs.tied_human Runs.tied_llm (Fin 0.3)).
  - discriminate.
  - discriminate.
  - vm_compute. reflexivity.
Defined.

Lemma C7_auc_of_hard_predictions_witness :
  exists preds fpr tpr thr,
    Forall2 (predicted (Fin 0.8))
      (Samples.human_scores ++ Samples.llm_scores) preds /\
    Sklearn.roc_curve
      (real_labels Samples.human_scores Samples.llm_scores)
      (as_scores preds) = Ok (fpr, tpr, thr) /\
    Sklearn.auc fpr tpr = Ok (Fin (3 # 4)) /\
    (length thr <= 3)%nat /\
    Forall (fun x => x = PInf \/ x = Fin 0 \/ x = Fin 1) thr.
Proof.
  apply (C7_auc_of_hard_predictions Samples.human_scores Samples.llm_scores
           (Fin 0.8)
           {| roc_auc := Fin (3 # 4);
              threshold := Fin 0.8;
              conf_matrix := [[2; 0]; [1; 1]];
              precision := Fin 1;
              recall := Fin (1 # 2);
              f1 := Fin (2 # 3);
              accuracy := Fin (3 # 4) |}).
  vm_compute. reflexivity.
Defined.

(** C2, the claim as stated fails: [calibrate([], [0.5, 0.6])] and
    [calibrate([0.1], [])] both return a report. *)
Lemma C2_empty_population_returns_report :
  get_roc_metrics [] [Some (Fin 0.5); Some (Fin 0.6)]
  = Ok {| roc_auc := NaN;
          threshold := PInf;
          conf_matrix := [[0; 0]; [2; 0]];
          precision := Fin 0;
          recall := Fin 0;
          f1 := Fin 0;
          accuracy := Fin 0 |}
  /\ get_roc_metrics [Some (Fin 0.1)] []
     = Ok {| roc_auc := NaN;
             threshold := PInf;
             conf_matrix := [[1]];
             precision := Fin 0;
             recall := Fin 0;
             f1 := Fin 0;
             accuracy := Fin 1 |}.
Proof. split; vm_compute; reflexivity. Qed.

Lemma C2_empty_population_not_refused_witness :
  get_roc_metrics [] [Some (Fin 0.5); Some (Fin 0.6)]
  = Ok (report NaN PInf (real_labels [] [Some (Fin 0.5); Some (Fin 0.6)])
          (map (fun _ => 0) ([] ++ [Some (Fin 0.5); Some (Fin 0.6)]))).
Proof.
  apply (C2_empty_population_not_refused [] [Some (Fin 0.5); Some (Fin 0.6)]).
  - by left.
  - discriminate.
  - repeat constructor; by eexists.
Defined.

(** * Further properties of the pipeline *)

(** ** The loop over the items *)

Section Items.

Local Open Scope string_scope.

Variable chat : string -> string -> option string.
Variable model : string.

Lemma group_item_raise it p e :
  group_item it p = Raise e ->
  e = KeyError /\ known_label it /\ llm_text_rouge2_score it = None.
Proof.
  unfold group_item, stored_score, known_label.
  destruct (String.eqb_spec (label it) "human") as [Hh|Hh].
  - destruct (llm_text_rouge2_score it); [discriminate|].
    intros [= <-]. auto.
  - destruct (String.eqb_spec (label it) "llm") as [Hl|Hl]; [|discriminate].
    destruct (llm_text_rouge2_score it); [discriminate|].
    intros [= <-]. auto.
Qed.

Lemma group_item_no_key it p :
  known_label it -> llm_text_rouge2_score it = None ->
  group_item it p = Raise KeyError.
Proof.
  unfold group_item, stored_score, known_label. intros [Hh|Hl] ->.
  - by rewrite Hh.
  - rewrite Hl. reflexivity.
Qed.

Lemma process_items_KeyError (data : list item) (p : predictions) (e : exn) :
  process_items chat model data p = Raise e -> e = KeyError.
Proof.
  revert p. induction data as [|it rest IH]; intros p; [discriminate|].
  rewrite process_items_cons.
  destruct (group_item (processed chat model it) p) as [p'|e'] eqn:Hg; simpl.
  - destruct (process_items chat model rest p') as [[r q]|e'] eqn:Hr;
      [discriminate|].
    simpl. intros [= <-]. by apply (IH p').
  - intros [= <-]. by apply group_item_raise in Hg as (-> & _).
Qed.

Lemma process_items_no_key (data : list item) (p : predictions) (it : item) :
  it ∈ data -> known_label it ->
  llm_text_rouge2_score (processed chat model it) = None ->
  process_items chat model data p = Raise KeyError.
Proof.
  intros Hin Hk Hs. revert p.
  induction data as [|it' rest IH]; intros p; [by apply elem_of_nil in Hin|].
  rewrite process_items_cons.
  destruct (group_item (processed chat model it') p) as [p'|e'] eqn:Hg; simpl.
  - apply elem_of_cons in Hin as [<-|Hin].
    + rewrite group_item_no_key in Hg; [discriminate| |done].
      unfold known_label in *. by rewrite label_processed.
    + by rewrite (IH Hin p').
  - by apply group_item_raise in Hg as (-> & _).
Qed.

(** X1. The loop over the items raises nothing but [KeyError], and raises it
    exactly when some item labelled ["human"] or ["llm"] is left without a
    score key by the loop body. *)
Theorem X1_loop_raises_only_KeyError (data : list item) (p : predictions)
    (e : exn) :
  process_items chat model data p = Raise e <->
  e = KeyError /\
  exists it, it ∈ data /\ known_label it /\
             llm_text_rouge2_score (processed chat model it) = None.
Proof.
  split.
  - intros H. split; [by apply process_items_KeyError in H|].
    revert p e H. induction data as [|it rest IH]; intros p e; [discriminate|].
    rewrite process_items_cons.
    destruct (group_item (processed chat model it) p) as [p'|e'] eqn:Hg; simpl.
    + destruct (process_items chat model rest p') as [[r q]|e'] eqn:Hr;
        [discriminate|].
      intros _. destruct (IH p' e' Hr) as (it' & Hin & Hk & Hs).
      exists it'. split; [by right|done].
    + intros _. apply group_item_raise in Hg as (_ & Hk & Hs).
      exists it. split; [by left|]. split; [|done].
      unfold known_label in *. by rewrite label_processed in Hk.
  - intros (-> & it & Hin & Hk & Hs). by apply (process_items_no_key _ _ it).
Qed.

End Items.

(** ** Corrections that are already there *)

Section Cache.

Local Open Scope string_scope.

Lemma correct_item_corrected chat model it :
  truthy (gec_text it) = true -> correct_item chat model it = it.
Proof. unfold correct_item. by intros ->. Qed.

Lemma gec_text_score_item it : gec_text (score_item it) = gec_text it.
Proof.
  unfold score_item. destruct (gec_text it) as [gec|] eqn:E; [|done].
  by destruct (Str.nonempty gec).
Qed.

Lemma text_score_item it : text (score_item it) = text it.
Proof.
  unfold score_item. destruct (gec_text it) as [gec|] eqn:E; [|done].
  by destruct (Str.nonempty gec).
Qed.

Lemma score_item_idemp it : score_item (score_item it) = score_item it.
Proof.
  unfold score_item at 1.
  rewrite !gec_text_score_item, !text_score_item, label_score_item.
  unfold score_item. destruct (gec_text it) as [gec|] eqn:E; [|done].
  by destruct (Str.nonempty gec).
Qed.

Lemma processed_corrected chat model it :
  truthy (gec_text it) = true -> processed chat model it = score_item it.
Proof. unfold processed. intros H. by rewrite correct_item_corrected. Qed.

(** X2. The correction service is not consulted for items that hold a
    correction: over such data the loop gives the same items, the same
    predictions and the same exception whatever the service answers. *)
Theorem X2_corrected_items_spare_the_service
    (chat1 chat2 : string -> string -> option string) (model : string)
    (data : list item) (p : predictions) :
  all_corrected data ->
  process_items chat1 model data p = process_items chat2 model data p.
Proof.
  intros H. revert p. induction H as [|it rest Hit _ IH]; intros p; [done|].
  rewrite !process_items_cons, !processed_corrected by exact Hit.
  destruct (group_item (score_item it) p) as [p'|e]; [|done].
  simpl. by rewrite IH.
Qed.

Lemma process_items_stored chat model data p r :
  process_items chat model data p = Ok r -> scores_stored chat model data.
Proof.
  intros H. unfold scores_stored. rewrite Forall_forall.
  intros it' Hin Hk.
  apply list_elem_of_In, in_map_iff in Hin as (it & <- & Hin).
  apply list_elem_of_In in Hin.
  destruct (llm_text_rouge2_score (processed chat model it)) eqn:E; [by eexists|].
  assert (Hr : process_items chat model data p = Raise KeyError).
  { apply (process_items_no_key _ _ _ _ it); [done| |done].
    unfold known_label in *. by rewrite label_processed in Hk. }
  congruence.
Qed.

Lemma fmap_Some_inj {A} (l k : list A) : Some <$> l = Some <$> k -> l = k.
Proof.
  revert k. induction l as [|x l IH]; intros [|y k]; try done.
  intros [= -> H]. f_equal. by apply IH.
Qed.

Lemma process_items_determined chat1 chat2 model data1 data2 p1 :
  map (processed chat1 model) data1 = map (processed chat2 model) data2 ->
  process_items chat1 model data1 {| human := []; llm := [] |}
    = Ok (map (processed chat1 model) data1, p1) ->
  scores_stored chat2 model data2 ->
  process_items chat2 model data2 {| human := []; llm := [] |}
    = Ok (map (processed chat2 model) data2, p1).
Proof.
  intros Hmap H1 Hs.
  pose proof (process_items_stored _ _ _ _ _ H1) as Hs1.
  destruct (process_items_populations chat1 model data1
              {| human := []; llm := [] |} Hs1) as (q1 & Hq1 & Hh1 & Hl1).
  destruct (process_items_populations chat2 model data2
              {| human := []; llm := [] |} Hs) as (q2 & Hq2 & Hh2 & Hl2).
  rewrite Hq2. do 2 f_equal.
  rewrite H1 in Hq1. injection Hq1 as <-.
  simpl in *. rewrite <- Hmap in Hh2, Hl2.
  rewrite <- Hh1 in Hh2. rewrite <- Hl1 in Hl2.
  apply fmap_Some_inj in Hh2, Hl2. destruct p1, q2. simpl in *. congruence.
Qed.

(** X3. A second run over the cache repeats the first: once [process_data]
    has returned and every item it cached holds a correction, running it
    again on the same file, with any correction service, returns the same
    predictions and leaves the file system as it is. *)
Theorem X3_cached_run_repeats
    (chat1 chat2 : string -> string -> option string) (model filename : string)
    (fs fs1 : gmap string file) (p : predictions) (cached : list item) :
  process_data chat1 filename model fs = Ok (fs1, p) ->
  fs1 !! processed_path filename = Some (Data cached) ->
  all_corrected cached ->
  process_data chat2 filename model fs1 = Ok (fs1, p).
Proof.
  unfold process_data. intros H Hc Hall.
  bind_inv H as data Hd. bind_inv H as r Hr. destruct r as [data' p'].
  injection H as <- <-.
  pose proof (process_items_items _ _ _ _ _ _ Hr) as ->.
  rewrite lookup_insert_eq in Hc. injection Hc as <-.
  rewrite decide_True by (rewrite lookup_insert_eq; by eexists).
  unfold load_data at 1. rewrite lookup_insert_eq. simpl.
  set (data' := map (processed chat1 model) data) in *.
  assert (Hfix : map (processed chat2 model) data' = data').
  { unfold data'. rewrite map_map. apply map_ext_in. intros it Hin.
    rewrite processed_corrected.
    - unfold processed. apply score_item_idemp.
    - unfold all_corrected, data' in Hall. rewrite Forall_forall in Hall.
      apply Hall, list_elem_of_In, in_map. exact Hin. }
  assert (Hs2 : scores_stored chat2 model data').
  { unfold scores_stored. rewrite Hfix.
    apply (process_items_stored _ _ _ _ _ Hr). }
  rewrite (process_items_determined chat1 chat2 model data data' p');
    [| by rewrite Hfix | exact Hr | exact Hs2].
  simpl. rewrite Hfix. by rewrite insert_insert_eq.
Qed.

(** X4. [process_data] raises [FileNotFoundError] when neither the cache of
    the file nor the file itself exists, and never when the cache exists,
    whether the data file is there or not: the cache is then what is read
    and what is written. *)
Theorem X4_missing_file (chat : string -> string -> option string)
    (model filename : string) (fs : gmap string file) :
  (fs !! processed_path filename = None -> fs !! filename = None ->
   process_data chat filename model fs = Raise FileNotFoundError) /\
  (is_Some (fs !! processed_path filename) ->
   process_data chat filename model fs <> Raise FileNotFoundError).
Proof.
  unfold process_data, load_data. split.
  - intros H1 H2. rewrite decide_False by (rewrite H1; by intros [? ?]).
    by rewrite H2.
  - intros Hc. rewrite decide_True by exact Hc. destruct Hc as [c Hc].
    rewrite Hc. destruct c as [items|]; simpl; [|discriminate].
    destruct (process_items chat model items _) as [[d q]|e] eqn:E;
      [discriminate|].
    simpl. intros [= ->].
    by apply process_items_KeyError in E.
Qed.

Lemma processed_kept chat model it : kept it (processed chat model it).
Proof.
  unfold kept, processed.
  rewrite text_score_item, label_score_item, gec_text_score_item.
  unfold correct_item. destruct (truthy (gec_text it)); simpl; auto.
  repeat split. discriminate.
Qed.

(** X5. The cache [process_data] writes holds the items it read, one for
    one and in order, with their texts and labels unchanged and with every
    correction that was there kept: only missing corrections and the scores
    are written. The items are read from the cache when there is one, from
    the data file otherwise. *)
Theorem X5_cache_keeps_items (chat : string -> string -> option string)
    (model filename : string) (fs fs1 : gmap string file) (p : predictions) :
  process_data chat filename model fs = Ok (fs1, p) ->
  exists data data',
    (fs !! processed_path filename = Some (Data data) \/
     fs !! processed_path filename = None /\
     fs !! filename = Some (Data data)) /\
    fs1 !! processed_path filename = Some (Data data') /\
    Forall2 kept data data'.
Proof.
  unfold process_data. intros H.
  bind_inv H as data Hd. bind_inv H as r Hr. destruct r as [data' p'].
  injection H as <- <-.
  pose proof (process_items_items _ _ _ _ _ _ Hr) as ->.
  exists data, (map (processed chat model) data).
  split; [|split; [by rewrite lookup_insert_eq|]].
  - unfold load_data in Hd.
    destruct (decide (is_Some (fs !! processed_path filename))) as [[c Hc]|Hn].
    + left. rewrite Hc in Hd |- *. destruct c; [|discriminate].
      by injection Hd as ->.
    + right. assert (fs !! processed_path filename = None) as Hnone.
      { destruct (fs !! processed_path filename); [|done].
        exfalso. apply Hn. by eexists. }
      split; [done|].
      destruct (fs !! filename) as [[items|]|]; try discriminate.
      by injection Hd as ->.
  - clear. induction data as [|it data IH]; constructor; [|exact IH].
    apply processed_kept.
Qed.

End Cache.

(** ** The files a run touches *)

Section Files.

Variable chat : string -> string -> option string.
Variable model : string.
Variable t : pyfloat.

Lemma process_data_frame filename (fs fs1 : gmap string file) p path :
  process_data chat filename model fs = Ok (fs1, p) ->
  path <> processed_path filename ->
  fs1 !! path = fs !! path.
Proof.
  unfold process_data. intros H Hp.
  bind_inv H as data Hd. bind_inv H as r Hr. destruct r as [data' p'].
  injection H as <- <-. by rewrite lookup_insert_ne.
Qed.

Lemma evaluate_file_frame filename (fs fs' : gmap string file) r path :
  evaluate_file chat model t filename fs = (fs', r) ->
  path <> processed_path filename -> path <> results_path filename ->
  fs' !! path = fs !! path.
Proof.
  unfold evaluate_file. intros H Hp Hr.
  destruct (process_data chat filename model fs) as [[fs1 p]|e] eqn:E.
  - pose proof (process_data_frame _ _ _ _ _ E Hp) as Hf.
    destruct (get_roc_metrics_with_threshold _ _ _); injection H as <- <-.
    + by rewrite lookup_insert_ne.
    + exact Hf.
  - by injection H as <- <-.
Qed.

Lemma evaluate_files_frame (filenames : list string)
    (fs fs' : gmap string file) (r : result unit) (path : string) :
  evaluate_files chat model t filenames fs = (fs', r) ->
  Forall (fun f => path <> processed_path f /\ path <> results_path f)
    filenames ->
  fs' !! path = fs !! path.
Proof.
  intros H Hall. revert fs H.
  induction Hall as [|f rest [Hp Hr] _ IH]; intros fs H.
  - by injection H as <- <-.
  - rewrite evaluate_files_cons in H.
    destruct (evaluate_file chat model t f fs) as [fs1 [[]|e]] eqn:E.
    + rewrite (IH _ H). eapply evaluate_file_frame; eassumption.
    + injection H as <- <-. eapply evaluate_file_frame; eassumption.
Qed.

Lemma process_train_frame (filenames : list string) (all : predictions)
    (fs fs' : gmap string file) (r : result predictions) (path : string) :
  process_train chat model filenames all fs = (fs', r) ->
  Forall (fun f => path <> processed_path f) filenames ->
  fs' !! path = fs !! path.
Proof.
  intros H Hall. revert all fs H.
  induction Hall as [|f rest Hp _ IH]; intros all fs H.
  - by injection H as <- <-.
  - cbn [process_train] in H.
    destruct (process_data chat f model fs) as [[fs1 p]|e] eqn:E.
    + rewrite (IH _ _ H). eapply process_data_frame; eassumption.
    + by injection H as <- <-.
Qed.

(** After a test file has been evaluated, its report is in the file system
    under the results path. *)
Lemma report_written (filename : string) (fs fs' : gmap string file) :
  evaluate_file chat model t filename fs = (fs', Ok ()) ->
  exists fs1 p m,
    process_data chat filename model fs = Ok (fs1, p) /\
    get_roc_metrics_with_threshold (human p) (llm p) t = Ok m /\
    fs' !! results_path filename
    = Some (Report (roc_auc m) t (conf_matrix m) (precision m) (recall m)
              (f1 m) (accuracy m)).
Proof.
  unfold evaluate_file. intros H.
  destruct (process_data chat filename model fs) as [[fs1 p]|e] eqn:E;
    [|discriminate].
  destruct (get_roc_metrics_with_threshold _ _ _) as [m|e] eqn:Em;
    [|discriminate].
  injection H as <-. exists fs1, p, m. split; [done|]. split; [done|].
  by rewrite lookup_insert_eq.
Qed.

Lemma evaluate_file_keeps_report filename (fs fs' : gmap string file) r path :
  evaluate_file chat model t filename fs = (fs', r) ->
  path <> processed_path filename ->
  report_under t (fs !! path) -> report_under t (fs' !! path).
Proof.
  unfold evaluate_file. intros H Hp Hr.
  destruct (process_data chat filename model fs) as [[fs1 p]|e] eqn:E.
  - pose proof (process_data_frame _ _ _ _ _ E Hp) as Hf.
    destruct (get_roc_metrics_with_threshold _ _ _); injection H as <- <-.
    + destruct (decide (path = results_path filename)) as [->|Hne].
      * rewrite lookup_insert_eq. unfold report_of. by do 6 eexists.
      * rewrite lookup_insert_ne by done. by rewrite Hf.
    + by rewrite Hf.
  - by injection H as <- <-.
Qed.

Lemma evaluate_files_keep_report filenames (fs fs' : gmap string file) r path :
  evaluate_files chat model t filenames fs = (fs', r) ->
  Forall (fun g => path <> processed_path g) filenames ->
  report_under t (fs !! path) -> report_under t (fs' !! path).
Proof.
  intros H Hall. revert fs H.
  induction Hall as [|g rest Hp _ IH]; intros fs H Hr.
  - by injection H as <- <-.
  - rewrite evaluate_files_cons in H.
    destruct (evaluate_file chat model t g fs) as [fs1 [[]|e]] eqn:E.
    + apply (IH _ H). eapply evaluate_file_keeps_report; eassumption.
    + injection H as <- <-. eapply evaluate_file_keeps_report; eassumption.
Qed.

Lemma evaluate_files_reports filenames (fs fs' : gmap string file) f :
  evaluate_files chat model t filenames fs = (fs', Ok ()) ->
  f ∈ filenames ->
  Forall (fun g => results_path f <> processed_path g) filenames ->
  report_under t (fs' !! results_path f).
Proof.
  intros H Hin Hall. revert fs H Hin.
  induction Hall as [|g rest Hp Hall IH]; intros fs H Hin;
    [by apply elem_of_nil in Hin|].
  rewrite evaluate_files_cons in H.
  destruct (evaluate_file chat model t g fs) as [fs1 [[]|e]] eqn:E;
    [|discriminate].
  destruct (decide (f ∈ rest)) as [Hr|Hr]; [by apply (IH fs1)|].
  apply elem_of_cons in Hin as [->|Hin]; [|done].
  eapply evaluate_files_keep_report; [exact H|exact Hall|].
  apply report_written in E as (fs0 & p & m & _ & _ & ->).
  by do 6 eexists.
Qed.

End Files.

(** X6. A run writes to no path but the caches of its training and test
    files and the reports of its test files: any other path of the file
    system is left as it was, whether the run returns or raises. Under
    [--threshold] the training files are not touched either. *)
Theorem X6_run_frame (chat : string -> string -> option string) (a : args)
    (fs fs' : gmap string file) (r : result unit) (path : string) :
  experiment chat a fs = (fs', r) ->
  Forall (fun f => path <> processed_path f /\ path <> results_path f)
    (split_paths (test_data_path a)) ->
  (forall train, use_threshold a = false -> train_data_path a = Some train ->
     Forall (fun f => path <> processed_path f) (split_paths train)) ->
  fs' !! path = fs !! path.
Proof.
  unfold experiment. intros H Htest Htrain.
  destruct (use_threshold a).
  - eapply evaluate_files_frame; eassumption.
  - destruct (train_data_path a) as [train|]; [|by injection H as <- <-].
    specialize (Htrain train eq_refl eq_refl).
    destruct (process_train chat (llm_model a) (split_paths train) _ fs)
      as [fs1 [all|e]] eqn:E.
    + pose proof (process_train_frame _ _ _ _ _ _ _ _ E Htrain) as Hf.
      destruct (get_roc_metrics (human all) (llm all)) as [m|e].
      * rewrite <- Hf. eapply evaluate_files_frame; eassumption.
      * by injection H as <- <-.
    + injection H as <- <-.
      eapply process_train_frame; eassumption.
Qed.

(** X7. A run that returns has written the report of every test file, each
    carrying the threshold of the run: the threshold of the command line
    under [--threshold], otherwise the threshold calibrated on the
    predictions of the training files. The report is found under the
    results path of the file unless a later test file has that path for its
    cache. *)
Theorem X7_reports_written (chat : string -> string -> option string)
    (a : args) (fs fs' : gmap string file) (f : string) :
  experiment chat a fs = (fs', Ok ()) ->
  f ∈ split_paths (test_data_path a) ->
  Forall (fun g => results_path f <> processed_path g)
    (split_paths (test_data_path a)) ->
  exists t,
    report_under t (fs' !! results_path f) /\
    if use_threshold a then t = threshold_value a
    else exists train fs1 all m,
           train_data_path a = Some train /\
           process_train chat (llm_model a) (split_paths train)
             {| human := []; llm := [] |} fs = (fs1, Ok all) /\
           get_roc_metrics (human all) (llm all) = Ok m /\
           t = threshold m.
Proof.
  unfold experiment. intros H Hin Hall.
  destruct (use_threshold a).
  - exists (threshold_value a). split; [|done].
    eapply evaluate_files_reports; eassumption.
  - destruct (train_data_path a) as [train|]; [|discriminate].
    destruct (process_train chat (llm_model a) (split_paths train) _ fs)
      as [fs1 [all|e]] eqn:E; [|discriminate].
    destruct (get_roc_metrics (human all) (llm all)) as [m|e] eqn:Em;
      [|discriminate].
    exists (threshold m). split.
    + eapply evaluate_files_reports; eassumption.
    + by exists train, fs1, all, m.
Qed.

(** ** File names *)

Section Names.

Local Open Scope string_scope.

Lemma replace_from_absent old new s :
  occurs old s = false -> Str.replace_from old new 0 s = s.
Proof.
  induction s as [|c r IH]; [done|].
  cbn [occurs Str.replace_from]. intros H.
  apply orb_false_iff in H as [H1 H2]. rewrite H1. by rewrite IH.
Qed.

(** X8. A file name in which [".json"] does not occur is its own cache path
    and its own results path: once such a file has been evaluated, the data
    file itself holds the report. *)
Theorem X8_name_without_json (chat : string -> string -> option string)
    (model : string) (t : pyfloat) (filename : string)
    (fs fs' : gmap string file) :
  occurs ".json" filename = false ->
  evaluate_file chat model t filename fs = (fs', Ok ()) ->
  processed_path filename = filename /\
  results_path filename = filename /\
  exists a th cm p r f acc, fs' !! filename = Some (Report a th cm p r f acc).
Proof.
  intros H He.
  assert (Hr : results_path filename = filename)
    by (by apply replace_from_absent).
  split; [by apply replace_from_absent|]. split; [exact Hr|].
  apply report_written in He as (fs1 & p & m & _ & _ & Hl).
  rewrite Hr in Hl. by do 7 eexists.
Qed.

(** A split has one piece at least. *)
Lemma split_by_nonempty p s : Str.split_by p s <> [].
Proof.
  destruct s as [|c r]; [done|]. simpl.
  destruct (p c); [done|]. by destruct (Str.split_by p r).
Qed.

(** X9. Splitting a list of paths at the commas loses nothing: the pieces,
    joined by commas again, are the argument, and there is always one piece
    at least (the empty argument is one empty path). *)
Theorem X9_split_paths_join (paths : string) :
  Str.join "," (split_paths paths) = paths /\ split_paths paths <> [].
Proof.
  split; [|apply split_by_nonempty].
  unfold split_paths, Str.join.
  induction paths as [|c r IH]; [done|].
  simpl. unfold Str.is_char at 1.
  destruct (Ascii.eqb_spec c ",") as [->|Hc].
  - simpl. destruct (Str.split_by (Str.is_char ",") r) as [|h tl] eqn:E.
    + by apply split_by_nonempty in E.
    + simpl in *. by rewrite IH.
  - destruct (Str.split_by (Str.is_char ",") r) as [|h tl] eqn:E.
    + by apply split_by_nonempty in E.
    + simpl in *. destruct tl; simpl in *; by rewrite <- IH.
Qed.

End Names.

(** ** The scorer *)

Section ScorerMore.

Local Open Scope Q_scope.

Lemma f_rouge_n_sym (e r o : nat) :
  Rouge.f_rouge_n e r o == Rouge.f_rouge_n r e o.
Proof.
  unfold Rouge.f_rouge_n.
  set (p := if Nat.eqb e 0 then 0 else _).
  set (q := if Nat.eqb r 0 then 0 else _).
  unfold Qdiv. rewrite (Qmult_comm p q), (Qplus_comm p q). reflexivity.
Qed.

(** X10. A score does not depend on which of the two texts is given as the
    hypothesis and which as the reference: whenever the scorer returns for
    both orders, it returns the same score. *)
Theorem X10_score_symmetric (a b : string) (f g : pyfloat) :
  Rouge.get_scores_rouge2_f a b = Ok f ->
  Rouge.get_scores_rouge2_f b a = Ok g ->
  f = g.
Proof.
  unfold Rouge.get_scores_rouge2_f, Rouge.rouge_2.
  destruct (Nat.eqb (length (Rouge.sentences a)) 0); [discriminate|].
  destruct (Nat.eqb (length (Rouge.sentences b)) 0); [discriminate|].
  simpl. intros [= <-] [= <-]. unfold Float.of_Q. f_equal.
  apply Qred_complete.
  rewrite (comm_L (∩) (Rouge.word_bigrams (Rouge.sentences a))).
  apply f_rouge_n_sym.
Qed.

Lemma harmonic_upper (p r : Q) :
  0 <= p <= 1 -> 0 <= r <= 1 ->
  2 * ((p * r) / (p + r + Rouge.eps)) <= 200000000 # 200000001.
Proof.
  intros [Hp0 Hp1] [Hr0 Hr1].
  assert (He : Rouge.eps == 1 # 100000000) by reflexivity.
  assert (Hd : 0 < p + r + Rouge.eps) by (rewrite He; lra).
  assert (Hpr1 : p * r <= p) by nra.
  assert (Hpr2 : p * r <= r) by nra.
  assert (Hpr3 : p * r <= 1) by lra.
  assert (H1 : (p * r) / (p + r + Rouge.eps) <= 100000000 # 200000001).
  { apply Qle_shift_div_r; [exact Hd|]. rewrite He. lra. }
  lra.
Qed.

Lemma f_rouge_n_upper (e r o : nat) :
  (o <= e)%nat -> (o <= r)%nat ->
  Rouge.f_rouge_n e r o <= 200000000 # 200000001.
Proof.
  intros He Hr. unfold Rouge.f_rouge_n. apply harmonic_upper.
  - destruct (Nat.eqb_spec e 0); [lra|]. apply count_ratio_bounds; lia.
  - destruct (Nat.eqb_spec r 0); [lra|]. apply count_ratio_bounds; lia.
Qed.

(** X11. No pair of texts scores above [2 / (2 + 1e-8)]: a fixed threshold
    of 1.0 or more therefore predicts the negative class for every score the
    scorer returns. *)
Theorem X11_score_below_one (a b : string) (f : pyfloat) (t : Q) :
  Rouge.get_scores_rouge2_f a b = Ok f -> 1 <= t ->
  (exists q, f = Fin q /\ q <= 200000000 # 200000001) /\
  predict (Fin t) (Some f) = Ok 0%Z.
Proof.
  intros H Ht. unfold Rouge.get_scores_rouge2_f in H.
  bind_inv H as q Hq. injection H as <-.
  unfold Rouge.rouge_2 in Hq.
  destruct (Nat.eqb _ 0); [discriminate|].
  destruct (Nat.eqb _ 0); [discriminate|].
  injection Hq as <-.
  set (q := Rouge.f_rouge_n _ _ _).
  assert (Hq : q <= 200000000 # 200000001).
  { apply f_rouge_n_upper.
    - apply subseteq_size, intersection_subseteq_l.
    - apply subseteq_size, intersection_subseteq_r. }
  split.
  - exists (Qred q). split; [done|]. by rewrite Qred_correct.
  - unfold predict, Float.of_Q, Float.geb. simpl.
    destruct (Qle_bool t (Qred q)) eqn:E; [|done].
    apply Qle_bool_iff in E. rewrite Qred_correct in E.
    assert ((200000000 # 200000001) < 1) by reflexivity. lra.
Qed.

End ScorerMore.

Section EmptyTexts.

Local Open Scope string_scope.

Lemma split_by_all_empty p s :
  forallb (fun x => negb (Str.nonempty x)) (Str.split_by p s)
  = forallb p (String.list_ascii_of_string s).
Proof.
  induction s as [|c r IH]; [done|]. simpl.
  destruct (p c); simpl; [exact IH|].
  by destruct (Str.split_by p r).
Qed.

Lemma only_stops_forallb s :
  only_stops s = forallb (Str.is_char ".") (String.list_ascii_of_string s).
Proof. induction s as [|c r IH]; [done|]. simpl. by rewrite IH. Qed.

Lemma filter_nil_forallb {A} (f : A -> bool) (l : list A) :
  Nat.eqb (length (List.filter f l)) 0 = forallb (fun x => negb (f x)) l.
Proof.
  induction l as [|x l IH]; [done|]. simpl. by destruct (f x).
Qed.

Lemma sentences_none s :
  Nat.eqb (length (Rouge.sentences s)) 0 = only_stops s.
Proof.
  unfold Rouge.sentences. rewrite length_map, filter_nil_forallb.
  by rewrite split_by_all_empty, only_stops_forallb.
Qed.

(** The scorer raises exactly when one of the two texts has no sentence; the
    exception is then [ValueError]. *)
Lemma scorer_raises (a b : string) (e : exn) :
  Rouge.get_scores_rouge2_f a b = Raise e <->
  e = ValueError /\ (only_stops a = true \/ only_stops b = true).
Proof.
  unfold Rouge.get_scores_rouge2_f, Rouge.rouge_2.
  rewrite !sentences_none.
  destruct (only_stops a), (only_stops b); simpl; split;
    try (intros [= <-]; auto); try discriminate;
    try (by intros [-> _]); intros [_ [?|?]]; discriminate.
Qed.

(** X12. An item that holds a correction is given a null score when its text
    or its correction has no sentence, that is, is made of full stops only;
    and whatever the texts, such an item is left with a score key, holding
    null or a float. *)
Theorem X12_null_score (it : item) (gec : string) :
  gec_text it = Some gec -> Str.nonempty gec = true ->
  (only_stops (text it) = true \/ only_stops gec = true ->
   llm_text_rouge2_score (score_item it) = Some None) /\
  (llm_text_rouge2_score (score_item it) = Some None \/
   exists f, llm_text_rouge2_score (score_item it) = Some (Some f)).
Proof.
  intros Hg Hn. unfold score_item. rewrite Hg, Hn. cbn [llm_text_rouge2_score].
  destruct (Rouge.get_scores_rouge2_f (text it) gec) as [f|e] eqn:E.
  - split; [|right; by eexists].
    intros H.
    assert (Hr : Rouge.get_scores_rouge2_f (text it) gec = Raise ValueError)
      by (by apply scorer_raises).
    congruence.
  - split; [done|by left].
Qed.

End EmptyTexts.

(** ** Scores the metrics cannot take *)

Section NullScores.


Lemma traverse_predict_None t probs :
  None ∈ probs -> traverse (predict t) probs = Raise TypeError.
Proof.
  induction probs as [|s probs IH]; intros H; [by apply elem_of_nil in H|].
  destruct s as [x|]; [|done].
  apply elem_of_cons in H as [H|H]; [done|].
  simpl. by rewrite IH.
Qed.

Lemma check_scores_None ys :
  None ∈ ys ->
  check_scores ys = Raise TypeError \/ check_scores ys = Raise ValueError.
Proof.
  intros H. unfold check_scores.
  destruct (existsb score_is_nan ys); [by right|].
  assert (existsb is_none ys = true) as ->; [|by left].
  apply existsb_exists. exists None. split; [|done].
  by apply list_elem_of_In.
Qed.

(** X13. A null score in either population makes both functions raise: the
    evaluation raises [TypeError] at the comparison with the threshold, and
    the calibration raises [TypeError] or [ValueError] inside [roc_curve]. *)
Theorem X13_null_score_raises (h l : list pyscore) (t : pyfloat) :
  None ∈ h ++ l ->
  get_roc_metrics_with_threshold h l t = Raise TypeError /\
  (get_roc_metrics h l = Raise TypeError \/
   get_roc_metrics h l = Raise ValueError).
Proof.
  intros H. split.
  - unfold get_roc_metrics_with_threshold, predicted_probs.
    by rewrite traverse_predict_None.
  - unfold get_roc_metrics, roc_curve, binary_clf_curve.
    rewrite real_labels_length, Nat.eqb_refl. simpl.
    unfold predicted_probs.
    destruct (check_scores_None _ H) as [-> | ->]; auto.
Qed.

Lemma check_scores_Ok_eq ys qs :
  check_scores ys = Ok qs -> qs = omap finite_part ys.
Proof.
  unfold check_scores.
  destruct (existsb score_is_nan ys); [discriminate|].
  destruct (existsb is_none ys); [discriminate|].
  destruct (existsb score_is_inf ys); [discriminate|].
  by intros [= <-].
Qed.

(** X14. The threshold the calibration returns is [inf] or one of the scores
    it was given. *)
Theorem X14_threshold_is_a_score (h l : list pyscore) (m : roc_metrics) :
  get_roc_metrics h l = Ok m ->
  threshold m = PInf \/ Some (threshold m) ∈ h ++ l.
Proof.
  intros Hm. apply get_roc_metrics_Ok in Hm.
  destruct Hm as (fpr & tpr & thr & i & preds & Hc & _ & _ & Ht & _ & _).
  apply roc_curve_Ok in Hc as (qs & bs & Hlen & Hq & Hb & _ & _ & ->).
  unfold curve, thresholds_of in Ht. rewrite map_cons in Ht.
  destruct i as [|i]; [left; by injection Ht|]. right.
  simpl in Ht. change (map ?f ?x) with (f <$> x) in Ht.
  apply list_lookup_fmap_Some in Ht as (p & -> & Hp).
  pose proof (DropFacts.curve_thresholds_scores bs qs) as Hv.
  assert (Hl : length qs = length bs).
  { apply check_labels_Ok in Hb as [-> _]. rewrite length_map, Hlen.
    pose proof (check_scores_Ok _ _ Hq) as Hfin.
    destruct (check_scores_finite _ Hfin) as [Hq' Hl]. congruence. }
  specialize (Hv Hl). rewrite Forall_forall in Hv.
  destruct (Hv p) as (v & -> & Hin); [eapply list_elem_of_lookup_2, Hp|].
  apply check_scores_Ok_eq in Hq. subst qs.
  apply list_elem_of_omap in Hin as (s & Hs & Hf).
  unfold predicted_probs in Hs.
  destruct s as [[q| | |]|]; try discriminate. by injection Hf as ->.
Qed.

End NullScores.

(** ** The confusion matrix *)

Section Confusion.

(** The four counts over a block of samples of one label [a]. *)
Lemma count_block (t : pyfloat) (a : Z) (pop : list pyscore) (preds : list Z) :
  Forall2 (predicted t) pop preds ->
  count_pairs a 1 (replicate (length pop) a) preds = reaching t pop /\
  count_pairs a 0 (replicate (length pop) a) preds
    = Z.of_nat (length pop) - reaching t pop /\
  (forall a' b, a' <> a ->
     count_pairs a' b (replicate (length pop) a) preds = 0) /\
  Z.of_nat (length (filter (fun z => z = 1) preds)) = reaching t pop /\
  Z.of_nat (length (filter (fun p : Z * Z => fst p = snd p)
                      (zip (replicate (length pop) a) preds)))
    = (if a =? 1 then reaching t pop
       else if a =? 0 then Z.of_nat (length pop) - reaching t pop else 0).
Proof.
  unfold count_pairs, reaching.
  induction 1 as [|s p pop preds (x & -> & ->) _ (IH1 & IH0 & IHn & IHp & IHa)].
  - repeat split; try done. by destruct (a =? 1), (a =? 0).
  - cbn [length replicate zip_with List.filter reaches].
    destruct (Float.geb x t); cbn [length];
      (split; [|split; [|split; [|split]]]);
      try (intros a' b Ha; specialize (IHn a' b Ha));
      try destruct (Z.eqb_spec a 1); try destruct (Z.eqb_spec a 0);
      rewrite ?filter_cons; cbn [fst snd];
      repeat case_decide; simplify_eq; cbn [length]; lia.
Qed.

Lemma unique_labels_binary (zs : list Z) :
  Forall (fun z => z = 0 \/ z = 1) zs ->
  foldr insert_label [] zs
  = (if has 0 zs then [0] else []) ++ (if has 1 zs then [1] else []).
Proof.
  induction 1 as [|z zs [-> | ->] _ IH]; [done| |]; cbn [foldr];
    rewrite IH; unfold has; cbn [existsb Z.eqb orb];
    by destruct (existsb (Z.eqb 0) zs), (existsb (Z.eqb 1) zs).
Qed.

Lemma predicted_binary t pop preds :
  Forall2 (predicted t) pop preds -> Forall (fun z => z = 0 \/ z = 1) preds.
Proof.
  induction 1 as [|s p pop preds (x & -> & ->) _ IH]; constructor; [|done].
  destruct (Float.geb x t); auto.
Qed.

Lemma count_pairs_app a b l1 l2 p1 p2 :
  length l1 = length p1 ->
  count_pairs a b (l1 ++ l2) (p1 ++ p2)
  = count_pairs a b l1 p1 + count_pairs a b l2 p2.
Proof.
  intros H. unfold count_pairs.
  rewrite zip_with_app by exact H. rewrite filter_app, length_app. lia.
Qed.

Lemma report_counted (area t : pyfloat) (h l : list pyscore) (preds : list Z) :
  h <> [] -> l <> [] ->
  Forall2 (predicted t) (h ++ l) preds ->
  counted t h l (report area t (real_labels h l) preds).
Proof.
  intros Hh Hl Hp.
  pose proof (predicted_binary _ _ _ Hp) as Hbin.
  apply Forall2_app_inv_l in Hp as (ph & pl & Hph & Hpl & ->).
  pose proof (Forall2_length _ _ _ Hph) as Lh.
  pose proof (Forall2_length _ _ _ Hpl) as Ll.
  destruct (count_block t 0 h ph Hph) as (H01 & H00 & H0n & H0p & H0a).
  destruct (count_block t 1 l pl Hpl) as (H11 & H10 & H1n & H1p & H1a).
  assert (Lr : length (replicate (length h) 0) = length ph)
    by (by rewrite length_replicate).
  assert (Hu : unique_labels (real_labels h l) (ph ++ pl) = [0; 1]).
  { unfold unique_labels. rewrite unique_labels_binary.
    - assert (has 0 (real_labels h l ++ ph ++ pl) = true) as ->.
      { apply existsb_exists. exists 0. split; [|done].
        apply in_or_app. left. apply in_or_app. left.
        destruct h; [done|]. by left. }
      assert (has 1 (real_labels h l ++ ph ++ pl) = true) as ->; [|done].
      apply existsb_exists. exists 1. split; [|done].
      apply in_or_app. left. apply in_or_app. right.
      destruct l; [done|]. by left.
    - apply Forall_app. split; [|exact Hbin].
      unfold real_labels. apply Forall_app. split;
        apply Forall_forall; intros z Hz;
        apply elem_of_replicate in Hz as [-> _]; auto. }
  assert (Hc : forall a b,
    count_pairs a b (real_labels h l) (ph ++ pl)
    = count_pairs a b (replicate (length h) 0) ph
      + count_pairs a b (replicate (length l) 1) pl).
  { intros a b. unfold real_labels. by apply count_pairs_app. }
  unfold counted, report. cbn [conf_matrix precision recall f1 accuracy].
  unfold confusion_matrix, precision_score, recall_score, f1_score,
    accuracy_score, tp_sum, pred_sum, true_sum.
  rewrite Hu. cbn [map]. rewrite !Hc.
  rewrite H01, H00, H11, H10.
  rewrite (H0n 1 1), (H0n 1 0), (H1n 0 0), (H1n 0 1) by done.
  assert (Hpred : Z.of_nat (length (filter (fun z => z = 1) (ph ++ pl)))
                  = reaching t h + reaching t l).
  { rewrite filter_app, length_app, Nat2Z.inj_add. by rewrite H0p, H1p. }
  assert (Htrue : Z.of_nat (length (filter (fun z => z = 1) (real_labels h l)))
                  = Z.of_nat (length l)).
  { unfold real_labels. rewrite filter_app, length_app.
    assert (forall n, filter (fun z : Z => z = 1) (replicate n 0) = []) as ->.
    { induction n; [done|]. simpl. by rewrite filter_cons_False. }
    assert (forall n, filter (fun z : Z => z = 1) (replicate n 1)
                      = replicate n 1) as ->.
    { induction n as [|n IH]; [done|]. simpl.
      rewrite filter_cons_True by done. by rewrite IH. }
    by rewrite length_replicate. }
  assert (Hacc : Z.of_nat (length (filter (fun p : Z * Z => fst p = snd p)
                                     (zip (real_labels h l) (ph ++ pl))))
                 = Z.of_nat (length h) - reaching t h + reaching t l).
  { unfold real_labels. rewrite zip_with_app by exact Lr.
    rewrite filter_app, length_app, Nat2Z.inj_add, H0a, H1a. done. }
  rewrite Hpred, Htrue, Hacc.
  assert (Z.of_nat (length (real_labels h l))
          = Z.of_nat (length h) + Z.of_nat (length l)) as ->.
  { unfold real_labels. rewrite length_app, !length_replicate. lia. }
  repeat split; f_equal; try (repeat f_equal; lia).
Qed.

(** X15. Over two non-empty populations the classification metrics of both
    functions are counts over the populations: with [a] the human and [b]
    the llm scores that reach the threshold, the confusion matrix is
    [[|h| - a, a], [|l| - b, b]], precision is [b / (a + b)], recall is
    [b / |l|], F1 is [2b / (|l| + a + b)] (each 0.0 over a zero
    denominator) and accuracy is [(|h| - a + b) / (|h| + |l|)]. *)
Theorem X15_metrics_are_counts (h l : list pyscore) :
  h <> [] -> l <> [] ->
  (forall t m, get_roc_metrics_with_threshold h l t = Ok m -> counted t h l m)
  /\
  (forall m, get_roc_metrics h l = Ok m -> counted (threshold m) h l m).
Proof.
  intros Hh Hl. split.
  - intros t m Hm. apply get_roc_metrics_with_threshold_Ok in Hm.
    destruct Hm as (preds & fpr & tpr & thr & Hp & _ & _ & ->).
    apply report_counted; [done|done|]. by apply predictions_Ok.
  - intros m Hm. apply get_roc_metrics_Ok in Hm.
    destruct Hm as (fpr & tpr & thr & i & preds & _ & _ & _ & _ & Hp & ->).
    cbn [threshold report].
    apply report_counted; [done|done|]. by apply predictions_Ok in Hp.
Qed.

End Confusion.

(** ** The curve of the hard predictions *)

Section HardCurve.


Lemma clf_points_block v block rest k tp :
  block <> [] ->
  Forall (fun p : Q * bool => fst p = v) block ->
  match rest with
  | [] => True
  | p :: _ => Qeq_bool v (fst p) = false
  end ->
  clf_points k tp (block ++ rest)
  = (k + Z.of_nat (length block) - (tp + positives block),
     tp + positives block, Fin v)
    :: clf_points (k + Z.of_nat (length block)) (tp + positives block) rest.
Proof.
  intros Hne Hall Hrest. revert k tp Hne.
  induction Hall as [|[v1 y] block Hv Hall IH]; intros k tp Hne; [done|].
  simpl in Hv. subst v1. rewrite positives_cons.
  destruct Hall as [|[v2 y2] block' Hv2 Hall].
  - change (positives []) with 0. cbn [app length].
    destruct rest as [|[v' y'] r].
    + rewrite clf_points_one. cbn [clf_points].
      repeat (f_equal; try lia).
    + rewrite clf_points_two. simpl in Hrest. rewrite Hrest.
      repeat (f_equal; try lia).
  - simpl in Hv2. subst v2.
    change (((v, y) :: (v, y2) :: block') ++ rest)
      with ((v, y) :: (v, y2) :: (block' ++ rest)).
    rewrite clf_points_two.
    assert (Qeq_bool v v = true) as -> by (apply Qeq_bool_iff; reflexivity).
    change ((v, y2) :: block' ++ rest) with (((v, y2) :: block') ++ rest).
    rewrite IH by done.
    rewrite (length_cons (v, y)).
    repeat (f_equal; try lia).
Qed.

Lemma filter_length_perm {A} (f : A -> bool) (l1 l2 : list A) :
  l1 ≡ₚ l2 -> length (List.filter f l1) = length (List.filter f l2).
Proof.
  induction 1 as [|x l1 l2 _ IH|x y l|l1 l2 l3 _ IH1 _ IH2]; simpl.
  - done.
  - destruct (f x); simpl; congruence.
  - destruct (f x), (f y); reflexivity.
  - congruence.
Qed.

Lemma sorted_binary_split (s : list (Q * bool)) :
  StronglySorted desc s ->
  Forall (fun p => fst p = inject_Z 1 \/ fst p = inject_Z 0) s ->
  exists ones zeros,
    s = ones ++ zeros /\
    Forall (fun p => fst p = inject_Z 1) ones /\
    Forall (fun p => fst p = inject_Z 0) zeros.
Proof.
  induction 1 as [|p s Hs IH Hp]; intros Hb.
  - exists [], []. by repeat split.
  - apply Forall_cons in Hb as [[H1|H0] Hb].
    + destruct (IH Hb) as (ones & zeros & -> & Ho & Hz).
      exists (p :: ones), zeros. repeat split; [|exact Hz]. by constructor.
    + exists [], (p :: s). repeat split; [constructor|].
      constructor; [exact H0|].
      rewrite Forall_forall in *. intros x Hx.
      destruct (Hb x Hx) as [Hx1|Hx0]; [|exact Hx0].
      specialize (Hp x Hx). unfold desc in Hp. rewrite H0, Hx1 in Hp.
      by compute in Hp.
Qed.

Lemma blocks_counts (ones zeros : list (Q * bool)) :
  Forall (fun p => fst p = inject_Z 1) ones ->
  Forall (fun p => fst p = inject_Z 0) zeros ->
  length (List.filter is_one (ones ++ zeros)) = length ones /\
  Z.of_nat (length (List.filter is_tp (ones ++ zeros))) = positives ones.
Proof.
  intros Ho Hz. rewrite !List.filter_app, !length_app.
  assert (Hz1 : List.filter is_one zeros = [] /\ List.filter is_tp zeros = []).
  { induction Hz as [|[v y] zeros Hv _ [IH1 IH2]]; [done|].
    simpl in Hv. subst v. by unfold is_tp, is_one in *. }
  destruct Hz1 as [-> ->]. simpl. rewrite !Nat.add_0_r.
  induction Ho as [|[v y] ones Hv _ [IH1 IH2]]; [done|].
  simpl in Hv. subst v. rewrite positives_cons.
  unfold is_tp, is_one in *. cbn [List.filter fst snd Qeq_bool].
  change (Qeq_bool (inject_Z 1) (inject_Z 1)) with true. cbn [andb].
  destruct y; cbn [length]; split; lia.
Qed.

Lemma samples_block_counts t (y : bool) pop preds :
  Forall2 (predicted t) pop preds ->
  Z.of_nat (length (List.filter is_one
              (zip (map inject_Z preds) (replicate (length pop) y))))
    = reaching t pop /\
  Z.of_nat (length (List.filter is_tp
              (zip (map inject_Z preds) (replicate (length pop) y))))
    = (if y then reaching t pop else 0) /\
  Forall (fun p : Q * bool => fst p = inject_Z 1 \/ fst p = inject_Z 0)
    (zip (map inject_Z preds) (replicate (length pop) y)).
Proof.
  unfold reaching.
  induction 1 as [|s p pop preds (x & -> & ->) _ (IH1 & IH2 & IH3)].
  - by destruct y.
  - cbn [length replicate map zip_with List.filter reaches].
    unfold is_tp, is_one in *. cbn [fst snd].
    destruct (Float.geb x t).
    + change (Qeq_bool (inject_Z 1) (inject_Z 1)) with true.
      destruct y; cbn [andb length]; repeat split; try lia;
        constructor; auto.
    + change (Qeq_bool (inject_Z 0) (inject_Z 1)) with false.
      destruct y; cbn [andb length]; repeat split; try lia;
        constructor; auto.
Qed.

Lemma reaching_bounds t pop : 0 <= reaching t pop <= Z.of_nat (length pop).
Proof.
  unfold reaching. split; [lia|]. apply inj_le.
  induction pop as [|s pop IH]; [done|]. simpl.
  destruct (reaches t s); simpl; lia.
Qed.

Lemma positives_app s1 s2 : positives (s1 ++ s2) = positives s1 + positives s2.
Proof. unfold positives. rewrite filter_app, length_app. lia. Qed.

(** The curve of hard predictions: two points when every prediction is the
    same, three otherwise. *)
Lemma hard_curve t (h l : list pyscore) (preds : list Z) :
  h <> [] -> l <> [] ->
  Forall2 (predicted t) (h ++ l) preds ->
  let a := reaching t h in
  let b := reaching t l in
  let nh := Z.of_nat (length h) in
  let nl := Z.of_nat (length l) in
  (exists v, curve (label_bits h l) (map inject_Z preds)
             = [(0, 0, PInf); (nh, nl, Fin v)]
             /\ ((a = 0 /\ b = 0) \/ (a = nh /\ b = nl)))
  \/ curve (label_bits h l) (map inject_Z preds)
     = [(0, 0, PInf); (a, b, Fin (inject_Z 1)); (nh, nl, Fin (inject_Z 0))].
Proof.
  intros Hh Hl Hp a b nh nl.
  pose proof (Forall2_length _ _ _ Hp) as Hlen.
  apply Forall2_app_inv_l in Hp as (ph & pl & Hph & Hpl & ->).
  pose proof (Forall2_length _ _ _ Hph) as Lh.
  pose proof (Forall2_length _ _ _ Hpl) as Ll.
  destruct (samples_block_counts t false h ph Hph) as (A1 & A2 & A3).
  destruct (samples_block_counts t true l pl Hpl) as (B1 & B2 & B3).
  set (s0 := zip (map inject_Z (ph ++ pl)) (label_bits h l)).
  assert (Hs0 : s0 = zip (map inject_Z ph) (replicate (length h) false)
                     ++ zip (map inject_Z pl) (replicate (length l) true)).
  { unfold s0, label_bits. rewrite map_app, zip_with_app; [done|].
    by rewrite length_map, length_replicate. }
  assert (Hperm := sort_desc_perm s0).
  assert (Hbin : Forall (fun p : Q * bool =>
                   fst p = inject_Z 1 \/ fst p = inject_Z 0) (sort_desc s0)).
  { rewrite Hperm, Hs0. by apply Forall_app. }
  destruct (sorted_binary_split _ (sort_desc_sorted s0) Hbin)
    as (ones & zeros & Hs & Ho & Hz).
  destruct (blocks_counts ones zeros Ho Hz) as [C1 C2].
  rewrite <- Hs in C1, C2.
  rewrite (filter_length_perm is_one _ _ Hperm) in C1.
  rewrite (filter_length_perm is_tp _ _ Hperm) in C2.
  rewrite Hs0, !List.filter_app, !length_app in C1, C2.
  rewrite Nat2Z.inj_add, A2, B2 in C2.
  apply (f_equal Z.of_nat) in C1. rewrite Nat2Z.inj_add, A1, B1 in C1.
  fold a b in C1, C2.
  assert (Ltot : Z.of_nat (length ones) + Z.of_nat (length zeros) = nh + nl).
  { pose proof (Permutation_length Hperm) as E. rewrite Hs, length_app in E.
    unfold s0 in E. rewrite length_zip_with_l_eq in E
      by (by rewrite length_map, label_bits_length).
    rewrite length_map in E. rewrite <- Hlen, length_app in E.
    unfold nh, nl. lia. }
  assert (Ptot : positives ones + positives zeros = nl).
  { rewrite <- positives_app, <- Hs, (positives_perm _ _ Hperm).
    unfold s0. rewrite positives_zip
      by (by rewrite length_map, label_bits_length).
    apply count_true_label_bits. }
  pose proof (reaching_bounds t h) as Ba. pose proof (reaching_bounds t l) as Bb.
  fold a nh in Ba. fold b nl in Bb.
  unfold curve. fold s0. rewrite Hs.
  destruct ones as [|o ones], zeros as [|z zeros].
  - exfalso. simpl in Ltot. destruct h; [done|]. unfold nh in Ltot.
    simpl in Ltot. lia.
  - left. exists (inject_Z 0). split.
    + rewrite app_nil_l, <- (app_nil_r (z :: zeros)).
      rewrite (clf_points_block (inject_Z 0)) by done. cbn [clf_points].
      unfold drop_intermediate. cbn [length Nat.ltb Nat.leb].
      change (positives []) with 0 in Ptot. simpl length in Ltot.
      cbn [length] in *. repeat (f_equal; try lia).
    + left. simpl in C1. lia.
  - left. exists (inject_Z 1). split.
    + rewrite (clf_points_block (inject_Z 1)) by done. cbn [clf_points].
      unfold drop_intermediate. cbn [length Nat.ltb Nat.leb].
      change (positives []) with 0 in Ptot. simpl (length []) in Ltot.
      cbn [length] in *. repeat (f_equal; try lia).
    + right. simpl (length []) in Ltot. lia.
  - right.
    rewrite (clf_points_block (inject_Z 1)); [|done|done|].
    2:{ apply Forall_cons in Hz as [Hz _]. rewrite Hz. reflexivity. }
    rewrite <- (app_nil_r (z :: zeros)).
    rewrite (clf_points_block (inject_Z 0)) by done. cbn [clf_points].
    unfold drop_intermediate. cbn [length Nat.ltb Nat.leb].
    cbn [length] in *. repeat (f_equal; try lia).
Qed.

Lemma rates_total (counts : list Z) (total : Z) :
  last counts = Some total -> 0 < total ->
  rates counts = map (fun c => Float.ratio c total) counts.
Proof.
  intros Hl Ht. rewrite rates_regular; rewrite Hl; [done|exact Ht].
Qed.

(** The area the evaluation reports is the trapezoidal sum over the curve
    of its hard predictions. *)
Lemma evaluation_area (h l : list pyscore) (t : pyfloat) (m : roc_metrics) :
  h ++ l <> [] ->
  get_roc_metrics_with_threshold h l t = Ok m ->
  exists preds,
    Forall2 (predicted t) (h ++ l) preds /\
    roc_auc m
    = Numpy.trapz
        (rates (tps_of (curve (label_bits h l) (map inject_Z preds))))
        (rates (fps_of (curve (label_bits h l) (map inject_Z preds)))).
Proof.
  intros Hne Hm. apply get_roc_metrics_with_threshold_Ok in Hm.
  destruct Hm as (preds & fpr & tpr & thr & Hp & Hc & Ha & _).
  pose proof (traverse_Ok_length _ _ _ Hp) as Hlen.
  unfold predicted_probs in Hlen.
  rewrite (roc_curve_curve (real_labels h l) (as_scores preds)
             (map inject_Z preds) (label_bits h l)) in Hc;
    [| rewrite real_labels_length; unfold predicted_probs, as_scores;
       by rewrite length_map
     | apply check_scores_as_scores
     | by apply check_labels_real_labels ].
  assert (fpr = rates (fps_of (curve (label_bits h l) (map inject_Z preds))))
    as -> by congruence.
  assert (tpr = rates (tps_of (curve (label_bits h l) (map inject_Z preds))))
    as -> by congruence.
  clear Hc. rewrite auc_curve in Ha;
    [| by rewrite length_map, label_bits_length
     | intros E; apply (f_equal length) in E;
       rewrite length_map, Hlen in E; by destruct (h ++ l) ].
  exists preds. split.
  - apply predictions_Ok in Hp. exact Hp.
  - congruence.
Qed.

(** The trapezoidal sum over the curve of hard predictions. *)
Lemma hard_curve_area t (h l : list pyscore) (preds : list Z) :
  h <> [] -> l <> [] ->
  Forall2 (predicted t) (h ++ l) preds ->
  Numpy.trapz
    (rates (tps_of (curve (label_bits h l) (map inject_Z preds))))
    (rates (fps_of (curve (label_bits h l) (map inject_Z preds))))
  = Float.of_Q ((1 + inject_Z (reaching t l) / inject_Z (Z.of_nat (length l))
                   - inject_Z (reaching t h) / inject_Z (Z.of_nat (length h)))
                / 2).
Proof.
  intros Hh Hl Hp.
  set (a := reaching t h). set (b := reaching t l).
  set (nh := Z.of_nat (length h)). set (nl := Z.of_nat (length l)).
  assert (Hnh : 0 < nh) by (unfold nh; destruct h; [done|simpl; lia]).
  assert (Hnl : 0 < nl) by (unfold nl; destruct l; [done|simpl; lia]).
  assert (Qh : ~ (inject_Z nh == 0)%Q).
  { change 0%Q with (inject_Z 0). rewrite inject_Z_injective. lia. }
  assert (Ql : ~ (inject_Z nl == 0)%Q).
  { change 0%Q with (inject_Z 0). rewrite inject_Z_injective. lia. }
  destruct (hard_curve t h l preds Hh Hl Hp) as [(v & -> & Hab) | ->];
    fold a b nh nl; try fold a b nh nl in Hab;
    unfold fps_of, tps_of; cbn [map fst snd];
    (rewrite (rates_total _ nl) by done); (rewrite (rates_total _ nh) by done);
    cbn [map Numpy.trapz Float.ratio Float.of_Q Float.of_Z
         Float.sub Float.add Float.mul Float.half Float.opp];
    apply (f_equal Fin), Qred_complete; rewrite !Qred_correct.
  - destruct Hab as [[-> ->] | [-> ->]]; field; auto.
  - field; auto.
Qed.

(** X16. Under a fixed threshold the area reported is that of the curve of
    the hard predictions, and over two non-empty populations it is the mean
    of the true-positive rate and of the true-negative rate:
    [(1 + b / |l| - a / |h|) / 2], with [a] the human and [b] the llm scores
    that reach the threshold. *)
Theorem X16_area_is_balanced_accuracy (h l : list pyscore) (t : pyfloat)
    (m : roc_metrics) :
  h <> [] -> l <> [] ->
  get_roc_metrics_with_threshold h l t = Ok m ->
  roc_auc m
  = Float.of_Q ((1 + inject_Z (reaching t l) / inject_Z (Z.of_nat (length l))
                   - inject_Z (reaching t h) / inject_Z (Z.of_nat (length h)))
                / 2).
Proof.
  intros Hh Hl Hm.
  assert (Hne : h ++ l <> []) by (by destruct h).
  destruct (evaluation_area h l t m Hne Hm) as (preds & Hp & ->).
  by apply hard_curve_area.
Qed.

End HardCurve.

(** ** What the points of the curve count *)

Section CurvePoints.














End CurvePoints.

(** ** The area under the curve *)

Section Area.









End Area.

(** ** The order of the scores and of the thresholds *)

Section Order.


Lemma traverse_predict_Raise t probs e :
  traverse (predict t) probs = Raise e -> e = TypeError /\ None ∈ probs.
Proof.
  induction probs as [|s probs IH]; [discriminate|].
  destruct s as [x|]; [|intros [= <-]; split; [done|by left]].
  simpl. destruct (traverse (predict t) probs) as [ps|e'] eqn:E; [discriminate|].
  simpl. intros [= <-]. destruct (IH eq_refl) as [-> Hin].
  split; [done|by right].
Qed.

Lemma traverse_predict_total t probs :
  None ∉ probs -> exists preds, traverse (predict t) probs = Ok preds.
Proof.
  intros H. destruct (traverse (predict t) probs) as [ps|e] eqn:E; [by eexists|].
  by apply traverse_predict_Raise in E as [_ Hin].
Qed.

Lemma reaching_perm t pop pop' : pop ≡ₚ pop' -> reaching t pop = reaching t pop'.
Proof. intros H. unfold reaching. by rewrite (filter_length_perm _ _ _ H). Qed.

(** The report of the evaluation, field by field. *)
Lemma evaluation_determined h l t m :
  h <> [] -> l <> [] ->
  get_roc_metrics_with_threshold h l t = Ok m ->
  m = {| roc_auc :=
           Float.of_Q
             ((1 + inject_Z (reaching t l) / inject_Z (Z.of_nat (length l))
                 - inject_Z (reaching t h) / inject_Z (Z.of_nat (length h)))
              / 2);
         threshold := t;
         conf_matrix := [[Z.of_nat (length h) - reaching t h; reaching t h];
                         [Z.of_nat (length l) - reaching t l; reaching t l]];
         precision := prf_divide (reaching t l) (reaching t h + reaching t l);
         recall := prf_divide (reaching t l) (Z.of_nat (length l));
         f1 := prf_divide (2 * reaching t l)
                 (Z.of_nat (length l) + (reaching t h + reaching t l));
         accuracy := Float.ratio
                       (Z.of_nat (length h) - reaching t h + reaching t l)
                       (Z.of_nat (length h) + Z.of_nat (length l)) |}.
Proof.
  intros Hh Hl Hm.
  assert (Ha : roc_auc m
               = Float.of_Q
                   ((1 + inject_Z (reaching t l)
                           / inject_Z (Z.of_nat (length l))
                       - inject_Z (reaching t h)
                           / inject_Z (Z.of_nat (length h))) / 2)).
  { destruct (evaluation_area h l t m) as (preds & Hp & ->);
      [by destruct h|exact Hm|]. by apply hard_curve_area. }
  apply get_roc_metrics_with_threshold_Ok in Hm.
  destruct Hm as (preds & fpr & tpr & thr & Hp & _ & _ & Hm).
  apply predictions_Ok in Hp.
  pose proof (report_counted (roc_auc m) t h l preds Hh Hl Hp) as Hc.
  rewrite <- Hm in Hc. destruct Hc as (C1 & C2 & C3 & C4 & C5).
  assert (Ht : threshold m = t) by (by rewrite Hm).
  destruct m. simpl in *. by subst.
Qed.

(** X19. The evaluation does not depend on the order of the scores inside
    each population: over two non-empty populations, permuting the human
    scores and permuting the llm scores gives the same report, or the same
    exception. *)
Theorem X19_evaluation_ignores_order (h l h' l' : list pyscore) (t : pyfloat) :
  h ≡ₚ h' -> l ≡ₚ l' -> h <> [] -> l <> [] ->
  get_roc_metrics_with_threshold h l t
  = get_roc_metrics_with_threshold h' l' t.
Proof.
  intros Ph Pl Hh Hl.
  assert (Hh' : h' <> []) by (intros ->; by apply Permutation_nil_r in Ph).
  assert (Hl' : l' <> []) by (intros ->; by apply Permutation_nil_r in Pl).
  assert (Pa : h ++ l ≡ₚ h' ++ l') by (by rewrite Ph, Pl).
  destruct (traverse (predict t) (h ++ l)) as [preds|e] eqn:E.
  - assert (Hn : None ∉ h' ++ l').
    { rewrite <- Pa. intros Hin.
      by rewrite (traverse_predict_None t _ Hin) in E. }
    destruct (traverse_predict_total t _ Hn) as (preds' & E').
    destruct (evaluation_report h l t preds) as (a & Ha);
      [by destruct h|exact E|].
    destruct (evaluation_report h' l' t preds') as (a' & Ha');
      [by destruct h'|exact E'|].
    rewrite Ha, Ha'.
    apply evaluation_determined in Ha; [|done|done].
    apply evaluation_determined in Ha'; [|done|done].
    rewrite Ha, Ha'.
    by rewrite (reaching_perm t _ _ Ph), (reaching_perm t _ _ Pl),
      (Permutation_length Ph), (Permutation_length Pl).
  - apply traverse_predict_Raise in E as [-> Hin].
    assert (Hin' : None ∈ h' ++ l') by (by rewrite <- Pa).
    unfold get_roc_metrics_with_threshold, predicted_probs.
    by rewrite !traverse_predict_None.
Qed.

Lemma leb_trans x y z :
  Float.leb x y = true -> Float.leb y z = true -> Float.leb x z = true.
Proof.
  destruct x as [a| | |], y as [b| | |], z as [c| | |]; simpl; try done.
  rewrite !Qle_bool_iff. apply Qle_trans.
Qed.

Lemma reaching_antitone t1 t2 pop :
  Float.leb t1 t2 = true -> reaching t2 pop <= reaching t1 pop.
Proof.
  intros Ht. unfold reaching. apply inj_le.
  induction pop as [|s pop IH]; [done|]. simpl.
  destruct (reaches t2 s) eqn:E2.
  - assert (reaches t1 s = true) as ->; [|simpl; lia].
    destruct s as [x|]; [|done]. simpl in *. unfold Float.geb in *.
    by apply (leb_trans _ t2).
  - destruct (reaches t1 s); simpl; lia.
Qed.

(** X20. Raising the threshold never adds a predicted positive: of two
    evaluations of the same non-empty populations, the one under the greater
    threshold counts no more false positives and no more true positives, and
    its recall is not greater. *)
Theorem X20_higher_threshold_fewer_positives (h l : list pyscore)
    (t1 t2 : pyfloat) (m1 m2 : roc_metrics) :
  h <> [] -> l <> [] -> Float.leb t1 t2 = true ->
  get_roc_metrics_with_threshold h l t1 = Ok m1 ->
  get_roc_metrics_with_threshold h l t2 = Ok m2 ->
  exists tn1 fp1 fn1 tp1 tn2 fp2 fn2 tp2,
    conf_matrix m1 = [[tn1; fp1]; [fn1; tp1]] /\
    conf_matrix m2 = [[tn2; fp2]; [fn2; tp2]] /\
    fp2 <= fp1 /\ tp2 <= tp1 /\ tn1 <= tn2 /\ fn1 <= fn2 /\
    fin_le (recall m2) (recall m1).
Proof.
  intros Hh Hl Ht H1 H2.
  apply evaluation_determined in H1; [|done|done].
  apply evaluation_determined in H2; [|done|done].
  pose proof (reaching_antitone t1 t2 h Ht) as Ha.
  pose proof (reaching_antitone t1 t2 l Ht) as Hb.
  assert (Hnl : 0 < Z.of_nat (length l)) by (destruct l; [done|simpl; lia]).
  rewrite H1, H2. cbn [conf_matrix recall].
  do 8 eexists. split; [reflexivity|]. split; [reflexivity|].
  repeat (split; [lia|]).
  unfold prf_divide. destruct (Z.eqb_spec (Z.of_nat (length l)) 0); [lia|].
  by apply RateFacts.ratio_fin_le.
Qed.

End Order.

(** ** The properties on the sample data *)

Lemma X2_corrected_items_spare_the_service_witness :
  process_items Samples.no_service "gpt-4o-mini" Samples.good_items
    {| human := []; llm := [] |}
  = process_items Runs.answering "gpt-4o-mini" Samples.good_items
      {| human := []; llm := [] |}.
Proof.
  apply X2_corrected_items_spare_the_service.
  unfold all_corrected. repeat constructor.
Defined.

Lemma X3_cached_run_repeats_witness :
  process_data Runs.answering "b.json" "gpt-4o-mini" Runs.b_cached
  = Ok (Runs.b_cached, Runs.b_predictions).
Proof.
  apply (X3_cached_run_repeats Samples.no_service Runs.answering "gpt-4o-mini"
           "b.json" Samples.only_b Runs.b_cached Runs.b_predictions
           (map (processed Samples.no_service "gpt-4o-mini")
              Samples.good_items)).
  - vm_compute. reflexivity.
  - vm_compute. reflexivity.
  - unfold all_corrected. repeat constructor.
Defined.

Lemma X5_cache_keeps_items_witness :
  exists data data',
    (Samples.only_b !! processed_path "b.json" = Some (Data data) \/
     Samples.only_b !! processed_path "b.json" = None /\
     Samples.only_b !! "b.json"%string = Some (Data data)) /\
    Runs.b_cached !! processed_path "b.json" = Some (Data data') /\
    Forall2 kept data data'.
Proof.
  apply (X5_cache_keeps_items Samples.no_service "gpt-4o-mini" "b.json"
           Samples.only_b Runs.b_cached Runs.b_predictions).
  vm_compute. reflexivity.
Defined.

Lemma X6_run_frame_witness :
  fst (experiment Samples.no_service (Samples.fixed_threshold_run "b.json")
         Samples.only_b) !! "b.json"%string
  = Samples.only_b !! "b.json"%string.
Proof.
  apply (X6_run_frame Samples.no_service (Samples.fixed_threshold_run "b.json")
           Samples.only_b _
           (snd (experiment Samples.no_service
                   (Samples.fixed_threshold_run "b.json") Samples.only_b))).
  - by destruct (experiment _ _ _).
  - repeat constructor; vm_compute; discriminate.
  - intros train H. discriminate H.
Defined.

Lemma X7_reports_written_witness :
  exists t,
    report_under t
      (fst (experiment Samples.no_service
              (Samples.fixed_threshold_run "b.json") Samples.only_b)
         !! results_path "b.json") /\
    if use_threshold (Samples.fixed_threshold_run "b.json")
    then t = threshold_value (Samples.fixed_threshold_run "b.json")
    else exists train fs1 all m,
           train_data_path (Samples.fixed_threshold_run "b.json")
             = Some train /\
           process_train Samples.no_service
             (llm_model (Samples.fixed_threshold_run "b.json"))
             (split_paths train) {| human := []; llm := [] |} Samples.only_b
             = (fs1, Ok all) /\
           get_roc_metrics (human all) (llm all) = Ok m /\
           t = threshold m.
Proof.
  apply (X7_reports_written Samples.no_service
           (Samples.fixed_threshold_run "b.json") Samples.only_b).
  - vm_compute. reflexivity.
  - vm_compute. by left.
  - repeat constructor; vm_compute; discriminate.
Defined.

Lemma X8_name_without_json_witness :
  processed_path "data" = "data"%string /\
  results_path "data" = "data"%string /\
  exists a th cm p r f acc,
    fst (evaluate_file Samples.no_service "gpt-4o-mini" (Fin 0.5) "data"
           Runs.plain_name) !! "data"%string
    = Some (Report a th cm p r f acc).
Proof.
  apply (X8_name_without_json Samples.no_service "gpt-4o-mini" (Fin 0.5) "data"
           Runs.plain_name).
  - reflexivity.
  - vm_compute. reflexivity.
Defined.

Lemma X10_score_symmetric_witness :
  exists f g,
    Rouge.get_scores_rouge2_f "She go to school every day"
      "She goes to school every day" = Ok f /\
    Rouge.get_scores_rouge2_f "She goes to school every day"
      "She go to school every day" = Ok g /\
    f = g.
Proof.
  exists (Fin (72000000 # 120000001)), (Fin (72000000 # 120000001)).
  assert (H1 : Rouge.get_scores_rouge2_f "She go to school every day"
                 "She goes to school every day"
               = Ok (Fin (72000000 # 120000001)))
    by (vm_compute; reflexivity).
  assert (H2 : Rouge.get_scores_rouge2_f "She goes to school every day"
                 "She go to school every day"
               = Ok (Fin (72000000 # 120000001)))
    by (vm_compute; reflexivity).
  split; [exact H1|]. split; [exact H2|].
  exact (X10_score_symmetric _ _ _ _ H1 H2).
Defined.

Lemma X11_score_below_one_witness :
  (exists q, Fin (200000000 # 200000001) = Fin q /\
             (q <= 200000000 # 200000001)%Q) /\
  predict (Fin 1) (Some (Fin (200000000 # 200000001))) = Ok 0.
Proof.
  apply (X11_score_below_one "The cat sat on the mat" "The cat sat on the mat").
  - vm_compute. reflexivity.
  - apply Qle_refl.
Defined.

Lemma X12_null_score_witness :
  (only_stops "..." = true \/ only_stops "Fixed text." = true ->
   llm_text_rouge2_score
     (score_item (Item "..." (Some "Fixed text.") "human" None)) = Some None) /\
  (llm_text_rouge2_score
     (score_item (Item "..." (Some "Fixed text.") "human" None)) = Some None \/
   exists f,
     llm_text_rouge2_score
       (score_item (Item "..." (Some "Fixed text.") "human" None))
     = Some (Some f)).
Proof.
  apply (X12_null_score (Item "..." (Some "Fixed text.") "human" None)
           "Fixed text."); reflexivity.
Defined.

Lemma X13_null_score_raises_witness :
  get_roc_metrics_with_threshold [None; Some (Fin 0.6)] Samples.llm_scores
    (Fin 0.5) = Raise TypeError /\
  (get_roc_metrics [None; Some (Fin 0.6)] Samples.llm_scores = Raise TypeError \/
   get_roc_metrics [None; Some (Fin 0.6)] Samples.llm_scores = Raise ValueError).
Proof.
  apply X13_null_score_raises. by left.
Defined.

Lemma X14_threshold_is_a_score_witness :
  threshold Runs.calibrated = PInf \/
  Some (threshold Runs.calibrated) ∈ Samples.human_scores ++ Samples.llm_scores.
Proof.
  apply X14_threshold_is_a_score. vm_compute. reflexivity.
Defined.

Lemma X15_metrics_are_counts_witness :
  counted (Fin 0.35) Samples.human_scores Samples.llm_scores Runs.evaluated_low /\
  counted (threshold Runs.calibrated) Samples.human_scores Samples.llm_scores
    Runs.calibrated.
Proof.
  destruct (X15_metrics_are_counts Samples.human_scores Samples.llm_scores)
    as [He Hc]; [discriminate|discriminate|].
  split.
  - apply He. vm_compute. reflexivity.
  - apply Hc. vm_compute. reflexivity.
Defined.

Lemma X16_area_is_balanced_accuracy_witness :
  roc_auc Runs.evaluated_low
  = Float.of_Q
      ((1 + inject_Z (reaching (Fin 0.35) Samples.llm_scores)
              / inject_Z (Z.of_nat (length Samples.llm_scores))
          - inject_Z (reaching (Fin 0.35) Samples.human_scores)
              / inject_Z (Z.of_nat (length Samples.human_scores)))
       / 2).
Proof.
  apply X16_area_is_balanced_accuracy; [discriminate|discriminate|].
  vm_compute. reflexivity.
Defined.



Lemma X19_evaluation_ignores_order_witness :
  get_roc_metrics_with_threshold [Some (Fin 0.1); Some (Fin 0.4)]
    Samples.llm_scores (Fin 0.35)
  = get_roc_metrics_with_threshold [Some (Fin 0.4); Some (Fin 0.1)]
      Samples.llm_scores (Fin 0.35).
Proof.
  apply X19_evaluation_ignores_order.
  - apply perm_swap.
  - reflexivity.
  - discriminate.
  - discriminate.
Defined.

Lemma X20_higher_threshold_fewer_positives_witness :
  exists tn1 fp1 fn1 tp1 tn2 fp2 fn2 tp2,
    conf_matrix Runs.evaluated_low = [[tn1; fp1]; [fn1; tp1]] /\
    conf_matrix Runs.calibrated = [[tn2; fp2]; [fn2; tp2]] /\
    fp2 <= fp1 /\ tp2 <= tp1 /\ tn1 <= tn2 /\ fn1 <= fn2 /\
    fin_le (recall Runs.calibrated) (recall Runs.evaluated_low).
Proof.
  apply (X20_higher_threshold_fewer_positives Samples.human_scores
           Samples.llm_scores (Fin 0.35) (Fin 0.8)).
  - discriminate.
  - discriminate.
  - reflexivity.
  - vm_compute. reflexivity.
  - vm_compute. reflexivity.
Defined.
